(** * partner: the MCP stdio transport and the provider decoders

    A shallow embedding of
      - internal/mcp/transport/stdio.go  (StdioTransport: Start, initialize,
        Call, Close),
      - internal/mcp/providers/things.go (parseTasks, parseTaskBlock,
        parseAreas, GetToday) and the Google Calendar provider that follows
        it (parseEvents, truncate),
      - the client of package mcp (CallTool), and
      - the panes that show what the providers return: package tasks
        (Update, renderTask, the rows of View) and
        internal/panes/calendar/model.go (Update, renderEvent,
        groupEventsByDate, formatDateHeader),
    together with the properties stated about them.

    Go strings are byte sequences: they are modelled by [string], whose
    characters are the 256 byte values; a literal such as "□" stands for its
    three UTF-8 bytes, exactly as in the Go source. *)

From Stdlib Require Import ZArith List String Ascii Bool Lia DecimalString.
Import ListNotations.
Open Scope string_scope.

(** ** Go values shared by both packages *)

(** JSONRPCError (stdio.go, lines 38-41). *)
Record JSONRPCError := mkJSONRPCError {
  Code : Z;
  Message : string
}.

(** A Go [error] value.  [RPCError] is a [*JSONRPCError] used as an error
    (stdio.go line 206); [LibError] is an error made by the os, io, os/exec or
    encoding/json packages, known by its message only; [Errorf] is
    [fmt.Errorf] with one [%w] verb: the text before it, the wrapped error and
    the text after it. *)
Inductive error : Type :=
| RPCError (e : JSONRPCError)
| LibError (msg : string)
| Errorf (pre : string) (wrapped : error) (post : string).

(** A Go [(T, error)] pair in which exactly one side is meaningful. *)
Inductive result (A : Type) : Type :=
| Ok (a : A)
| Err (e : error).
Arguments Ok {A} a.
Arguments Err {A} e.

(** [fmt]'s %d. *)
Definition itoa (z : Z) : string := NilEmpty.string_of_int (Z.to_int z).

(** The [Error() string] method: lines 43-45 for [*JSONRPCError], the wrapped
    text for [fmt.Errorf]. *)
Fixpoint Error_string (e : error) : string :=
  match e with
  | RPCError r => "JSON-RPC error " ++ itoa (Code r) ++ ": " ++ Message r
  | LibError msg => msg
  | Errorf pre w post => pre ++ Error_string w ++ post
  end.

(** [errors.Unwrap], iterated: the innermost error of a chain of [%w]. *)
Fixpoint root_cause (e : error) : error :=
  match e with
  | Errorf _ w _ => root_cause w
  | _ => e
  end.

Definition nl : string := String (ascii_of_nat 10) EmptyString.

(** ** internal/mcp/transport/stdio.go *)
Module Transport.

(** [int64] arithmetic wraps around (atomic.AddInt64). *)
Definition wrap64 (z : Z) : Z :=
  ((z + 2 ^ 63) mod 2 ^ 64 - 2 ^ 63)%Z.

(** json.RawMessage: a byte slice, [None] when it is nil. *)
Definition RawMessage := option string.

(** JSONRPCResponse (lines 30-35); the jsonrpc field is never read. *)
Record JSONRPCResponse := mkResponse {
  ID : Z;
  Result : RawMessage;
  Error : option JSONRPCError
}.

(** JSONRPCNotification (lines 23-27); Params is always absent in this file. *)
Record JSONRPCNotification := mkNotification {
  notif_JSONRPC : string;
  notif_Method : string
}.

Definition io_EOF : error := LibError "EOF".
Definition os_ErrClosed : error := LibError "file already closed".

(** JSONRPCRequest (lines 15-20); [Params] is what the caller passes as
    [params interface{}]. *)
Record JSONRPCRequest (Params : Type) := mkRequest {
  req_JSONRPC : string;
  req_ID : Z;
  req_Method : string;
  req_Params : Params
}.
Arguments mkRequest {Params} _ _ _ _.

(** What encoding/json does with the messages of this file.  The library is
    outside the repository, so the transport is written against this
    interface: [initParams] is the map literal of lines 128-135,
    [json_Marshal] is json.Marshal on a request (the bytes, or the
    marshalling error), [json_Marshal_notification] is json.Marshal on a
    notification (its error is dropped at line 147), and [json_Unmarshal] is
    json.Unmarshal of one line into a fresh JSONRPCResponse, [None] when it
    reports an error. *)
Class Codec (Params : Type) := {
  initParams : Params;
  json_Marshal : JSONRPCRequest Params -> result string;
  json_Marshal_notification : JSONRPCNotification -> string;
  json_Unmarshal : string -> option JSONRPCResponse
}.

(** StdioTransport (lines 48-57) with the child process seen from the pipes.
    [spawn_err] is what [cmd.Start()] will answer; [Process] says whether
    [cmd.Process] is non-nil; [stdin] holds what was written to the child,
    oldest first; [stdout] holds the complete lines the child prints that
    have not been read yet, each as [ReadBytes] returns it (when it is empty
    the read fails: the child has exited); [spawns] counts the invocations of
    [cmd.Start()] and [killed] records [Process.Kill()]. *)
Record StdioTransport := mkTransport {
  spawn_err : option error;
  Process : bool;
  killed : bool;
  spawns : nat;
  stdin : list string;
  stdin_closed : bool;
  stdout : list string;
  reqID : Z;
  started : bool;
  startOnce : bool
}.

(** NewStdioTransport (lines 70-97) once the three pipes exist. *)
Definition NewStdioTransport (spawn : option error) (script : list string)
  : StdioTransport :=
  mkTransport spawn false false 0 [] false script 0 false false.

Definition set_stdin (t : StdioTransport) (w : list string) :=
  mkTransport (spawn_err t) (Process t) (killed t) (spawns t) w
    (stdin_closed t) (stdout t) (reqID t) (started t) (startOnce t).
Definition set_stdout (t : StdioTransport) (r : list string) :=
  mkTransport (spawn_err t) (Process t) (killed t) (spawns t) (stdin t)
    (stdin_closed t) r (reqID t) (started t) (startOnce t).
Definition set_reqID (t : StdioTransport) (n : Z) :=
  mkTransport (spawn_err t) (Process t) (killed t) (spawns t) (stdin t)
    (stdin_closed t) (stdout t) n (started t) (startOnce t).
Definition set_started (t : StdioTransport) (b : bool) :=
  mkTransport (spawn_err t) (Process t) (killed t) (spawns t) (stdin t)
    (stdin_closed t) (stdout t) (reqID t) b (startOnce t).
Definition set_startOnce (t : StdioTransport) (b : bool) :=
  mkTransport (spawn_err t) (Process t) (killed t) (spawns t) (stdin t)
    (stdin_closed t) (stdout t) (reqID t) (started t) b.

(** [t.stdin.Write(p)]: fails on a closed pipe, else the bytes reach the
    child. *)
Definition Write (t : StdioTransport) (p : string)
  : option error * StdioTransport :=
  if stdin_closed t then (Some os_ErrClosed, t)
  else (None, set_stdin t (stdin t ++ [p])).

(** [t.cmd.Start()]: on failure os/exec closes the parent's ends of the
    pipes; on success [cmd.Process] is set. *)
Definition cmd_Start (t : StdioTransport) : option error * StdioTransport :=
  match spawn_err t with
  | Some e =>
      (Some e,
       mkTransport (spawn_err t) false (killed t) (S (spawns t)) (stdin t)
         true [] (reqID t) (started t) (startOnce t))
  | None =>
      (None,
       mkTransport (spawn_err t) true (killed t) (S (spawns t)) (stdin t)
         (stdin_closed t) (stdout t) (reqID t) (started t) (startOnce t))
  end.

Section WithCodec.
Context {Params : Type} `{Codec Params}.

(** One turn of the [for] loop of lines 186-210 on the line just read:
    [None] is [continue], [Some r] is [return r]. *)
Definition read_line (id : Z) (line : string) : option (result RawMessage) :=
  match json_Unmarshal line with
  | None => None
  | Some resp =>
      if (ID resp =? 0)%Z
         && match Result resp with None => true | Some _ => false end
         && match Error resp with None => true | Some _ => false end
      then None
      else if (ID resp =? id)%Z then
        match Error resp with
        | Some e => Some (Err (RPCError e))
        | None => Some (Ok (Result resp))
        end
      else None
  end.

(** The loop over the lines still to come from the child: it answers with
    the outcome of the call and the lines left unread.  When no line is left
    ReadBytes fails. *)
Fixpoint read_response (id : Z) (lines : list string)
  : result RawMessage * list string :=
  match lines with
  | [] => (Err (Errorf "failed to read response: " io_EOF ""), [])
  | line :: rest =>
      match read_line id line with
      | Some r => (r, rest)
      | None => read_response id rest
      end
  end.

(** Lines 164-210 of Call: what happens between [t.mu.Lock()] and the
    deferred [t.mu.Unlock()]. *)
Definition Call_locked (t : StdioTransport) (method : string) (params : Params)
  : result RawMessage * StdioTransport :=
  let id := wrap64 (reqID t + 1) in
  let t := set_reqID t id in
  let req := mkRequest "2.0" id method params in
  match json_Marshal req with
  | Err e => (Err (Errorf "failed to marshal request: " e ""), t)
  | Ok data =>
      match Write t (data ++ nl) with
      | (Some e, t) => (Err (Errorf "failed to write request: " e ""), t)
      | (None, t) =>
          let (r, rest) := read_response id (stdout t) in
          (r, set_stdout t rest)
      end
  end.

(** The type of [t.Call] as the handshake uses it; [None] stands for a
    recursion that did not come back within the depth given to [Call_rec]. *)
Definition caller : Type :=
  StdioTransport -> string -> Params ->
  option (result RawMessage * StdioTransport).

(** initialize (lines 124-153). *)
Definition initialize (call : caller) (t : StdioTransport)
  : option (option error * StdioTransport) :=
  match call t "initialize" initParams with
  | None => None
  | Some (Err e, t) => Some (Some (Errorf "initialize failed: " e ""), t)
  | Some (Ok _, t) =>
      let notif := mkNotification "2.0" "notifications/initialized" in
      let data := json_Marshal_notification notif in
      Some (Write t (data ++ nl))
  end.

(** Start (lines 100-121).  [startErr] is a local of this invocation, and the
    function literal runs only when the [sync.Once] has not fired. *)
Definition Start (call : caller) (t : StdioTransport)
  : option (option error * StdioTransport) :=
  if startOnce t then Some (None, t)
  else
    match cmd_Start t with
    | (Some e, t) =>
        Some (Some (Errorf "failed to start MCP server: " e ""),
              set_startOnce t true)
    | (None, t) =>
        let t := set_started t true in
        match initialize call t with
        | None => None
        | Some (Some e, t) =>
            Some (Some (Errorf "failed to initialize MCP connection: " e ""),
                  set_startOnce t true)
        | Some (None, t) => Some (None, set_startOnce t true)
        end
    end.

(** Call (lines 156-211).  Call, Start and initialize call each other; the
    recursion is unfolded [depth] times. *)
Fixpoint Call_rec (depth : nat) (t : StdioTransport) (method : string)
  (params : Params) : option (result RawMessage * StdioTransport) :=
  match depth with
  | O => None
  | S d =>
      if negb (started t) then
        match Start (Call_rec d) t with
        | None => None
        | Some (Some err, t) => Some (Err err, t)
        | Some (None, t) => Some (Call_locked t method params)
        end
      else Some (Call_locked t method params)
  end.

(** The recursion is two deep at most; see [Call_rec_depth]. *)
Definition Call : caller := Call_rec 2.

(** The transport on which the round trip of a call runs: the transport
    itself when it has been started, else what a Start that returns nil
    leaves of it (lines 158-162). *)
Definition after_start (t t1 : StdioTransport) : Prop :=
  (started t = true /\ t1 = t) \/
  (started t = false /\ Start Call t = Some (None, t1)).

(** Close (lines 214-220). *)
Definition Close (t : StdioTransport) : option error * StdioTransport :=
  if Process t then
    (None,
     mkTransport (spawn_err t) (Process t) true (spawns t) (stdin t) true
       (stdout t) (reqID t) (started t) (startOnce t))
  else (None, t).

(** The lines the read loop passes over while it waits for [id]: one that
    does not unmarshal, a notification (no id, no result, no error), or a
    message that carries another id. *)
Definition malformed (line : string) : Prop :=
  json_Unmarshal line = None.
Definition notification (line : string) : Prop :=
  exists resp, json_Unmarshal line = Some resp /\
    ID resp = 0%Z /\ Result resp = None /\ Error resp = None.
Definition other_id (id : Z) (line : string) : Prop :=
  exists resp, json_Unmarshal line = Some resp /\ ID resp <> id.
Definition passed_over (id : Z) (line : string) : Prop :=
  malformed line \/ notification line \/ other_id id line.

End WithCodec.
End Transport.

(** ** Several goroutines calling one transport

    Each caller runs [t.Call]; the statements of stdio.go that touch what
    the callers share (the fields of the transport, [t.mu], [t.startOnce],
    the pipes) are the steps, and a run is any interleaving of the steps of
    the callers.  [sync.Mutex] and [sync.Once] are what the Go library says:
    Lock waits until the mutex is free, and Do runs the function in the
    first caller while the others wait for it to return.  A read or a write
    of a field of the transport is one step: [t.started], which Call reads
    before it takes any lock, is read as a whole. *)
Module Concurrent.
Import Transport.

(** The call a caller is in: its own, or the one initialize makes for it
    (line 137) while it runs Start. *)
Inductive frame : Type :=
| Outer
| Inner.

(** What a round trip ends with: the id it allocated, the value it returns
    and, when a line of the child answered it, the rank of that line in the
    child's output. *)
Record reply := mkReply {
  rid : Z;
  rpos : option nat;
  rres : result RawMessage
}.

(** What Call returns to its caller: the end of its round trip, or the error
    of Start (lines 159-161). *)
Inductive outcome : Type :=
| Answered (r : reply)
| NotStarted (e : error).

(** Where a caller is. *)
Inductive pc : Type :=
| Entry (f : frame)                 (* line 158: reads t.started *)
| OnceEnter                         (* line 102: Do reads its done flag *)
| OnceWait                          (* Do locks its own mutex *)
| OnceLocked                        (* Do, holding it, reads the flag again *)
| Spawn                             (* line 103: t.cmd.Start() *)
| SetStarted                        (* line 107 *)
| WaitLock (f : frame)              (* line 164: t.mu.Lock() *)
| Alloc (f : frame)                 (* line 167 *)
| Send (f : frame) (id : Z)         (* lines 168-183 *)
| Recv (f : frame) (id : Z)         (* lines 187-210, one line per step *)
| Unlock (f : frame) (r : reply)    (* line 165, deferred *)
| NotifLock                         (* line 148 *)
| NotifWrite                        (* line 149 *)
| NotifUnlock (err : option error)  (* line 150 *)
| OnceDone (startErr : option error)   (* Do sets its done flag *)
| OnceUnlock (startErr : option error) (* Do unlocks; lines 120, 159-161 *)
| Done (o : outcome).

(** The transport, who holds [t.mu], who is inside [t.startOnce.Do], where
    each caller is, and how many lines of the child have been read. *)
Record state := mkState {
  tr : StdioTransport;
  mu : option nat;
  once : option nat;
  pcs : nat -> pc;
  consumed : nat
}.

Definition upd (f : nat -> pc) (i : nat) (p : pc) : nat -> pc :=
  fun j => if Nat.eqb j i then p else f j.

Definition goto (s : state) (i : nat) (p : pc) : state :=
  mkState (tr s) (mu s) (once s) (upd (pcs s) i p) (consumed s).
Definition with_tr (s : state) (t : StdioTransport) : state :=
  mkState t (mu s) (once s) (pcs s) (consumed s).
Definition with_mu (s : state) (m : option nat) : state :=
  mkState (tr s) m (once s) (pcs s) (consumed s).
Definition with_once (s : state) (o : option nat) : state :=
  mkState (tr s) (mu s) o (pcs s) (consumed s).

Section Callers.
Context {Params : Type} `{Codec Params}.

(** The method and the parameters caller [i] passes to Call. *)
Variable calls : nat -> string * Params.

(** The request of a frame. *)
Definition request_of (i : nat) (f : frame) : string * Params :=
  match f with
  | Outer => calls i
  | Inner => ("initialize", initParams)
  end.

(** Where a round trip hands over when it has unlocked: the outer call
    returns; the call of initialize returns into lines 138-150. *)
Definition after_unlock (f : frame) (r : reply) : pc :=
  match f with
  | Outer => Done (Answered r)
  | Inner =>
      match rres r with
      | Err e =>
          OnceDone
            (Some (Errorf "failed to initialize MCP connection: "
                     (Errorf "initialize failed: " e "") ""))
      | Ok _ => NotifLock
      end
  end.

(** The step caller [i] takes in state [s]; [None] when it has to wait or
    has returned. *)
Definition step_of (s : state) (i : nat) : option state :=
  match pcs s i with
  | Entry f =>
      if started (tr s) then Some (goto s i (WaitLock f))
      else match f with
           | Outer => Some (goto s i OnceEnter)
           | Inner => None  (* Do, called from inside itself, never returns *)
           end
  | OnceEnter =>
      if startOnce (tr s) then Some (goto s i (WaitLock Outer))
      else Some (goto s i OnceWait)
  | OnceWait =>
      match once s with
      | None => Some (goto (with_once s (Some i)) i OnceLocked)
      | Some _ => None
      end
  | OnceLocked =>
      if startOnce (tr s)
      then Some (goto (with_once s None) i (WaitLock Outer))
      else Some (goto s i Spawn)
  | Spawn =>
      match cmd_Start (tr s) with
      | (Some e, t) =>
          Some (goto (with_tr s t) i
                  (OnceDone (Some (Errorf "failed to start MCP server: " e ""))))
      | (None, t) => Some (goto (with_tr s t) i SetStarted)
      end
  | SetStarted =>
      Some (goto (with_tr s (set_started (tr s) true)) i (Entry Inner))
  | WaitLock f =>
      match mu s with
      | None => Some (goto (with_mu s (Some i)) i (Alloc f))
      | Some _ => None
      end
  | Alloc f =>
      let id := wrap64 (reqID (tr s) + 1) in
      Some (goto (with_tr s (set_reqID (tr s) id)) i (Send f id))
  | Send f id =>
      let (method, params) := request_of i f in
      match json_Marshal (mkRequest "2.0" id method params) with
      | Err e =>
          Some (goto s i
                  (Unlock f
                     (mkReply id None
                        (Err (Errorf "failed to marshal request: " e "")))))
      | Ok data =>
          match Write (tr s) (data ++ nl) with
          | (Some e, t) =>
              Some (goto (with_tr s t) i
                      (Unlock f
                         (mkReply id None
                            (Err (Errorf "failed to write request: " e "")))))
          | (None, t) => Some (goto (with_tr s t) i (Recv f id))
          end
      end
  | Recv f id =>
      match stdout (tr s) with
      | [] =>
          Some (goto s i
                  (Unlock f
                     (mkReply id None
                        (Err (Errorf "failed to read response: " io_EOF "")))))
      | line :: rest =>
          let s' :=
            mkState (set_stdout (tr s) rest) (mu s) (once s) (pcs s)
              (S (consumed s)) in
          match read_line id line with
          | Some r =>
              Some (goto s' i (Unlock f (mkReply id (Some (consumed s)) r)))
          | None => Some (goto s' i (Recv f id))
          end
      end
  | Unlock f r => Some (goto (with_mu s None) i (after_unlock f r))
  | NotifLock =>
      match mu s with
      | None => Some (goto (with_mu s (Some i)) i NotifWrite)
      | Some _ => None
      end
  | NotifWrite =>
      let data :=
        json_Marshal_notification
          (mkNotification "2.0" "notifications/initialized") in
      let (err, t) := Write (tr s) (data ++ nl) in
      Some (goto (with_tr s t) i (NotifUnlock err))
  | NotifUnlock err =>
      Some (goto (with_mu s None) i
              (OnceDone
                 (match err with
                  | Some e =>
                      Some (Errorf "failed to initialize MCP connection: "
                              e "")
                  | None => None
                  end)))
  | OnceDone startErr =>
      Some (goto (with_tr s (set_startOnce (tr s) true)) i
              (OnceUnlock startErr))
  | OnceUnlock startErr =>
      Some (goto (with_once s None) i
              (match startErr with
               | Some e => Done (NotStarted e)
               | None => WaitLock Outer
               end))
  | Done _ => None
  end.

(** The number of callers. *)
Variable n : nat.

(** A step of the system is a step of one of the [n] callers. *)
Definition step (s s' : state) : Prop :=
  exists i, (i < n)%nat /\ step_of s i = Some s'.

(** All callers are about to enter Call and nobody holds anything. *)
Definition init (t : StdioTransport) : state :=
  mkState t None None (fun _ => Entry Outer) 0.

Inductive reachable (t : StdioTransport) : state -> Prop :=
| reach_init : reachable t (init t)
| reach_step (s s' : state) :
    reachable t s -> step s s' -> reachable t s'.

(** A run of [k] steps. *)
Inductive steps : nat -> state -> state -> Prop :=
| steps_O (s : state) : steps 0 s s
| steps_S (k : nat) (s s' s'' : state) :
    step s s' -> steps k s' s'' -> steps (S k) s s''.

(** No caller can step. *)
Definition terminal (s : state) : Prop := forall s', ~ step s s'.

(** The callers that hold [t.mu]: they are between Lock and Unlock, writing
    or reading. *)
Definition in_flight (p : pc) : bool :=
  match p with
  | Alloc _ | Send _ _ | Recv _ _ | Unlock _ _ | NotifWrite | NotifUnlock _ =>
      true
  | _ => false
  end.

(** The callers that are inside [t.startOnce.Do]. *)
Definition in_once (p : pc) : bool :=
  match p with
  | OnceLocked | Spawn | SetStarted | Entry Inner | WaitLock Inner
  | Alloc Inner | Send Inner _ | Recv Inner _ | Unlock Inner _
  | NotifLock | NotifWrite | NotifUnlock _ | OnceDone _ | OnceUnlock _ => true
  | _ => false
  end.

(** What Call returns to a caller that is done. *)
Definition result_of (o : outcome) : result RawMessage :=
  match o with
  | Answered r => rres r
  | NotStarted e => Err e
  end.

(** The reply a caller holds, if any. *)
Definition holds_reply (p : pc) : option reply :=
  match p with
  | Unlock _ r => Some r
  | Done (Answered r) => Some r
  | _ => None
  end.

(** The value or the error a response gives to the call it answers
    (lines 205-208). *)
Definition answer (resp : JSONRPCResponse) : result RawMessage :=
  match Error resp with
  | Some e => Err (RPCError e)
  | None => Ok (Result resp)
  end.

(** A reply is sound for the output [script] of the child, of which [c]
    lines have been read: a reply with a value was answered by a line, and
    the line that answered a reply has been read, carries the id the reply
    allocated, and gave it its value or its error. *)
Definition sound (script : list string) (c : nat) (r : reply) : Prop :=
  (forall v, rres r = Ok v -> rpos r <> None) /\
  (forall pos, rpos r = Some pos ->
     (pos < c)%nat /\
     exists line resp,
       nth_error script pos = Some line /\
       json_Unmarshal line = Some resp /\
       ID resp = rid r /\
       rres r = answer resp).

(** *** What holds in every state of every run *)

(** One call in flight at a time: the callers in flight are the holder of
    [t.mu], so there is one at most. *)
Definition one_in_flight (s : state) : Prop :=
  (forall i, in_flight (pcs s i) = true <-> mu s = Some i) /\
  (forall i j,
     in_flight (pcs s i) = true -> in_flight (pcs s j) = true -> i = j).

(** Each caller that has returned from its round trip holds a sound reply:
    its value is the one of a line of the child that carries its own id. *)
Definition own_response (t : StdioTransport) (s : state) : Prop :=
  forall i r, pcs s i = Done (Answered r) -> sound (stdout t) (consumed s) r.

(** No line of the child answers two callers. *)
Definition distinct (s : state) : Prop :=
  forall i j r r' pos,
    holds_reply (pcs s i) = Some r -> holds_reply (pcs s j) = Some r' ->
    rpos r = Some pos -> rpos r' = Some pos -> i = j.

(** All [n] callers have returned. *)
Definition all_returned (s : state) : Prop :=
  forall i, (i < n)%nat -> exists o, pcs s i = Done o.

(** The locks and the callers agree. *)
Record coherent (s : state) : Prop := {
  flight_holds : forall i, in_flight (pcs s i) = true -> mu s = Some i;
  holder_flies : forall i, mu s = Some i ->
                   in_flight (pcs s i) = true /\ (i < n)%nat;
  once_holds : forall i, in_once (pcs s i) = true -> once s = Some i;
  holder_once : forall i, once s = Some i ->
                  in_once (pcs s i) = true /\ (i < n)%nat;
  inner_started : forall i, pcs s i = Entry Inner -> started (tr s) = true
}.

(** What has been read of the child's output, and what the replies say. *)
Record receipts (script : list string) (s : state) : Prop := {
  out_suffix :
    stdout (tr s) = skipn (consumed s) script \/ stdout (tr s) = [];
  reply_sound :
    forall i r, holds_reply (pcs s i) = Some r -> sound script (consumed s) r
}.

(** What a run of caller [i] alone leaves untouched. *)
Definition alone (i : nat) (s s' : state) : Prop :=
  mu s' = mu s /\ once s' = once s /\
  forall j, j <> i -> pcs s' j = pcs s j.

(** *** Runs are finite *)

(** How far a caller is from its return. *)
Definition weight (p : pc) : nat :=
  match p with
  | Entry Outer => 22
  | OnceEnter => 21
  | OnceWait => 20
  | OnceLocked => 19
  | Spawn => 18
  | SetStarted => 17
  | Entry Inner => 16
  | WaitLock Inner => 15
  | Alloc Inner => 14
  | Send Inner _ => 13
  | Recv Inner _ => 12
  | Unlock Inner _ => 11
  | NotifLock => 10
  | NotifWrite => 9
  | NotifUnlock _ => 8
  | OnceDone _ => 7
  | OnceUnlock _ => 6
  | WaitLock Outer => 5
  | Alloc Outer => 4
  | Send Outer _ => 3
  | Recv Outer _ => 2
  | Unlock Outer _ => 1
  | Done _ => 0
  end.

Fixpoint sum_below (k : nat) (g : nat -> nat) : nat :=
  match k with
  | O => 0
  | S k' => g k' + sum_below k' g
  end.

Definition measure (s : state) : nat :=
  sum_below n (fun i => weight (pcs s i)) + List.length (stdout (tr s)).

(** *** A child that answers every request *)
Section Responsive.

(** What the child prints for the [k]-th request it receives: some lines,
    then the line of the response. *)
Variable noise : nat -> list string.
Variable line : nat -> string.
Variable resp : nat -> JSONRPCResponse.

(** The output for the [m] requests after the [a]-th. *)
Fixpoint script (a m : nat) : list string :=
  match m with
  | O => []
  | S m' => (noise (S a) ++ line (S a) :: script (S a) m')%list
  end.

(** The child answers the [k]-th request with the id [q + k]: the lines
    before the response are passed over by the read loop, and the response
    carries that id and something to return. *)
Definition answers (q : Z) (k : nat) : Prop :=
  Forall (passed_over (q + Z.of_nat k)) (noise k) /\
  json_Unmarshal (line k) = Some (resp k) /\
  ID (resp k) = (q + Z.of_nat k)%Z /\
  (Result (resp k) <> None \/ Error (resp k) <> None \/
   (q + Z.of_nat k)%Z <> 0%Z).

(** Every caller has returned with the child's answer to the request that
    carried its id. *)
Definition all_answered (q : Z) (s : state) : Prop :=
  forall i, (i < n)%nat ->
    exists r k,
      pcs s i = Done (Answered r) /\ (1 <= k <= n)%nat /\
      rid r = (q + Z.of_nat k)%Z /\ rres r = answer (resp k).

(** The callers that have allocated their id. *)
Definition allocated (p : pc) : nat :=
  match p with
  | Send _ _ | Recv _ _ | Unlock _ _ | Done _ => 1
  | _ => 0
  end.

Definition alloc_count (s : state) : nat :=
  sum_below n (fun i => allocated (pcs s i)).

(** What the child still has to print, seen from the caller that holds
    [t.mu], if any. *)
Definition pending (s : state) : Prop :=
  let a := alloc_count s in
  match mu s with
  | Some i =>
      match pcs s i with
      | Send _ _ =>
          exists a', a = S a' /\ stdout (tr s) = script a' (n - a')
      | Recv _ id =>
          exists rest,
            Forall (passed_over id) rest /\
            stdout (tr s) = (rest ++ line a :: script a (n - a))%list
      | _ => stdout (tr s) = script a (n - a)
      end
  | None => stdout (tr s) = script a (n - a)
  end.

(** Where a caller can be on a started transport, and what it holds. *)
Definition served (q : Z) (a : nat) (p : pc) : Prop :=
  match p with
  | Entry Outer | WaitLock Outer | Alloc Outer => True
  | Send Outer id | Recv Outer id => id = (q + Z.of_nat a)%Z
  | Unlock Outer r | Done (Answered r) =>
      exists k, (1 <= k <= a)%nat /\ rid r = (q + Z.of_nat k)%Z /\
                rres r = answer (resp k)
  | _ => False
  end.

Record serving (q : Z) (s : state) : Prop := {
  sv_started : started (tr s) = true;
  sv_open : stdin_closed (tr s) = false;
  sv_reqID : reqID (tr s) = (q + Z.of_nat (alloc_count s))%Z;
  sv_pending : pending s;
  sv_served : forall i, served q (alloc_count s) (pcs s i)
}.

End Responsive.

(** What holds of every state of every run, whatever the child prints. *)
Definition serialized (t : StdioTransport) (s : state) : Prop :=
  one_in_flight s /\
  own_response t s /\
  distinct s /\
  (terminal s -> all_returned s) /\
  (forall k s', steps k s s' -> (k <= measure s)%nat).

(** A transport that has been started, whose counter leaves room for [n]
    more ids, whose requests can be marshalled, and whose child prints
    exactly the answers to the next [n] requests. *)
Definition responsive_child (noise : nat -> list string)
  (line : nat -> string) (resp : nat -> JSONRPCResponse)
  (t : StdioTransport) : Prop :=
  started t = true /\
  stdin_closed t = false /\
  (- 2 ^ 63 <= reqID t)%Z /\
  (reqID t + Z.of_nat n < 2 ^ 63)%Z /\
  (forall k, (1 <= k <= n)%nat -> answers noise line resp (reqID t) k) /\
  (forall i id, exists data,
     json_Marshal (mkRequest "2.0" id (fst (calls i)) (snd (calls i)))
     = Ok data) /\
  stdout t = script noise line 0 n.

(** *** A scheduler, to run the model *)

(** The first of the callers [i], [i+1], ..., [i+m-1] that can step. *)
Fixpoint first_step (s : state) (i m : nat) : option state :=
  match m with
  | O => None
  | S k =>
      match step_of s i with
      | Some s' => Some s'
      | None => first_step s (S i) k
      end
  end.

(** At most [fuel] steps, each by the first caller that can step. *)
Fixpoint run (fuel : nat) (s : state) : state :=
  match fuel with
  | O => s
  | S f =>
      match first_step s 0 n with
      | Some s' => run f s'
      | None => s
      end
  end.

End Callers.
End Concurrent.

(** ** The parts of Go's strings package that the providers use *)
Module strings.

Definition len (s : string) : Z := Z.of_nat (String.length s).

(** [s[lo:hi]]; [None] is the run-time panic of a slice out of range. *)
Definition slice (s : string) (lo hi : Z) : option string :=
  if ((0 <=? lo) && (lo <=? hi) && (hi <=? len s))%Z
  then Some (substring (Z.to_nat lo) (Z.to_nat (hi - lo)) s)
  else None.

Definition HasPrefix (s p : string) : bool := prefix p s.

Fixpoint drop (n : nat) (s : string) : string :=
  match n, s with
  | O, _ => s
  | S k, String _ r => drop k r
  | S _, EmptyString => EmptyString
  end.

Definition TrimPrefix (s p : string) : string :=
  if HasPrefix s p then drop (String.length p) s else s.

(** The byte index of the first instance of [sub] in [s], or -1. *)
Fixpoint Index (s sub : string) : Z :=
  if prefix sub s then 0%Z
  else match s with
       | EmptyString => (-1)%Z
       | String _ r =>
           let i := Index r sub in
           if (i <? 0)%Z then (-1)%Z else (i + 1)%Z
       end.

Definition Contains (s sub : string) : bool := (0 <=? Index s sub)%Z.

(** Split for a non-empty separator, as every call here has: [s] is cut at
    each instance of [sep], found from left to right without overlap.
    [skip] counts the bytes of a separator just found that are still to be
    passed. *)
Fixpoint split_from (sep s : string) (skip : nat) : list string :=
  match s with
  | EmptyString => [EmptyString]
  | String c r =>
      match skip with
      | S k => split_from sep r k
      | O =>
          if prefix sep s
          then EmptyString :: split_from sep r (String.length sep - 1)
          else match split_from sep r 0 with
               | piece :: pieces => String c piece :: pieces
               | [] => [String c EmptyString]
               end
      end
  end.

Definition Split (s sep : string) : list string := split_from sep s 0.

(** White space as unicode.IsSpace has it, read off the UTF-8 bytes: the six
    ASCII characters, U+0085 and U+00A0 (two bytes), and U+1680,
    U+2000..U+200A, U+2028, U+2029, U+202F, U+205F, U+3000 (three bytes). *)
Definition asciiSpace (b : nat) : bool :=
  (((9 <=? b) && (b <=? 13)) || (b =? 32))%nat.
Definition space2 (b0 b1 : nat) : bool :=
  ((b0 =? 194) && ((b1 =? 133) || (b1 =? 160)))%nat.
Definition space3 (b0 b1 b2 : nat) : bool :=
  (((b0 =? 225) && (b1 =? 154) && (b2 =? 128))
   || ((b0 =? 226) && (b1 =? 128)
       && (((128 <=? b2) && (b2 <=? 138)) || (b2 =? 168) || (b2 =? 169)
           || (b2 =? 175)))
   || ((b0 =? 226) && (b1 =? 129) && (b2 =? 159))
   || ((b0 =? 227) && (b1 =? 128) && (b2 =? 128)))%nat.

(** What is left of [s] after one leading white-space character. *)
Definition after_space (s : string) : option string :=
  match s with
  | EmptyString => None
  | String c0 r0 =>
      if asciiSpace (nat_of_ascii c0) then Some r0
      else match r0 with
           | EmptyString => None
           | String c1 r1 =>
               if space2 (nat_of_ascii c0) (nat_of_ascii c1) then Some r1
               else match r1 with
                    | EmptyString => None
                    | String c2 r2 =>
                        if space3 (nat_of_ascii c0) (nat_of_ascii c1)
                             (nat_of_ascii c2)
                        then Some r2 else None
                    end
           end
  end.

(** The same from the other end, on the bytes of [s] in reverse order. *)
Definition before_space (rs : string) : option string :=
  match rs with
  | EmptyString => None
  | String c0 r0 =>
      if asciiSpace (nat_of_ascii c0) then Some r0
      else match r0 with
           | EmptyString => None
           | String c1 r1 =>
               if space2 (nat_of_ascii c1) (nat_of_ascii c0) then Some r1
               else match r1 with
                    | EmptyString => None
                    | String c2 r2 =>
                        if space3 (nat_of_ascii c2) (nat_of_ascii c1)
                             (nat_of_ascii c0)
                        then Some r2 else None
                    end
           end
  end.

Fixpoint strip (next : string -> option string) (fuel : nat) (s : string)
  : string :=
  match fuel with
  | O => s
  | S f => match next s with
           | Some r => strip next f r
           | None => s
           end
  end.

Fixpoint rev_onto (s acc : string) : string :=
  match s with
  | EmptyString => acc
  | String c r => rev_onto r (String c acc)
  end.
Definition reverse (s : string) : string := rev_onto s EmptyString.

Definition TrimLeftSpace (s : string) : string :=
  strip after_space (String.length s) s.
Definition TrimRightSpace (s : string) : string :=
  reverse (strip before_space (String.length s) (reverse s)).

(** TrimSpace: leading white space goes first, then trailing white space. *)
Definition TrimSpace (s : string) : string :=
  TrimRightSpace (TrimLeftSpace s).

(** A text with no white space at either end. *)
Definition trimmed (s : string) : Prop :=
  after_space s = None /\ before_space (reverse s) = None.

End strings.

(** ** The parts of Go's time package that the providers use *)
Module time.

(** A *Location: UTC, the zone of the machine, or a fixed offset in seconds
    east of UTC. *)
Inductive Location : Type :=
| UTC
| Local
| FixedZone (offset : Z).

(** A Time, by the date and clock it shows in its own location. *)
Record Time := Date {
  Year : Z;
  Month : Z;
  Day : Z;
  Hour : Z;
  Minute : Z;
  Second : Z;
  Nanosecond : Z;
  Loc : Location
}.

(** The zero Time: January 1, year 1, 00:00:00 UTC. *)
Definition zero : Time := Date 1 1 1 0 0 0 0 UTC.

Definition isLeap (year : Z) : bool :=
  ((year mod 4 =? 0) && (negb (year mod 100 =? 0) || (year mod 400 =? 0)))%Z.

Definition daysIn (month year : Z) : Z :=
  if (month =? 2)%Z then (if isLeap year then 29 else 28)%Z
  else if ((month =? 4) || (month =? 6) || (month =? 9) || (month =? 11))%Z
       then 30%Z else 31%Z.

Definition isDigit (c : ascii) : bool :=
  ((48 <=? nat_of_ascii c) && (nat_of_ascii c <=? 57))%nat.
Definition digit (c : ascii) : Z := (Z.of_nat (nat_of_ascii c) - 48)%Z.

(** [time.Parse("2006-01-02", value)]: four digits, a dash, two digits, a
    dash, two digits and nothing else; the month is 1..12 and the day exists
    in that month.  With no zone in the layout the Time is in UTC.  [None]
    is a non-nil error. *)
Definition Parse_DateOnly (value : string) : option Time :=
  match value with
  | String y1 (String y2 (String y3 (String y4 (String dash1
      (String m1 (String m2 (String dash2
        (String d1 (String d2 EmptyString))))))))) =>
      if isDigit y1 && isDigit y2 && isDigit y3 && isDigit y4
         && Ascii.eqb dash1 "-" && isDigit m1 && isDigit m2
         && Ascii.eqb dash2 "-" && isDigit d1 && isDigit d2
      then
        let year := (digit y1 * 1000 + digit y2 * 100 + digit y3 * 10
                     + digit y4)%Z in
        let month := (digit m1 * 10 + digit m2)%Z in
        let day := (digit d1 * 10 + digit d2)%Z in
        if ((month <=? 0) || (12 <? month))%Z then None
        else if ((day <? 1) || (daysIn month year <? day))%Z then None
        else Some (Date year month day 0 0 0 0 UTC)
      else None
  | _ => None
  end.

(** [time.Parse(time.RFC3339, value)], left to the library: [None] is a
    non-nil error. *)
Class RFC3339 := {
  Parse_RFC3339 : string -> option Time
}.

(** Days from 1970-01-01 to the given date of the proleptic Gregorian
    calendar. *)
Definition days_from_civil (y m d : Z) : Z :=
  let y' := (if m <=? 2 then y - 1 else y)%Z in
  let era := (y' / 400)%Z in
  let yoe := (y' - era * 400)%Z in
  let mp := ((m + 9) mod 12)%Z in
  let doy := ((153 * mp + 2) / 5 + d - 1)%Z in
  let doe := (yoe * 365 + yoe / 4 - yoe / 100 + doy)%Z in
  (era * 146097 + doe - 719468)%Z.

(** [t.Unix()], when the machine's zone is [local] seconds east of UTC at
    that time. *)
Definition Unix (local : Z) (t : Time) : Z :=
  let offset := match Loc t with
                | UTC => 0%Z
                | Local => local
                | FixedZone o => o
                end in
  (days_from_civil (Year t) (Month t) (Day t) * 86400
   + Hour t * 3600 + Minute t * 60 + Second t - offset)%Z.

(** *** Format

    A number as Format writes it ([appendInt]): a minus sign when it is
    negative, then its digits with zeros on the left up to [width]. *)
Fixpoint zeros (n : nat) : string :=
  match n with
  | O => EmptyString
  | S k => String "0" (zeros k)
  end.

Definition appendInt (x : Z) (width : nat) : string :=
  let digits := itoa (Z.abs x) in
  (if (x <? 0)%Z then "-" else "")
  ++ zeros (width - String.length digits) ++ digits.

(** [t.Weekday()], Sunday being 0: 1970-01-01 was a Thursday. *)
Definition Weekday (t : Time) : Z :=
  ((days_from_civil (Year t) (Month t) (Day t) + 4) mod 7)%Z.

Definition shortDayNames : list string :=
  ["Sun"; "Mon"; "Tue"; "Wed"; "Thu"; "Fri"; "Sat"].
Definition shortMonthNames : list string :=
  ["Jan"; "Feb"; "Mar"; "Apr"; "May"; "Jun"; "Jul"; "Aug"; "Sep"; "Oct";
   "Nov"; "Dec"].

(** [t.Format("2006-01-02")]. *)
Definition Format_DateOnly (t : Time) : string :=
  appendInt (Year t) 4 ++ "-" ++ appendInt (Month t) 2 ++ "-"
  ++ appendInt (Day t) 2.

(** [t.Format("3:04 PM")]: the hour on a twelve-hour clock, the minute on
    two digits, then AM or PM. *)
Definition Format_3_04_PM (t : Time) : string :=
  let hr := (Hour t mod 12)%Z in
  appendInt (if (hr =? 0)%Z then 12%Z else hr) 0 ++ ":"
  ++ appendInt (Minute t) 2 ++ " "
  ++ (if (12 <=? Hour t)%Z then "PM" else "AM").

(** [t.Format("Mon, Jan 2")]. *)
Definition Format_Mon_Jan_2 (t : Time) : string :=
  nth (Z.to_nat (Weekday t)) shortDayNames ""
  ++ ", " ++ nth (Z.to_nat (Month t - 1)) shortMonthNames ""
  ++ " " ++ appendInt (Day t) 0.

(** [a.Equal(b.Add(d))] for a duration [d] of whole seconds: the two are the
    same instant.  [local] is the offset of the machine's zone, as for
    [Unix]. *)
Definition Equal_Add (local : Z) (a b : Time) (d : Z) : bool :=
  ((Unix local a =? Unix local b + d) && (Nanosecond a =? Nanosecond b))%Z.

(** [a.Equal(b)]. *)
Definition Equal (local : Z) (a b : Time) : bool := Equal_Add local a b 0.

(** The offset of a location, in seconds east of UTC, when the zone of the
    machine is at [local]. *)
Definition offset_of (local : Z) (loc : Location) : Z :=
  match loc with
  | UTC => 0%Z
  | Local => local
  | FixedZone o => o
  end.

End time.

(** ** The parts of Go's encoding/json package that the providers use *)
Module json.

(** A JSON text once it has passed the syntax check: its value.  The members
    of an object are kept in the order of the text, repeated keys included. *)
Local Unset Elimination Schemes.
Inductive value : Type :=
| JNull
| JBool (b : bool)
| JNumber (literal : string)
| JString (s : string)
| JArray (items : list value)
| JObject (members : list (string * value)).
Local Set Elimination Schemes.

(** What the library does below the types of this repository: [Parse] reads
    a text (a syntax error is the error Unmarshal returns, and nothing is
    stored); [foldName] is the case folding under which a key matches a field
    when no field has exactly that name; [TypeError value type] is the
    *UnmarshalTypeError for a JSON value of that kind met where that Go type
    was expected. *)
Class Library := {
  Parse : string -> result value;
  foldName : string -> string;
  TypeError : string -> string -> error
}.

Definition kind (v : value) : string :=
  match v with
  | JNull => "null"
  | JBool _ => "bool"
  | JNumber _ => "number"
  | JString _ => "string"
  | JArray _ => "array"
  | JObject _ => "object"
  end.

(** Unmarshal keeps the first type error and goes on decoding. *)
Definition first_error (e1 e2 : option error) : option error :=
  match e1 with
  | Some _ => e1
  | None => e2
  end.

(** A Go slice: the elements up to its length, then those of its backing
    array up to its capacity, which Unmarshal reuses. *)
Record slice (A : Type) := mkSlice {
  live : list A;
  spare : list A
}.
Arguments mkSlice {A} _ _.
Arguments live {A} _.
Arguments spare {A} _.
Definition nil_slice {A : Type} : slice A := mkSlice [] [].

Section Decoders.
Context `{Library}.

(** Each decoder stores a JSON value into a Go variable that holds [cur]:
    it answers the new content and the type error, if any.  JSON null leaves
    strings, booleans and structs as they are and makes a slice nil. *)
Definition dec_string (v : value) (cur : string) : string * option error :=
  match v with
  | JString s => (s, None)
  | JNull => (cur, None)
  | _ => (cur, Some (TypeError (kind v) "string"))
  end.

Definition dec_bool (v : value) (cur : bool) : bool * option error :=
  match v with
  | JBool b => (b, None)
  | JNull => (cur, None)
  | _ => (cur, Some (TypeError (kind v) "bool"))
  end.

(** The field a key selects: the one with exactly that name, else the first
    one whose folded name is the folded key. *)
Definition find_field (names : list string) (key : string) : option string :=
  match find (String.eqb key) names with
  | Some f => Some f
  | None => find (fun f => String.eqb (foldName f) (foldName key)) names
  end.

(** One member of an object stored into a struct: into the field its key
    selects, or nowhere when it selects none. *)
Definition store_member {T : Type} (names : list string)
  (dec_field : string -> value -> T -> T * option error)
  (acc : T * option error) (m : string * value) : T * option error :=
  match find_field names (fst m) with
  | Some f =>
      let (t, e) := dec_field f (snd m) (fst acc) in
      (t, first_error (snd acc) e)
  | None => acc
  end.

(** A struct: the members of the object are stored one after the other. *)
Definition dec_struct {T : Type} (type : string) (names : list string)
  (dec_field : string -> value -> T -> T * option error)
  (v : value) (cur : T) : T * option error :=
  match v with
  | JObject members =>
      fold_left (store_member names dec_field) members (cur, None)
  | JNull => (cur, None)
  | _ => (cur, Some (TypeError (kind v) type))
  end.

(** The elements of an array, each stored into the slot the backing array
    has at its index, or into a zero element past its end. *)
Fixpoint dec_elems {A : Type} (zero : A)
  (dec : value -> A -> A * option error) (items : list value)
  (backing : list A) : list A * option error :=
  match items with
  | [] => ([], None)
  | x :: xs =>
      let (a, e) := dec x (hd zero backing) in
      let (rest, e') := dec_elems zero dec xs (tl backing) in
      (a :: rest, first_error e e')
  end.

(** A slice: an empty array gives a new empty slice, another array gives
    its elements with what the backing array keeps past them, null gives the
    nil slice. *)
Definition dec_slice {A : Type} (type : string) (zero : A)
  (dec : value -> A -> A * option error) (v : value) (cur : slice A)
  : slice A * option error :=
  match v with
  | JArray [] => (nil_slice, None)
  | JArray items =>
      let backing := (live cur ++ spare cur)%list in
      let (elems, e) := dec_elems zero dec items backing in
      (mkSlice elems (skipn (List.length items) backing), e)
  | JNull => (nil_slice, None)
  | _ => (cur, Some (TypeError (kind v) type))
  end.

(** [json.Unmarshal([]byte(text), &x)] for a variable decoded by [dec]. *)
Definition Unmarshal {T : Type} (dec : value -> T -> T * option error)
  (text : string) (cur : T) : T * option error :=
  match Parse text with
  | Err e => (cur, Some e)
  | Ok v => dec v cur
  end.

End Decoders.
End json.

(** ** internal/mcp: the tool-result envelope *)
Module mcp.

(** ContentBlock and ToolResult. *)
Record ContentBlock := mkContentBlock {
  Type_ : string;
  Text : string
}.
Record ToolResult := mkToolResult {
  Content : list ContentBlock;
  IsError : bool
}.

(** A Go value of type [interface{}] as the providers build them to pass
    arguments: a string, a boolean, or a [map[string]interface{}] with its
    entries. *)
Local Unset Elimination Schemes.
Inductive any : Type :=
| AString (s : string)
| ABool (b : bool)
| AMap (entries : list (string * any)).
Local Set Elimination Schemes.

(** The request CallTool sends (lines 42-47), with the id Call gives it. *)
Definition tool_request (id : Z) (toolName : string) (args : any)
  : Transport.JSONRPCRequest any :=
  Transport.mkRequest "2.0" id "tools/call"
    (AMap [("name", AString toolName); ("arguments", args)]).

Section Client.
Context `{Transport.Codec any} `{json.Library}.

(** How encoding/json fills ContentBlock and ToolResult.  While a ToolResult
    is being decoded its Content is a slice with a backing array. *)
Definition dec_ContentBlock : json.value -> ContentBlock ->
  ContentBlock * option error :=
  json.dec_struct "mcp.ContentBlock" ["type"; "text"]
    (fun f v cur =>
       if String.eqb f "type" then
         let (x, e) := json.dec_string v (Type_ cur) in
         (mkContentBlock x (Text cur), e)
       else
         let (x, e) := json.dec_string v (Text cur) in
         (mkContentBlock (Type_ cur) x, e)).

Definition dec_ToolResult : json.value -> json.slice ContentBlock * bool ->
  (json.slice ContentBlock * bool) * option error :=
  json.dec_struct "mcp.ToolResult" ["content"; "isError"]
    (fun f v cur =>
       if String.eqb f "content" then
         let (x, e) :=
           json.dec_slice "[]mcp.ContentBlock" (mkContentBlock "" "")
             dec_ContentBlock v (fst cur) in
         ((x, snd cur), e)
       else
         let (x, e) := json.dec_bool v (snd cur) in
         ((fst cur, x), e)).

(** Client.CallTool (lines 41-58), for a client whose transport is a
    StdioTransport.  A nil RawMessage is the empty sequence of bytes. *)
Definition CallTool (t : Transport.StdioTransport) (toolName : string)
  (args : any)
  : option (result ToolResult * Transport.StdioTransport) :=
  let params := AMap [("name", AString toolName); ("arguments", args)] in
  match Transport.Call t "tools/call" params with
  | None => None
  | Some (Err err, t) => Some (Err err, t)
  | Some (Ok result, t) =>
      let (toolResult, err) :=
        json.Unmarshal dec_ToolResult
          (match result with Some bytes => bytes | None => "" end)
          (json.nil_slice, false) in
      match err with
      | Some err => Some (Err err, t)
      | None =>
          Some (Ok (mkToolResult (json.live (fst toolResult))
                      (snd toolResult)), t)
      end
  end.

End Client.

End mcp.

(** ** internal/mcp/providers *)
Module providers.
Import mcp.

(** A computation that may panic: [None] is the panic. *)
Definition bind {A B : Type} (m : option A) (k : A -> option B) : option B :=
  match m with
  | Some a => k a
  | None => None
  end.
Notation "x <- m ;; k" := (bind m (fun x => k))
  (at level 61, m at next level, right associativity).

(** ChecklistItem (things.go, lines 32-35). *)
Record ChecklistItem := mkChecklistItem {
  item_Title : string;
  item_Status : string
}.

(** Task (lines 14-29); a nil *time.Time is [None]. *)
Record Task := mkTask {
  UUID : string;
  Title : string;
  Status : string;
  Notes : string;
  Tags : list string;
  Deadline : option time.Time;
  StartDate : option time.Time;
  CreatedAt : option time.Time;
  CompletedAt : option time.Time;
  ProjectUUID : string;
  ProjectTitle : string;
  AreaUUID : string;
  AreaTitle : string;
  ChecklistItems : list ChecklistItem
}.

(** [Task{}]. *)
Definition Task_zero : Task :=
  mkTask "" "" "" "" [] None None None None "" "" "" "" [].

Definition set_UUID (t : Task) (v : string) : Task :=
  mkTask v (Title t) (Status t) (Notes t) (Tags t) (Deadline t) (StartDate t)
    (CreatedAt t) (CompletedAt t) (ProjectUUID t) (ProjectTitle t)
    (AreaUUID t) (AreaTitle t) (ChecklistItems t).
Definition set_Title (t : Task) (v : string) : Task :=
  mkTask (UUID t) v (Status t) (Notes t) (Tags t) (Deadline t) (StartDate t)
    (CreatedAt t) (CompletedAt t) (ProjectUUID t) (ProjectTitle t)
    (AreaUUID t) (AreaTitle t) (ChecklistItems t).
Definition set_Status (t : Task) (v : string) : Task :=
  mkTask (UUID t) (Title t) v (Notes t) (Tags t) (Deadline t) (StartDate t)
    (CreatedAt t) (CompletedAt t) (ProjectUUID t) (ProjectTitle t)
    (AreaUUID t) (AreaTitle t) (ChecklistItems t).
Definition set_Notes (t : Task) (v : string) : Task :=
  mkTask (UUID t) (Title t) (Status t) v (Tags t) (Deadline t) (StartDate t)
    (CreatedAt t) (CompletedAt t) (ProjectUUID t) (ProjectTitle t)
    (AreaUUID t) (AreaTitle t) (ChecklistItems t).
Definition set_Tags (t : Task) (v : list string) : Task :=
  mkTask (UUID t) (Title t) (Status t) (Notes t) v (Deadline t) (StartDate t)
    (CreatedAt t) (CompletedAt t) (ProjectUUID t) (ProjectTitle t)
    (AreaUUID t) (AreaTitle t) (ChecklistItems t).
Definition set_Deadline (t : Task) (v : option time.Time) : Task :=
  mkTask (UUID t) (Title t) (Status t) (Notes t) (Tags t) v (StartDate t)
    (CreatedAt t) (CompletedAt t) (ProjectUUID t) (ProjectTitle t)
    (AreaUUID t) (AreaTitle t) (ChecklistItems t).
Definition set_StartDate (t : Task) (v : option time.Time) : Task :=
  mkTask (UUID t) (Title t) (Status t) (Notes t) (Tags t) (Deadline t) v
    (CreatedAt t) (CompletedAt t) (ProjectUUID t) (ProjectTitle t)
    (AreaUUID t) (AreaTitle t) (ChecklistItems t).
Definition set_ProjectTitle (t : Task) (v : string) : Task :=
  mkTask (UUID t) (Title t) (Status t) (Notes t) (Tags t) (Deadline t)
    (StartDate t) (CreatedAt t) (CompletedAt t) (ProjectUUID t) v
    (AreaUUID t) (AreaTitle t) (ChecklistItems t).
Definition set_ChecklistItems (t : Task) (v : list ChecklistItem) : Task :=
  mkTask (UUID t) (Title t) (Status t) (Notes t) (Tags t) (Deadline t)
    (StartDate t) (CreatedAt t) (CompletedAt t) (ProjectUUID t)
    (ProjectTitle t) (AreaUUID t) (AreaTitle t) v.

(** The locals of parseTaskBlock that live across the lines of a block
    (lines 234-239). *)
Record scanner := mkScanner {
  task : Task;
  notesBuilder : string;
  inNotes : bool;
  inChecklist : bool
}.

Definition scanner_init : scanner := mkScanner Task_zero "" false false.

Definition with_task (st : scanner) (t : Task) : scanner :=
  mkScanner t (notesBuilder st) (inNotes st) (inChecklist st).

(** The keys of the [switch] of lines 282-309. *)
Definition recognized_keys : list string :=
  ["Title"; "UUID"; "Status"; "Notes"; "Project"; "Tags"; "Checklist";
   "Start Date"; "Deadline"].

(** A line that begins with one of [keys] and a colon. *)
Definition begins_with_key (keys : list string) (line : string) : bool :=
  existsb (fun key => strings.HasPrefix line (key ++ ":")) keys.

(** The test of lines 266-267: the prefixes that end the notes. *)
Definition ends_notes (line : string) : bool :=
  strings.HasPrefix line "Project:" || strings.HasPrefix line "Tags:"
  || strings.HasPrefix line "Checklist:" || strings.HasPrefix line "Deadline:".

(** The keys of those prefixes. *)
Definition notes_enders : list string :=
  ["Project"; "Tags"; "Checklist"; "Deadline"].

(** The [switch] of lines 282-309. *)
Definition store_pair (st : scanner) (key value : string) : scanner :=
  if String.eqb key "Title" then with_task st (set_Title (task st) value)
  else if String.eqb key "UUID" then with_task st (set_UUID (task st) value)
  else if String.eqb key "Status" then
    with_task st (set_Status (task st) value)
  else if String.eqb key "Notes" then
    mkScanner (task st) (notesBuilder st ++ value ++ nl) true (inChecklist st)
  else if String.eqb key "Project" then
    with_task st (set_ProjectTitle (task st) value)
  else if String.eqb key "Tags" then
    if String.eqb value "" then st
    else with_task st (set_Tags (task st) (strings.Split value ", "))
  else if String.eqb key "Checklist" then
    mkScanner (task st) (notesBuilder st) (inNotes st) true
  else if String.eqb key "Start Date" then
    match time.Parse_DateOnly value with
    | Some t => with_task st (set_StartDate (task st) (Some t))
    | None => st
    end
  else if String.eqb key "Deadline" then
    match time.Parse_DateOnly value with
    | Some t => with_task st (set_Deadline (task st) (Some t))
    | None => st
    end
  else st.

(** Lines 277-310: a line read as a key and a value around its first colon. *)
Definition parse_pair (st : scanner) (line : string) : option scanner :=
  let idx := strings.Index line ":" in
  if (0 <? idx)%Z then
    k <- strings.slice line 0 idx ;;
    v <- strings.slice line (idx + 1) (strings.len line) ;;
    Some (store_pair st (strings.TrimSpace k) (strings.TrimSpace v))
  else Some st.

(** Lines 264-275 and what follows them in the loop body. *)
Definition notes_then_pair (st : scanner) (line : string) : option scanner :=
  if inNotes st then
    if ends_notes line then
      parse_pair
        (mkScanner (set_Notes (task st) (strings.TrimSpace (notesBuilder st)))
           (notesBuilder st) false (inChecklist st))
        line
    else
      Some (mkScanner (task st) (notesBuilder st ++ line ++ nl) (inNotes st)
              (inChecklist st))
  else parse_pair st line.

(** One turn of the loop of lines 241-311. *)
Definition scan_line (st : scanner) (raw : string) : option scanner :=
  let line := strings.TrimSpace raw in
  if inChecklist st then
    if strings.HasPrefix line "□" || strings.HasPrefix line "☑" then
      let itemTitle :=
        strings.TrimSpace
          (strings.TrimPrefix (strings.TrimPrefix line "□") "☑") in
      let status :=
        if strings.HasPrefix line "☑" then "completed" else "incomplete" in
      Some (with_task st
              (set_ChecklistItems (task st)
                 (ChecklistItems (task st)
                  ++ [mkChecklistItem itemTitle status])))
    else if negb (String.eqb line "") && negb (strings.Contains line ":")
    then Some st
    else
      notes_then_pair
        (mkScanner (task st) (notesBuilder st) (inNotes st) false) line
  else notes_then_pair st line.

Fixpoint scan_lines (st : scanner) (lines : list string) : option scanner :=
  match lines with
  | [] => Some st
  | raw :: rest => st' <- scan_line st raw ;; scan_lines st' rest
  end.

(** parseTaskBlock (lines 233-319). *)
Definition parseTaskBlock (block : string) : option Task :=
  st <- scan_lines scanner_init (strings.Split block nl) ;;
  Some (if inNotes st
        then set_Notes (task st) (strings.TrimSpace (notesBuilder st))
        else task st).

(** The inner loop of parseTasks (lines 216-225). *)
Fixpoint parse_blocks (tasks : list Task) (taskBlocks : list string)
  : option (list Task) :=
  match taskBlocks with
  | [] => Some tasks
  | taskBlock :: rest =>
      let taskBlock := strings.TrimSpace taskBlock in
      if String.eqb taskBlock "" then parse_blocks tasks rest
      else
        t <- parseTaskBlock taskBlock ;;
        if negb (String.eqb (Title t) "")
        then parse_blocks (tasks ++ [t]) rest
        else parse_blocks tasks rest
  end.

(** The outer loop of parseTasks (lines 212-227). *)
Fixpoint parse_content (tasks : list Task) (blocks : list ContentBlock)
  : option (list Task) :=
  match blocks with
  | [] => Some tasks
  | block :: rest =>
      if String.eqb (Type_ block) "text" && negb (String.eqb (Text block) "")
      then
        tasks' <- parse_blocks tasks
                    (strings.Split (Text block) (nl ++ "---" ++ nl)) ;;
        parse_content tasks' rest
      else parse_content tasks rest
  end.

(** parseTasks (lines 206-230).  The result is Go's pair [(tasks, err)]. *)
Definition parseTasks (result : ToolResult)
  : option (list Task * option error) :=
  match Content result with
  | [] => Some ([], None)
  | _ => tasks <- parse_content [] (Content result) ;; Some (tasks, None)
  end.

(** A task that parseTasks keeps (line 222). *)
Definition titled (t : Task) : Prop := Title t <> "".

(** CalendarEvent (the calendar provider, lines 12-21 of its file). *)
Module CalendarEvent.
Record t := mk {
  ID : string;
  Title : string;
  StartTime : time.Time;
  EndTime : time.Time;
  Location : string;
  Notes : string;
  Calendar : string;
  AllDay : bool
}.
End CalendarEvent.

(** gcalDateTime (things.go, lines 521-525). *)
Module gcalDateTime.
Record t := mk {
  DateTime : string;
  Date : string;
  TimeZone : string
}.
Definition zero : t := mk "" "" "".
Definition names : list string := ["dateTime"; "date"; "timeZone"].
End gcalDateTime.

(** gcalOrganizer (lines 527-531). *)
Module gcalOrganizer.
Record t := mk {
  Email : string;
  DisplayName : string;
  Self : bool
}.
Definition zero : t := mk "" "" false.
Definition names : list string := ["email"; "displayName"; "self"].
End gcalOrganizer.

(** gcalAttendee (lines 533-537). *)
Module gcalAttendee.
Record t := mk {
  Email : string;
  DisplayName : string;
  ResponseStatus : string
}.
Definition zero : t := mk "" "" "".
Definition names : list string := ["email"; "displayName"; "responseStatus"].
End gcalAttendee.

(** gcalEvent (lines 509-519). *)
Module gcalEvent.
Record t := mk {
  ID : string;
  Summary : string;
  Location : string;
  Start : gcalDateTime.t;
  End_ : gcalDateTime.t;
  Status : string;
  HTMLLink : string;
  Organizer : gcalOrganizer.t;
  Attendees : json.slice gcalAttendee.t
}.
Definition zero : t :=
  mk "" "" "" gcalDateTime.zero gcalDateTime.zero "" "" gcalOrganizer.zero
    json.nil_slice.
Definition names : list string :=
  ["id"; "summary"; "location"; "start"; "end"; "status"; "htmlLink";
   "organizer"; "attendees"].
End gcalEvent.

(** truncate (lines 539-544); [s[:max]] panics when [max] is negative. *)
Definition truncate (s : string) (max : Z) : option string :=
  if (strings.len s <=? max)%Z then Some s
  else
    pre <- strings.slice s 0 max ;;
    Some (pre ++ "...").

Section GCal.
Context `{json.Library} `{time.RFC3339}.

(** How encoding/json fills the structs above, field by field, from their
    [json:"..."] tags. *)
Definition dec_gcalDateTime : json.value -> gcalDateTime.t ->
  gcalDateTime.t * option error :=
  json.dec_struct "providers.gcalDateTime" gcalDateTime.names
    (fun f v cur =>
       if String.eqb f "dateTime" then
         let (x, e) := json.dec_string v (gcalDateTime.DateTime cur) in
         (gcalDateTime.mk x (gcalDateTime.Date cur)
            (gcalDateTime.TimeZone cur), e)
       else if String.eqb f "date" then
         let (x, e) := json.dec_string v (gcalDateTime.Date cur) in
         (gcalDateTime.mk (gcalDateTime.DateTime cur) x
            (gcalDateTime.TimeZone cur), e)
       else
         let (x, e) := json.dec_string v (gcalDateTime.TimeZone cur) in
         (gcalDateTime.mk (gcalDateTime.DateTime cur)
            (gcalDateTime.Date cur) x, e)).

Definition dec_gcalOrganizer : json.value -> gcalOrganizer.t ->
  gcalOrganizer.t * option error :=
  json.dec_struct "providers.gcalOrganizer" gcalOrganizer.names
    (fun f v cur =>
       if String.eqb f "email" then
         let (x, e) := json.dec_string v (gcalOrganizer.Email cur) in
         (gcalOrganizer.mk x (gcalOrganizer.DisplayName cur)
            (gcalOrganizer.Self cur), e)
       else if String.eqb f "displayName" then
         let (x, e) := json.dec_string v (gcalOrganizer.DisplayName cur) in
         (gcalOrganizer.mk (gcalOrganizer.Email cur) x
            (gcalOrganizer.Self cur), e)
       else
         let (x, e) := json.dec_bool v (gcalOrganizer.Self cur) in
         (gcalOrganizer.mk (gcalOrganizer.Email cur)
            (gcalOrganizer.DisplayName cur) x, e)).

Definition dec_gcalAttendee : json.value -> gcalAttendee.t ->
  gcalAttendee.t * option error :=
  json.dec_struct "providers.gcalAttendee" gcalAttendee.names
    (fun f v cur =>
       if String.eqb f "email" then
         let (x, e) := json.dec_string v (gcalAttendee.Email cur) in
         (gcalAttendee.mk x (gcalAttendee.DisplayName cur)
            (gcalAttendee.ResponseStatus cur), e)
       else if String.eqb f "displayName" then
         let (x, e) := json.dec_string v (gcalAttendee.DisplayName cur) in
         (gcalAttendee.mk (gcalAttendee.Email cur) x
            (gcalAttendee.ResponseStatus cur), e)
       else
         let (x, e) := json.dec_string v (gcalAttendee.ResponseStatus cur) in
         (gcalAttendee.mk (gcalAttendee.Email cur)
            (gcalAttendee.DisplayName cur) x, e)).

Definition dec_gcalEvent : json.value -> gcalEvent.t ->
  gcalEvent.t * option error :=
  json.dec_struct "providers.gcalEvent" gcalEvent.names
    (fun f v cur =>
       let '(gcalEvent.mk id summary location start end_ status link org att)
         := cur in
       if String.eqb f "id" then
         let (x, e) := json.dec_string v id in
         (gcalEvent.mk x summary location start end_ status link org att, e)
       else if String.eqb f "summary" then
         let (x, e) := json.dec_string v summary in
         (gcalEvent.mk id x location start end_ status link org att, e)
       else if String.eqb f "location" then
         let (x, e) := json.dec_string v location in
         (gcalEvent.mk id summary x start end_ status link org att, e)
       else if String.eqb f "start" then
         let (x, e) := dec_gcalDateTime v start in
         (gcalEvent.mk id summary location x end_ status link org att, e)
       else if String.eqb f "end" then
         let (x, e) := dec_gcalDateTime v end_ in
         (gcalEvent.mk id summary location start x status link org att, e)
       else if String.eqb f "status" then
         let (x, e) := json.dec_string v status in
         (gcalEvent.mk id summary location start end_ x link org att, e)
       else if String.eqb f "htmlLink" then
         let (x, e) := json.dec_string v link in
         (gcalEvent.mk id summary location start end_ status x org att, e)
       else if String.eqb f "organizer" then
         let (x, e) := dec_gcalOrganizer v org in
         (gcalEvent.mk id summary location start end_ status link x att, e)
       else
         let (x, e) :=
           json.dec_slice "[]providers.gcalAttendee" gcalAttendee.zero
             dec_gcalAttendee v att in
         (gcalEvent.mk id summary location start end_ status link org x, e)).

(** [[]gcalEvent]. *)
Definition dec_events : json.value -> json.slice gcalEvent.t ->
  json.slice gcalEvent.t * option error :=
  json.dec_slice "[]providers.gcalEvent" gcalEvent.zero dec_gcalEvent.

(** The struct of lines 440-442, which has the one field [Events]. *)
Definition dec_wrapped : json.value -> json.slice gcalEvent.t ->
  json.slice gcalEvent.t * option error :=
  json.dec_struct "struct { Events []providers.gcalEvent }" ["events"]
    (fun _ v cur => dec_events v cur).

(** Lines 424-430: the text of the first block of type text. *)
Definition first_text (blocks : list ContentBlock) : string :=
  match find (fun block => String.eqb (Type_ block) "text") blocks with
  | Some block => Text block
  | None => ""
  end.

(** The loop body of lines 452-497. *)
Definition convert (ge : gcalEvent.t) : option CalendarEvent.t :=
  let start := gcalEvent.Start ge in
  let startAllDay :=
    if negb (String.eqb (gcalDateTime.DateTime start) "") then
      match time.Parse_RFC3339 (gcalDateTime.DateTime start) with
      | Some t => (t, false)
      | None => (time.zero, false)
      end
    else if negb (String.eqb (gcalDateTime.Date start) "") then
      match time.Parse_DateOnly (gcalDateTime.Date start) with
      | Some t => (t, true)
      | None => (time.zero, false)
      end
    else (time.zero, false) in
  let end_ := gcalEvent.End_ ge in
  let endTime :=
    if negb (String.eqb (gcalDateTime.DateTime end_) "") then
      match time.Parse_RFC3339 (gcalDateTime.DateTime end_) with
      | Some t => t
      | None => time.zero
      end
    else if negb (String.eqb (gcalDateTime.Date end_) "") then
      match time.Parse_DateOnly (gcalDateTime.Date end_) with
      | Some t => t
      | None => time.zero
      end
    else time.zero in
  let org := gcalEvent.Organizer ge in
  calendar <-
    (if negb (String.eqb (gcalOrganizer.DisplayName org) "")
     then Some (gcalOrganizer.DisplayName org)
     else if negb (String.eqb (gcalOrganizer.Email org) "")
     then nth_error (strings.Split (gcalOrganizer.Email org) "@") 0
     else Some "Primary") ;;
  Some (CalendarEvent.mk (gcalEvent.ID ge) (gcalEvent.Summary ge)
          (fst startAllDay) endTime (gcalEvent.Location ge) "" calendar
          (snd startAllDay)).

Fixpoint convert_all (gcalEvents : list gcalEvent.t)
  : option (list CalendarEvent.t) :=
  match gcalEvents with
  | [] => Some []
  | ge :: rest =>
      event <- convert ge ;;
      events <- convert_all rest ;;
      Some (event :: events)
  end.

(** parseEvents (lines 418-501).  The result is Go's pair [(events, err)]. *)
Definition parseEvents (result : ToolResult)
  : option (list CalendarEvent.t * option error) :=
  match Content result with
  | [] => Some ([], None)
  | _ =>
      let text := first_text (Content result) in
      if String.eqb text "" then Some ([], None)
      else
        let (gcalEvents, err) :=
          json.Unmarshal dec_events text json.nil_slice in
        match err with
        | Some err =>
            let (wrapped, err2) :=
              json.Unmarshal dec_wrapped text json.nil_slice in
            match err2 with
            | Some _ =>
                preview <- truncate text 200 ;;
                Some ([],
                      Some (Errorf "failed to parse calendar events: " err
                              (" (text: " ++ preview ++ ")")))
            | None =>
                events <- convert_all (json.live wrapped) ;;
                Some (events, None)
            end
        | None =>
            events <- convert_all (json.live gcalEvents) ;;
            Some (events, None)
        end
  end.

End GCal.

(** What the loop of parseEvents copies from a decoded event. *)
Definition copied (ge : gcalEvent.t) (event : CalendarEvent.t) : Prop :=
  CalendarEvent.ID event = gcalEvent.ID ge /\
  CalendarEvent.Title event = gcalEvent.Summary ge /\
  CalendarEvent.Location event = gcalEvent.Location ge /\
  CalendarEvent.Notes event = "".

(** A task whose texts have no white space around them and whose checklist
    items are either incomplete or completed. *)
Definition item_clean (it : ChecklistItem) : Prop :=
  strings.trimmed (item_Title it) /\
  (item_Status it = "incomplete" \/ item_Status it = "completed").

Definition clean (t : Task) : Prop :=
  strings.trimmed (Title t) /\ strings.trimmed (UUID t) /\
  strings.trimmed (Status t) /\ strings.trimmed (ProjectTitle t) /\
  strings.trimmed (Notes t) /\ Forall item_clean (ChecklistItems t).

(** Area (things.go, lines 50-53). *)
Module Area.
Record t := mk {
  UUID : string;
  Title : string
}.
Definition zero : t := mk "" "".
Definition names : list string := ["uuid"; "title"].
End Area.

Section Things.
Context `{json.Library}.

Definition dec_Area : json.value -> Area.t -> Area.t * option error :=
  json.dec_struct "providers.Area" Area.names
    (fun f v cur =>
       if String.eqb f "uuid" then
         let (x, e) := json.dec_string v (Area.UUID cur) in
         (Area.mk x (Area.Title cur), e)
       else
         let (x, e) := json.dec_string v (Area.Title cur) in
         (Area.mk (Area.UUID cur) x, e)).

(** [[]Area]. *)
Definition dec_areas : json.value -> json.slice Area.t ->
  json.slice Area.t * option error :=
  json.dec_slice "[]providers.Area" Area.zero dec_Area.

(** The loop of parseAreas (lines 346-352): each text block is unmarshalled
    into the same variable; an error makes the loop go on to the next block
    with whatever Unmarshal has stored. *)
Fixpoint parse_area_blocks (areas : json.slice Area.t)
  (blocks : list ContentBlock) : json.slice Area.t :=
  match blocks with
  | [] => areas
  | block :: rest =>
      if String.eqb (Type_ block) "text" && negb (String.eqb (Text block) "")
      then
        let (areas', _) := json.Unmarshal dec_areas (Text block) areas in
        parse_area_blocks areas' rest
      else parse_area_blocks areas rest
  end.

(** parseAreas (lines 340-355).  The result is Go's pair [(areas, err)]. *)
Definition parseAreas (result : ToolResult) : list Area.t * option error :=
  match Content result with
  | [] => ([], None)
  | _ => (json.live (parse_area_blocks json.nil_slice (Content result)), None)
  end.

(** A block the loop of parseAreas gets nothing from: it is not of type
    text, or its text is empty, or its text is not JSON. *)
Definition no_areas (b : ContentBlock) : Prop :=
  Type_ b <> "text" \/ Text b = "" \/
  exists e, json.Parse (Text b) = Err e.

(** The JSON value of an area: an object with its two members. *)
Definition area_value (a : Area.t) : json.value :=
  json.JObject
    [("uuid", json.JString (Area.UUID a));
     ("title", json.JString (Area.Title a))].

Context `{Transport.Codec any}.

(** ThingsProvider.GetToday (lines 66-73), on the transport of the
    provider's client. *)
Definition GetToday (t : Transport.StdioTransport)
  : option ((list Task * option error) * Transport.StdioTransport) :=
  match CallTool t "get_today" (AMap []) with
  | None => None
  | Some (Err err, t) =>
      Some (([], Some (Errorf "get_today failed: " err "")), t)
  | Some (Ok result, t) => r <- parseTasks result ;; Some (r, t)
  end.

End Things.

End providers.

(** ** Package tasks: the Tasks pane

    Go's [int] is 64 bits wide; a subtraction or an addition that the code
    does not guard wraps around. *)
Module tasks_pane.
Import Transport providers.

Inductive ViewMode : Type :=
| ViewToday
| ViewInbox
| ViewUpcoming
| ViewAnytime.

(** Model (lines 496-512 of the file), without the provider and the styles.
    [selected] is the map [map[string]bool], read as Go reads it: a key that
    is absent gives false. *)
Record Model := mkModel {
  tasks : list Task;
  cursor : Z;
  selected : string -> bool;
  loading : bool;
  err : option error;
  viewMode : ViewMode;
  width : Z;
  height : Z;
  focused : bool
}.

(** New (lines 515-522). *)
Definition New : Model :=
  mkModel [] 0 (fun _ => false) false None ViewToday 0 0 false.

(** What reaches Update: a key, by its [String()], or one of the messages of
    lines 797-805; [OtherMsg] is any other [tea.Msg]. *)
Inductive Msg : Type :=
| KeyMsg (key : string)
| TasksLoadedMsg (Tasks : list Task) (Err : option error)
| TaskCompletedMsg (ID : string) (Err : option error)
| OtherMsg.

(** The commands Update returns: nil, the closure of Refresh with the view
    mode it has captured, the closure of markComplete with its id. *)
Inductive Cmd : Type :=
| Nil
| RefreshCmd (viewMode : ViewMode)
| markCompleteCmd (id : string).

Definition set_cursor (m : Model) (c : Z) : Model :=
  mkModel (tasks m) c (selected m) (loading m) (err m) (viewMode m)
    (width m) (height m) (focused m).
Definition set_viewMode (m : Model) (v : ViewMode) : Model :=
  mkModel (tasks m) (cursor m) (selected m) (loading m) (err m) v
    (width m) (height m) (focused m).
Definition set_err (m : Model) (e : option error) : Model :=
  mkModel (tasks m) (cursor m) (selected m) (loading m) e (viewMode m)
    (width m) (height m) (focused m).
Definition set_loading (m : Model) (b : bool) : Model :=
  mkModel (tasks m) (cursor m) (selected m) b (err m) (viewMode m)
    (width m) (height m) (focused m).
Definition set_tasks (m : Model) (ts : list Task) : Model :=
  mkModel ts (cursor m) (selected m) (loading m) (err m) (viewMode m)
    (width m) (height m) (focused m).
Definition set_selected (m : Model) (sel : string -> bool) : Model :=
  mkModel (tasks m) (cursor m) sel (loading m) (err m) (viewMode m)
    (width m) (height m) (focused m).

(** SetSize (lines 737-741). *)
Definition SetSize (m : Model) (w h : Z) : Model :=
  mkModel (tasks m) (cursor m) (selected m) (loading m) (err m) (viewMode m)
    w h (focused m).

(** Focus and Blur (lines 720-729). *)
Definition Focus (m : Model) : Model :=
  mkModel (tasks m) (cursor m) (selected m) (loading m) (err m) (viewMode m)
    (width m) (height m) true.
Definition Blur (m : Model) : Model :=
  mkModel (tasks m) (cursor m) (selected m) (loading m) (err m) (viewMode m)
    (width m) (height m) false.

(** [len(m.tasks)]. *)
Definition count (m : Model) : Z := Z.of_nat (List.length (tasks m)).

(** [m.tasks[i]]; [None] is the panic of an index out of range. *)
Definition index (ts : list Task) (i : Z) : option Task :=
  if (i <? 0)%Z then None else nth_error ts (Z.to_nat i).

(** Refresh (lines 754-776): the command is the closure, which has read the
    view mode. *)
Definition Refresh (m : Model) : Model * Cmd :=
  (set_loading m true, RefreshCmd (viewMode m)).

(** [m.selected[k] = v]. *)
Definition map_set (sel : string -> bool) (k : string) (v : bool)
  : string -> bool :=
  fun j => if String.eqb j k then v else sel j.

(** The keys of lines 538-585. *)
Definition on_key (m : Model) (key : string) : option (Model * Cmd) :=
  if String.eqb key "j" || String.eqb key "down" then
    Some (if (cursor m <? count m - 1)%Z then set_cursor m (cursor m + 1)
          else m, Nil)
  else if String.eqb key "k" || String.eqb key "up" then
    Some (if (0 <? cursor m)%Z then set_cursor m (cursor m - 1) else m, Nil)
  else if String.eqb key "g" then Some (set_cursor m 0, Nil)
  else if String.eqb key "G" then
    Some (if (0 <? count m)%Z then set_cursor m (count m - 1) else m, Nil)
  else if String.eqb key " " || String.eqb key "x" then
    if (0 <? count m)%Z then
      task <- index (tasks m) (cursor m) ;;
      Some (set_selected m
              (map_set (selected m) (UUID task)
                 (negb (selected m (UUID task)))), Nil)
    else Some (m, Nil)
  else if String.eqb key "d" then
    if (0 <? count m)%Z then
      task <- index (tasks m) (cursor m) ;;
      Some (m, markCompleteCmd (UUID task))
    else Some (m, Nil)
  else if String.eqb key "r" then Some (Refresh m)
  else if String.eqb key "1" then Some (Refresh (set_viewMode m ViewToday))
  else if String.eqb key "2" then Some (Refresh (set_viewMode m ViewInbox))
  else if String.eqb key "3" then Some (Refresh (set_viewMode m ViewUpcoming))
  else if String.eqb key "4" then Some (Refresh (set_viewMode m ViewAnytime))
  else Some (m, Nil).

(** Update (lines 530-609). *)
Definition Update (m : Model) (msg : Msg) : option (Model * Cmd) :=
  match msg with
  | KeyMsg key => if negb (focused m) then Some (m, Nil) else on_key m key
  | TasksLoadedMsg loaded failure =>
      let m := set_loading m false in
      match failure with
      | Some e => Some (set_err m (Some e), Nil)
      | None =>
          let m := set_err (set_tasks m loaded) None in
          Some (if (count m <=? cursor m)%Z
                then set_cursor m (Z.max 0 (count m - 1))
                else m, Nil)
      end
  | TaskCompletedMsg _ failure =>
      match failure with
      | Some e => Some (set_err m (Some e), Nil)
      | None => Some (Refresh m)
      end
  | OtherMsg => Some (m, Nil)
  end.

(** The cursor is on a row, or on row 0 of an empty list. *)
Definition on_a_row (m : Model) : Prop :=
  (0 <= cursor m)%Z /\ (cursor m < count m \/ cursor m = 0)%Z.

Section Styles.

(** [lipgloss.Style.Render] for the three styles renderTask uses. *)
Variables ListItemDone ListItemSelected ListItem : string -> string.

(** The style of a row (lines 701-709). *)
Definition row_style (task : Task) (isCursor : bool) : string -> string :=
  if String.eqb (Status task) "completed" then ListItemDone
  else if isCursor then ListItemSelected else ListItem.

(** renderTask (lines 674-712). *)
Definition renderTask (m : Model) (task : Task) (isCursor isSelected : bool)
  : option string :=
  let status :=
    if String.eqb (Status task) "completed" then "[x]"
    else if isSelected then "[*]" else "[ ]" in
  let cursor := if isCursor then "> " else "  " in
  title <-
    (if (wrap64 (width m - 10) <? strings.len (Title task))%Z then
       pre <- strings.slice (Title task) 0 (wrap64 (width m - 13)) ;;
       Some (pre ++ "...")
     else Some (Title task)) ;;
  let line := cursor ++ status ++ " " ++ title in
  Some ((if String.eqb (Status task) "completed" then ListItemDone
         else if isCursor then ListItemSelected else ListItem) line).

(** The rows View shows (lines 621 and 631-635): from [start] up to, not
    including, [end]. *)
Definition window (m : Model) : Z * Z :=
  let contentHeight := wrap64 (height m - 4) in
  let start :=
    if (contentHeight <=? cursor m)%Z
    then wrap64 (wrap64 (cursor m - contentHeight) + 1)
    else 0%Z in
  (start, Z.min (wrap64 (start + contentHeight)) (count m)).

(** The loop of lines 637-642, [k] turns from row [i] on: each row is
    fetched and rendered. *)
Fixpoint render_rows (m : Model) (i : Z) (k : nat) : option (list string) :=
  match k with
  | O => Some []
  | S k' =>
      task <- index (tasks m) i ;;
      line <- renderTask m task (i =? cursor m)%Z (selected m (UUID task)) ;;
      rest <- render_rows m (i + 1) k' ;;
      Some ((line ++ nl) :: rest)
  end.

(** The rows of View when there are tasks to show (lines 629-643). *)
Definition View_rows (m : Model) : option (list string) :=
  let (start, end_) := window m in
  render_rows m start (Z.to_nat (end_ - start)).

End Styles.

End tasks_pane.

(** ** internal/panes/calendar: the Calendar pane *)
Module calendar_pane.
Import Transport providers.

Inductive ViewMode : Type :=
| ViewToday
| ViewWeek
| ViewAgenda.

(** Model (model.go, lines 26-37), without the provider and the styles. *)
Record Model := mkModel {
  events : list CalendarEvent.t;
  viewMode : ViewMode;
  cursor : Z;
  focused : bool;
  width : Z;
  height : Z;
  loading : bool;
  err : option error
}.

(** New (lines 46-52). *)
Definition New : Model := mkModel [] ViewToday 0 false 0 0 false None.

Inductive Msg : Type :=
| KeyMsg (key : string)
| EventsLoadedMsg (Events : list CalendarEvent.t) (Err : option error)
| OtherMsg.

(** The commands Update returns: nil, or the closure of loadEvents with the
    view mode it has captured. *)
Inductive Cmd : Type :=
| Nil
| loadEventsCmd (viewMode : ViewMode).

Definition set_cursor (m : Model) (c : Z) : Model :=
  mkModel (events m) (viewMode m) c (focused m) (width m) (height m)
    (loading m) (err m).

(** [m.loading = true; return m, m.loadEvents()], after the view mode has
    been set to [v]. *)
Definition reload (m : Model) (v : ViewMode) : Model * Cmd :=
  (mkModel (events m) v (cursor m) (focused m) (width m) (height m) true
     (err m), loadEventsCmd v).

Definition count (m : Model) : Z := Z.of_nat (List.length (events m)).

(** Update (lines 61-111). *)
Definition Update (m : Model) (msg : Msg) : Model * Cmd :=
  match msg with
  | KeyMsg key =>
      if negb (focused m) then (m, Nil)
      else if String.eqb key "j" || String.eqb key "down" then
        (if (cursor m <? count m - 1)%Z then set_cursor m (cursor m + 1)
         else m, Nil)
      else if String.eqb key "k" || String.eqb key "up" then
        (if (0 <? cursor m)%Z then set_cursor m (cursor m - 1) else m, Nil)
      else if String.eqb key "g" then (set_cursor m 0, Nil)
      else if String.eqb key "G" then
        (if (0 <? count m)%Z then set_cursor m (count m - 1) else m, Nil)
      else if String.eqb key "r" then reload m (viewMode m)
      else if String.eqb key "1" then reload m ViewToday
      else if String.eqb key "2" then reload m ViewWeek
      else if String.eqb key "3" then reload m ViewAgenda
      else (m, Nil)
  | EventsLoadedMsg loaded failure =>
      match failure with
      | Some e =>
          (mkModel (events m) (viewMode m) (cursor m) (focused m) (width m)
             (height m) false (Some e), Nil)
      | None =>
          (mkModel loaded (viewMode m) (cursor m) (focused m) (width m)
             (height m) false None, Nil)
      end
  | OtherMsg => (m, Nil)
  end.

(** [fmt.Sprintf("%-8s", s)] for a text of ASCII characters: blanks on the
    right up to eight characters. *)
Fixpoint blanks (n : nat) : string :=
  match n with
  | O => EmptyString
  | S k => String " " (blanks k)
  end.
Definition pad8 (s : string) : string := s ++ blanks (8 - String.length s).

Section Styles.

(** [lipgloss.Style.Render] for the two styles renderEvent uses. *)
Variables Muted ListItem : string -> string.

(** renderEvent (lines 194-238). *)
Definition renderEvent (m : Model) (event : CalendarEvent.t)
  : option string :=
  let timeStr :=
    if CalendarEvent.AllDay event then "All day"
    else time.Format_3_04_PM (CalendarEvent.StartTime event) in
  let maxTitleLen := wrap64 (width m - 25) in
  title <-
    (if ((0 <? maxTitleLen)
         && (maxTitleLen <? strings.len (CalendarEvent.Title event)))%Z
     then
       pre <- strings.slice (CalendarEvent.Title event) 0
                (wrap64 (maxTitleLen - 3)) ;;
       Some (pre ++ "...")
     else Some (CalendarEvent.Title event)) ;;
  let line := "  " ++ Muted (pad8 timeStr) ++ "  " ++ ListItem title in
  line <-
    (if negb (String.eqb (CalendarEvent.Calendar event) "") then
       calShort <-
         (if (10 <? strings.len (CalendarEvent.Calendar event))%Z
          then strings.slice (CalendarEvent.Calendar event) 0 10
          else Some (CalendarEvent.Calendar event)) ;;
       Some (line ++ Muted (" [" ++ calShort ++ "]"))
     else Some line) ;;
  if negb (String.eqb (CalendarEvent.Location event) "") then
    loc <-
      (if (20 <? strings.len (CalendarEvent.Location event))%Z
       then
         pre <- strings.slice (CalendarEvent.Location event) 0 17 ;;
         Some (pre ++ "...")
       else Some (CalendarEvent.Location event)) ;;
    Some (line ++ Muted (" @ " ++ loc))
  else Some line.

End Styles.

(** groupEventsByDate (lines 240-249).  The map is read as Go reads it: a
    key that is absent gives the nil slice. *)
Fixpoint group (result : string -> list CalendarEvent.t)
  (evs : list CalendarEvent.t) : string -> list CalendarEvent.t :=
  match evs with
  | [] => result
  | event :: rest =>
      let dateKey := time.Format_DateOnly (CalendarEvent.StartTime event) in
      group (fun key =>
               if String.eqb key dateKey then (result key ++ [event])%list
               else result key) rest
  end.

Definition groupEventsByDate (m : Model) : string -> list CalendarEvent.t :=
  group (fun _ => []) (events m).

(** formatDateHeader (lines 251-270).  [now] is what [time.Now()] answers
    and [local] the offset of the machine's zone, in seconds east of UTC, at
    the midnight that begins today. *)
Definition formatDateHeader (local : Z) (now : time.Time) (dateStr : string)
  : string :=
  match time.Parse_DateOnly dateStr with
  | None => dateStr
  | Some t =>
      let today :=
        time.Date (time.Year now) (time.Month now) (time.Day now) 0 0 0 0
          (time.Loc now) in
      let eventDate :=
        time.Date (time.Year t) (time.Month t) (time.Day t) 0 0 0 0
          (time.Loc t) in
      if time.Equal local eventDate today
      then "Today - " ++ time.Format_Mon_Jan_2 t
      else if time.Equal_Add local eventDate today 86400
      then "Tomorrow - " ++ time.Format_Mon_Jan_2 t
      else time.Format_Mon_Jan_2 t
  end.

End calendar_pane.

(** ** A scripted child for the examples *)
Module Demo.
Import Transport.

Definition dq : string := String (ascii_of_nat 34) EmptyString.
Definition q (s : string) : string := dq ++ s ++ dq.

(** Lines a child may print. *)
Definition banner : string := "listening on stdio" ++ nl.
Definition progress : string :=
  "{" ++ q "jsonrpc" ++ ":" ++ q "2.0" ++ "," ++ q "method" ++ ":"
      ++ q "notifications/progress" ++ "}" ++ nl.
Definition reply (id body : string) : string :=
  "{" ++ q "jsonrpc" ++ ":" ++ q "2.0" ++ "," ++ q "id" ++ ":" ++ id ++ ","
      ++ body ++ "}" ++ nl.
Definition result_1 : string := reply "1" (q "result" ++ ":{}").
Definition result_2 : string := reply "2" (q "result" ++ ":[7]").
Definition error_1 : string :=
  reply "1" (q "error" ++ ":{" ++ q "code" ++ ":-32601," ++ q "message" ++ ":"
             ++ q "Method not found" ++ "}").

(** encoding/json restricted to the lines above and to requests without
    parameters. *)
Definition demo_Unmarshal (line : string) : option JSONRPCResponse :=
  if String.eqb line progress then Some (mkResponse 0 None None)
  else if String.eqb line result_1 then Some (mkResponse 1 (Some "{}") None)
  else if String.eqb line result_2 then Some (mkResponse 2 (Some "[7]") None)
  else if String.eqb line error_1 then
    Some (mkResponse 1 None
            (Some (mkJSONRPCError (-32601) "Method not found")))
  else None.

Definition request (id : Z) (method : string) : string :=
  "{" ++ q "jsonrpc" ++ ":" ++ q "2.0" ++ "," ++ q "id" ++ ":" ++ itoa id
      ++ "," ++ q "method" ++ ":" ++ q method ++ "}".

Definition demo_Marshal (r : JSONRPCRequest unit) : result string :=
  Ok (request (req_ID _ r) (req_Method _ r)).

Definition demo_Marshal_notification (n : JSONRPCNotification) : string :=
  "{" ++ q "jsonrpc" ++ ":" ++ q (notif_JSONRPC n) ++ "," ++ q "method" ++ ":"
      ++ q (notif_Method n) ++ "}".

#[export] Instance demo_codec : Codec unit := {|
  initParams := tt;
  json_Marshal := demo_Marshal;
  json_Marshal_notification := demo_Marshal_notification;
  json_Unmarshal := demo_Unmarshal
|}.

(** A transport that has been started and has made no call yet after the
    handshake, reading the given lines. *)
Definition active (script : list string) : StdioTransport :=
  mkTransport None true false 1 [] false script 0 true true.

(** An envelope with one text block. *)
Definition text_result (text : string) : mcp.ToolResult :=
  mcp.mkToolResult [mcp.mkContentBlock "text" text] false.

(** Two task blocks, the second with an empty title. *)
Definition buy_milk : string :=
  "Title: Buy milk" ++ nl ++ "UUID: abc" ++ nl ++ "Status: incomplete" ++ nl
  ++ "---" ++ nl ++ "Title: " ++ nl ++ "UUID: xyz" ++ nl.

(** A task whose notes are followed by its status. *)
Definition notes_then_status : string :=
  "Title: Call" ++ nl ++ "Notes: ask about the invoice" ++ nl
  ++ "Status: completed".

(** The scanner after the first two lines of [notes_then_status]. *)
Definition in_notes : providers.scanner :=
  providers.mkScanner (providers.set_Title providers.Task_zero "Call")
    ("ask about the invoice" ++ nl) true false.

(** encoding/json and time.Parse on the texts of the examples. *)
Definition all_day_array : string :=
  "[{" ++ q "id" ++ ":" ++ q "e1" ++ "," ++ q "summary" ++ ":" ++ q "Offsite"
       ++ "," ++ q "start" ++ ":{" ++ q "date" ++ ":" ++ q "2025-03-10" ++ "}"
       ++ "," ++ q "organizer" ++ ":{" ++ q "email" ++ ":"
       ++ q "team@example.com" ++ "}}]".
Definition all_day_wrapped : string :=
  "{" ++ q "events" ++ ":" ++ all_day_array ++ "}".
Definition not_json : string := "Error: calendar not reachable".

Definition all_day_value : json.value :=
  json.JArray
    [json.JObject
       [("id", json.JString "e1");
        ("summary", json.JString "Offsite");
        ("start", json.JObject [("date", json.JString "2025-03-10")]);
        ("organizer",
         json.JObject [("email", json.JString "team@example.com")])]].

Definition demo_Parse (text : string) : result json.value :=
  if String.eqb text all_day_array then Ok all_day_value
  else if String.eqb text all_day_wrapped
  then Ok (json.JObject [("events", all_day_value)])
  else Err (LibError "invalid character 'E' looking for beginning of value").

Definition upper (c : ascii) : ascii :=
  let n := nat_of_ascii c in
  if ((97 <=? n) && (n <=? 122))%nat then ascii_of_nat (n - 32) else c.
Fixpoint demo_fold (s : string) : string :=
  match s with
  | EmptyString => EmptyString
  | String c r => String (upper c) (demo_fold r)
  end.

#[export] Instance demo_json : json.Library := {|
  json.Parse := demo_Parse;
  json.foldName := demo_fold;
  json.TypeError := fun v t =>
    LibError ("json: cannot unmarshal " ++ v ++ " into Go value of type " ++ t)
|}.

#[export] Instance demo_rfc3339 : time.RFC3339 := {|
  time.Parse_RFC3339 := fun value =>
    if String.eqb value "2025-03-10T09:30:00Z"
    then Some (time.Date 2025 3 10 9 30 0 0 time.UTC)
    else None
|}.

(** The all-day event of [all_day_array] once decoded. *)
Definition all_day : providers.gcalEvent.t :=
  providers.gcalEvent.mk "e1" "Offsite" ""
    (providers.gcalDateTime.mk "" "2025-03-10" "")
    providers.gcalDateTime.zero "" ""
    (providers.gcalOrganizer.mk "team@example.com" "" false)
    json.nil_slice.

(** Two callers of one transport, and a child that answers both. *)
Definition two_calls (i : nat) : string * unit :=
  if Nat.eqb i 0 then ("tools/list", tt) else ("resources/list", tt).
Definition shared : StdioTransport :=
  active [banner; result_1; progress; result_2].
Definition shared_noise (k : nat) : list string :=
  match k with
  | 1 => [banner]
  | 2 => [progress]
  | _ => []
  end.
Definition shared_line (k : nat) : string :=
  match k with
  | 1 => result_1
  | _ => result_2
  end.
Definition shared_resp (k : nat) : JSONRPCResponse :=
  match k with
  | 1 => mkResponse 1 (Some "{}") None
  | _ => mkResponse 2 (Some "[7]") None
  end.

(** The state in which the scheduler leaves the two callers. *)
Definition shared_end : Concurrent.state :=
  Concurrent.run two_calls 2 40 (Concurrent.init shared).

(** Two callers of a transport that has not been started: the child answers
    the handshake, then one request. *)
Definition fresh : StdioTransport :=
  NewStdioTransport None [result_1; progress; result_2].
(** What the first Start leaves of [fresh]: the handshake has been written
    and answered. *)
Definition fresh_started : StdioTransport :=
  mkTransport None true false 1
    [(request 1 "initialize" ++ nl)%string;
     (demo_Marshal_notification
        (mkNotification "2.0" "notifications/initialized") ++ nl)%string]
    false [progress; result_2] 1 true true.
Definition fresh_end : Concurrent.state :=
  Concurrent.run two_calls 2 60 (Concurrent.init fresh).

(** *** Tool calls

    encoding/json on the requests of tool calls: the members of a map are
    written in the order of their keys. *)
Fixpoint insert_member (k text : string) (l : list (string * string))
  : list (string * string) :=
  match l with
  | [] => [(k, text)]
  | (k', text') :: rest =>
      if String.leb k k' then (k, text) :: l
      else (k', text') :: insert_member k text rest
  end.

Definition sort_members (l : list (string * string))
  : list (string * string) :=
  fold_right (fun kv acc => insert_member (fst kv) (snd kv) acc) [] l.

Fixpoint join_members (members : list string) : string :=
  match members with
  | [] => ""
  | [x] => x
  | x :: rest => x ++ "," ++ join_members rest
  end.

Fixpoint any_json (a : mcp.any) : string :=
  match a with
  | mcp.AString s => q s
  | mcp.ABool b => if b then "true" else "false"
  | mcp.AMap m =>
      "{"
      ++ join_members
           (map (fun kv => q (fst kv) ++ ":" ++ snd kv)
              (sort_members
                 ((fix render (l : list (string * mcp.any))
                     : list (string * string) :=
                     match l with
                     | [] => []
                     | (k, v) :: rest => (k, any_json v) :: render rest
                     end) m)))
      ++ "}"
  end.

Definition tools_Marshal (r : JSONRPCRequest mcp.any) : result string :=
  Ok ("{" ++ q "jsonrpc" ++ ":" ++ q (req_JSONRPC _ r) ++ "," ++ q "id" ++ ":"
      ++ itoa (req_ID _ r) ++ "," ++ q "method" ++ ":" ++ q (req_Method _ r)
      ++ "," ++ q "params" ++ ":" ++ any_json (req_Params _ r) ++ "}").

(** The result of a tool call of the Things server: one text block with one
    task.  In the JSON text the line breaks of the task are escaped. *)
Definition milk_task : string :=
  "Title: Buy milk" ++ nl ++ "UUID: abc" ++ nl ++ "Status: incomplete".
Definition milk_result : string :=
  "{" ++ q "content" ++ ":[{" ++ q "type" ++ ":" ++ q "text" ++ ","
  ++ q "text" ++ ":"
  ++ q "Title: Buy milk\nUUID: abc\nStatus: incomplete"
  ++ "}]," ++ q "isError" ++ ":false}".
Definition milk_reply : string := reply "1" (q "result" ++ ":" ++ milk_result).

(** The request of GetToday with the id 1. *)
Definition get_today_request : string :=
  "{" ++ q "jsonrpc" ++ ":" ++ q "2.0" ++ "," ++ q "id" ++ ":1,"
  ++ q "method" ++ ":" ++ q "tools/call" ++ "," ++ q "params" ++ ":{"
  ++ q "arguments" ++ ":{}," ++ q "name" ++ ":" ++ q "get_today" ++ "}}".

Definition tools_Unmarshal (line : string) : option JSONRPCResponse :=
  if String.eqb line milk_reply
  then Some (mkResponse 1 (Some milk_result) None)
  else demo_Unmarshal line.

(** The map literal of initialize (stdio.go, lines 128-135). *)
Definition tools_initParams : mcp.any :=
  mcp.AMap
    [("protocolVersion", mcp.AString "2024-11-05");
     ("capabilities", mcp.AMap []);
     ("clientInfo",
      mcp.AMap [("name", mcp.AString "partner");
                ("version", mcp.AString "0.1.0")])].

Definition tools_codec : Codec mcp.any := {|
  initParams := tools_initParams;
  json_Marshal := tools_Marshal;
  json_Marshal_notification := demo_Marshal_notification;
  json_Unmarshal := tools_Unmarshal
|}.

(** The areas a Things server lists, and encoding/json on the texts of the
    tool results. *)
Definition two_areas : list providers.Area.t :=
  [providers.Area.mk "a1" "Home"; providers.Area.mk "a2" "Work"].
Definition areas_text : string :=
  "[{" ++ q "uuid" ++ ":" ++ q "a1" ++ "," ++ q "title" ++ ":" ++ q "Home"
  ++ "},{" ++ q "uuid" ++ ":" ++ q "a2" ++ "," ++ q "title" ++ ":"
  ++ q "Work" ++ "}]".
Definition stale_areas_text : string :=
  "[{" ++ q "uuid" ++ ":" ++ q "a0" ++ "," ++ q "title" ++ ":" ++ q "Old"
  ++ "}]".

Definition tools_Parse (text : string) : result json.value :=
  if String.eqb text milk_result then
    Ok (json.JObject
          [("content",
            json.JArray
              [json.JObject
                 [("type", json.JString "text");
                  ("text", json.JString milk_task)]]);
           ("isError", json.JBool false)])
  else if String.eqb text areas_text then
    Ok (json.JArray
          [json.JObject
             [("uuid", json.JString "a1"); ("title", json.JString "Home")];
           json.JObject
             [("uuid", json.JString "a2"); ("title", json.JString "Work")]])
  else if String.eqb text stale_areas_text then
    Ok (json.JArray
          [json.JObject
             [("uuid", json.JString "a0"); ("title", json.JString "Old")]])
  else demo_Parse text.

Definition tools_json : json.Library := {|
  json.Parse := tools_Parse;
  json.foldName := demo_fold;
  json.TypeError := fun v t =>
    LibError ("json: cannot unmarshal " ++ v ++ " into Go value of type " ++ t)
|}.

(** An event whose start.dateTime is not a time, though its start.date is a
    date. *)
Definition bad_time : providers.gcalEvent.t :=
  providers.gcalEvent.mk "e2" "Review" ""
    (providers.gcalDateTime.mk "next monday" "2025-03-10" "")
    providers.gcalDateTime.zero "" ""
    (providers.gcalOrganizer.mk "team@example.com" "" false)
    json.nil_slice.

(** *** The panes *)

Definition milk : providers.Task :=
  providers.set_Status
    (providers.set_UUID (providers.set_Title providers.Task_zero "Buy milk")
       "abc") "incomplete".
Definition bread : providers.Task :=
  providers.set_UUID
    (providers.set_Title providers.Task_zero "Bring the bread back") "def".

(** A Tasks pane of 30 columns and 10 lines, in focus, with two tasks and
    the cursor on the second. *)
Definition two_tasks : tasks_pane.Model :=
  tasks_pane.mkModel [milk; bread] 1 (fun _ => false) false None
    tasks_pane.ViewToday 30 10 true.

(** Styles that mark the text they render. *)
Definition plain (s : string) : string := s.
Definition bold (s : string) : string := "*" ++ s ++ "*".
Definition faint (s : string) : string := "(" ++ s ++ ")".

(** A Calendar pane 27 columns wide, one 40 columns wide, and an event. *)
Definition standup : providers.CalendarEvent.t :=
  providers.CalendarEvent.mk "e3" "Weekly stand-up of the team"
    (time.Date 2025 3 10 9 30 0 0 time.UTC) time.zero
    "Meeting room on the second floor" "" "team@example.com" false.
Definition narrow_calendar : calendar_pane.Model :=
  calendar_pane.mkModel [standup] calendar_pane.ViewToday 0 true 27 10 false
    None.
Definition wide_calendar : calendar_pane.Model :=
  calendar_pane.mkModel [standup] calendar_pane.ViewToday 0 true 40 10 false
    None.

(** A clock in a zone five hours west of UTC. *)
Definition monday_morning : time.Time :=
  time.Date 2025 3 10 8 0 0 0 time.Local.

End Demo.

(** * Properties of the transport *)
Section TransportFacts.
Import Transport.
Context {Params : Type} `{Codec Params}.

Lemma read_response_skips (id : Z) (noise rest : list string) :
  Forall (passed_over id) noise ->
  read_response id (noise ++ rest)%list = read_response id rest.
Proof.
  induction 1 as [|l noise Hl _ IH]; [reflexivity|].
  cbn [app read_response]. unfold read_line.
  destruct Hl as [Hm | [(r & Hr & Hid & Hres & Herr) | (r & Hr & Hid)]].
  - unfold malformed in Hm. now rewrite Hm.
  - rewrite Hr, Hid, Hres, Herr. exact IH.
  - rewrite Hr.
    destruct ((ID r =? 0)%Z && _ && _); [exact IH|].
    destruct (Z.eqb_spec (ID r) id); [contradiction | exact IH].
Qed.

Lemma read_response_match (id : Z) (line : string) (resp : JSONRPCResponse)
  (rest : list string) :
  json_Unmarshal line = Some resp ->
  ID resp = id ->
  (Result resp <> None \/ Error resp <> None \/ id <> 0%Z) ->
  read_response id (line :: rest) =
  (match Error resp with
   | Some e => Err (RPCError e)
   | None => Ok (Result resp)
   end, rest).
Proof.
  intros Hu Hid Hne. cbn [read_response]. unfold read_line.
  rewrite Hu, Hid, Z.eqb_refl.
  destruct (Z.eqb_spec id 0) as [E|E]; cbn [andb];
    destruct (Result resp), (Error resp); cbn [andb]; try reflexivity.
  destruct Hne as [Hn | [Hn | Hn]]; congruence.
Qed.

(** Two unfoldings of the mutual recursion are enough, whatever the state. *)
Lemma Call_rec_depth (d : nat) (t : StdioTransport) (method : string)
  (params : Params) :
  Call_rec (2 + d) t method params = Call t method params.
Proof.
  unfold Call. cbn [Nat.add Call_rec].
  destruct (started t); cbn [negb]; [reflexivity|].
  unfold Start. destruct (startOnce t); [reflexivity|].
  unfold cmd_Start. destruct (spawn_err t); reflexivity.
Qed.

Lemma Call_total (t : StdioTransport) (method : string) (params : Params) :
  exists r, Call t method params = Some r.
Proof.
  unfold Call. cbn [Call_rec].
  destruct (started t); cbn [negb]; [eauto|].
  unfold Start. destruct (startOnce t); [eauto|].
  unfold cmd_Start. destruct (spawn_err t); [eauto|].
  unfold initialize. cbn [set_started started negb].
  destruct (Call_locked _ _ _) as [[r|e] t1]; [|eauto].
  unfold Write. destruct (stdin_closed t1); eauto.
Qed.

Lemma Start_depth (d : nat) (t : StdioTransport) :
  Start (Call_rec (S d)) t = Start Call t.
Proof.
  unfold Start, Call. destruct (startOnce t); [reflexivity|].
  destruct (cmd_Start t) as [[e|] t1]; reflexivity.
Qed.

(** Call, with the recursion folded back. *)
Lemma Call_unfold (t : StdioTransport) (method : string) (params : Params) :
  Call t method params =
  if negb (started t) then
    match Start Call t with
    | None => None
    | Some (Some err, t) => Some (Err err, t)
    | Some (None, t) => Some (Call_locked t method params)
    end
  else Some (Call_locked t method params).
Proof. rewrite <- (Start_depth 0 t). reflexivity. Qed.

(** Call is the round trip on the transport that Start leaves. *)
Lemma Call_after_start (t t1 : StdioTransport) (method : string)
  (params : Params) :
  after_start t t1 ->
  Call t method params = Some (Call_locked t1 method params).
Proof.
  rewrite Call_unfold. intros [[Hs ->] | [Hs Hst]]; rewrite Hs; cbn [negb].
  - reflexivity.
  - now rewrite Hst.
Qed.

(** What one locked round trip does when the child's next lines are some
    lines to pass over, then a line carrying the allocated id. *)
Lemma Call_locked_answer (t : StdioTransport) (method : string)
  (params : Params) (data : string) (noise : list string) (line : string)
  (resp : JSONRPCResponse) (rest : list string) :
  let id := wrap64 (reqID t + 1) in
  stdin_closed t = false ->
  json_Marshal (mkRequest "2.0" id method params) = Ok data ->
  stdout t = (noise ++ line :: rest)%list ->
  Forall (passed_over id) noise ->
  json_Unmarshal line = Some resp ->
  ID resp = id ->
  (Result resp <> None \/ Error resp <> None \/ id <> 0%Z) ->
  Call_locked t method params =
  (match Error resp with
   | Some e => Err (RPCError e)
   | None => Ok (Result resp)
   end,
   set_stdout (set_stdin (set_reqID t id) (stdin t ++ [data ++ nl])) rest).
Proof.
  intros id Hopen Hm Hout Hnoise Hu Hid Hne.
  unfold Call_locked. fold id. rewrite Hm.
  unfold Write. cbn [set_reqID stdin_closed stdin]. rewrite Hopen.
  cbn [set_stdin set_reqID stdout]. rewrite Hout.
  rewrite (read_response_skips id noise (line :: rest) Hnoise).
  rewrite (read_response_match id line resp rest Hu Hid Hne).
  reflexivity.
Qed.

(** C1.  Call, on a transport that is started or that its Start starts:
    when the child prints, before anything else that carries the allocated
    id, only lines that are not JSON-RPC, notifications (no id, no result,
    no error) or messages for other ids, and then a response with the
    allocated id, a result and no error, Call returns that result unchanged,
    having read exactly the lines up to the response and written exactly the
    request. *)
Theorem Call_returns_result_verbatim (t t1 : StdioTransport)
  (method : string) (params : Params) (data : string) (noise : list string)
  (line : string) (resp : JSONRPCResponse) (bytes : string)
  (rest : list string) :
  after_start t t1 ->
  stdin_closed t1 = false ->
  json_Marshal (mkRequest "2.0" (wrap64 (reqID t1 + 1)) method params)
    = Ok data ->
  stdout t1 = (noise ++ line :: rest)%list ->
  Forall (passed_over (wrap64 (reqID t1 + 1))) noise ->
  json_Unmarshal line = Some resp ->
  ID resp = wrap64 (reqID t1 + 1) ->
  Result resp = Some bytes ->
  Error resp = None ->
  exists t',
    Call t method params = Some (Ok (Some bytes), t') /\
    stdout t' = rest /\
    stdin t' = (stdin t1 ++ [(data ++ nl)%string])%list /\
    reqID t' = ID resp.
Proof.
  intros Hs Hopen Hm Hout Hnoise Hu Hid Hres Herr.
  rewrite (Call_after_start t t1 method params Hs).
  rewrite (Call_locked_answer t1 method params data noise line resp rest
             Hopen Hm Hout Hnoise Hu Hid
             ltac:(left; rewrite Hres; discriminate)).
  rewrite Herr, Hres. eexists. split; [reflexivity|].
  cbn. now rewrite Hid.
Qed.

(** C3.  When the response that carries the allocated id has an error
    object, Call fails with that very object as its error: same code, same
    message, and its text is "JSON-RPC error <code>: <message>".  The
    transport is left open and started. *)
Theorem Call_error_response (t t1 : StdioTransport) (method : string)
  (params : Params) (data : string) (noise : list string) (line : string)
  (resp : JSONRPCResponse) (e : JSONRPCError) (rest : list string) :
  after_start t t1 ->
  stdin_closed t1 = false ->
  json_Marshal (mkRequest "2.0" (wrap64 (reqID t1 + 1)) method params)
    = Ok data ->
  stdout t1 = (noise ++ line :: rest)%list ->
  Forall (passed_over (wrap64 (reqID t1 + 1))) noise ->
  json_Unmarshal line = Some resp ->
  ID resp = wrap64 (reqID t1 + 1) ->
  Error resp = Some e ->
  exists t' err,
    Call t method params = Some (Err err, t') /\
    err = RPCError (mkJSONRPCError (Code e) (Message e)) /\
    Error_string err =
      "JSON-RPC error " ++ itoa (Code e) ++ ": " ++ Message e /\
    stdin_closed t' = false /\ started t' = started t1 /\ stdout t' = rest.
Proof.
  intros Hs Hopen Hm Hout Hnoise Hu Hid Herr.
  rewrite (Call_after_start t t1 method params Hs).
  rewrite (Call_locked_answer t1 method params data noise line resp rest
             Hopen Hm Hout Hnoise Hu Hid
             ltac:(right; left; rewrite Herr; discriminate)).
  rewrite Herr. do 2 eexists. split; [reflexivity|].
  destruct e as [c m]. cbn. auto 6.
Qed.

(** Start leaves the [sync.Once] fired, whatever it returns. *)
Lemma Start_fires_once (t t1 : StdioTransport) (o : option error) :
  Start Call t = Some (o, t1) -> startOnce t1 = true.
Proof.
  unfold Start. destruct (startOnce t) eqn:Ho.
  - intros [= <- <-]. exact Ho.
  - unfold cmd_Start. destruct (spawn_err t).
    + intros [= <- <-]. reflexivity.
    + unfold initialize, Call. cbn [Call_rec set_started started negb].
      destruct (Call_locked _ _ _) as [[r|e] t2].
      * unfold Write. destruct (stdin_closed t2); intros [= <- <-]; reflexivity.
      * intros [= <- <-]. reflexivity.
Qed.

Lemma Write_spawns (t : StdioTransport) (p : string) :
  spawns (snd (Write t p)) = spawns t.
Proof. unfold Write. destruct (stdin_closed t); reflexivity. Qed.

Lemma Call_locked_spawns (t : StdioTransport) (method : string)
  (params : Params) :
  spawns (snd (Call_locked t method params)) = spawns t.
Proof.
  unfold Call_locked. destruct (json_Marshal _); [|reflexivity].
  unfold Write. cbn [set_reqID stdin_closed].
  destruct (stdin_closed t); [reflexivity|].
  destruct (read_response _ _). reflexivity.
Qed.

(** A first Start spawns the process once. *)
Lemma Start_spawns_once (t t1 : StdioTransport) (o : option error) :
  startOnce t = false ->
  Start Call t = Some (o, t1) -> spawns t1 = S (spawns t).
Proof.
  unfold Start. intros ->.
  unfold cmd_Start. destruct (spawn_err t).
  - intros [= <- <-]. reflexivity.
  - unfold initialize, Call. cbn [Call_rec set_started started negb].
    match goal with
    | |- context [Call_locked ?a ?b ?c] =>
        pose proof (Call_locked_spawns a b c) as Hs;
        destruct (Call_locked a b c) as [[r|e] t2]
    end; cbn [snd spawns set_started] in Hs.
    + match goal with
      | |- context [Write ?a ?b] =>
          pose proof (Write_spawns a b) as Hw;
          destruct (Write a b) as [[e|] t3]
      end; cbn [snd] in Hw; intros [= <- <-]; cbn [set_startOnce spawns];
        congruence.
    + intros [= <- <-]. cbn [set_startOnce spawns]. congruence.
Qed.

(** Once the [sync.Once] has fired, Start does nothing and returns nil. *)
Lemma Start_again (call : caller) (t : StdioTransport) :
  startOnce t = true -> Start call t = Some (None, t).
Proof. intros Ho. unfold Start. now rewrite Ho. Qed.

(** C4, where the code parts from it.  The second Start is a no-op, and it
    returns nil even when the first Start returned an error: the error of
    the first call lives in a local variable of that call and is not kept. *)
Theorem Start_twice_forgets_failure (t t1 : StdioTransport) (err : error) :
  Start Call t = Some (Some err, t1) ->
  Start Call t1 = Some (None, t1).
Proof.
  intros H1. apply Start_again. exact (Start_fires_once t t1 _ H1).
Qed.

End TransportFacts.

(** * Properties of concurrent callers *)
Section ConcurrentFacts.
Import Transport Concurrent.
Context {Params : Type} `{Codec Params}.
Variable calls : nat -> string * Params.
Variable n : nat.

Lemma upd_same (f : nat -> pc) (i : nat) (p : pc) : upd f i p i = p.
Proof. unfold upd. now rewrite Nat.eqb_refl. Qed.

Lemma upd_other (f : nat -> pc) (i j : nat) (p : pc) :
  j <> i -> upd f i p j = f j.
Proof. intros Hne. unfold upd. now destruct (Nat.eqb_spec j i). Qed.

Lemma coherent_init (t : StdioTransport) : coherent n (init t).
Proof. split; cbn; intros; discriminate. Qed.

Ltac at_caller j i :=
  unfold upd; destruct (Nat.eqb_spec j i) as [->|Hji].

Lemma cmd_Start_started (t t' : StdioTransport) (o : option error) :
  cmd_Start t = (o, t') -> started t' = started t.
Proof. unfold cmd_Start. destruct (spawn_err t); intros [= <- <-]; reflexivity. Qed.

Lemma Write_started (t t' : StdioTransport) (p : string) (o : option error) :
  Write t p = (o, t') -> started t' = started t.
Proof. unfold Write. destruct (stdin_closed t); intros [= <- <-]; reflexivity. Qed.

Ltac split_step Hs :=
  repeat match type of Hs with
         | context [if ?b then _ else _] => destruct b eqn:?
         | context [match ?x with _ => _ end] => destruct x eqn:?
         end;
  try discriminate Hs; injection Hs as <-.

Lemma coherent_step (s s' : state) :
  coherent n s -> step calls n s s' -> coherent n s'.
Proof.
  intros [H1 H2 H3 H4 H5] (i & Hi & Hs).
  unfold step_of in Hs.
  destruct (pcs s i) eqn:Hp; split_step Hs.
  all: split; cbn [tr mu once pcs goto with_tr with_mu with_once consumed];
    intros j Hj;
    (pose proof (H1 j) as H1j; pose proof (H2 j) as H2j;
     pose proof (H3 j) as H3j; pose proof (H4 j) as H4j;
     pose proof (H5 j) as H5j;
     pose proof (H1 i) as H1i; pose proof (H2 i) as H2i;
     pose proof (H3 i) as H3i; pose proof (H4 i) as H4i;
     pose proof (H5 i) as H5i).
  all: revert Hj; at_caller j i; intros Hj.
  all: rewrite ?Hp in *; cbn [in_flight in_once after_unlock] in *.
  all: try (unfold after_unlock in *; destruct f; try destruct (rres r); cbn in * ).
  all: repeat match goal with
              | Hc : cmd_Start _ = _ |- _ =>
                  apply cmd_Start_started in Hc; try rewrite Hc
              | Hw : Write _ _ = _ |- _ =>
                  apply Write_started in Hw; try rewrite Hw
              end.
  all: try solve [intuition (try congruence; try discriminate; auto)].
Qed.

Lemma step_of_in_flight (s : state) (i : nat) :
  in_flight (pcs s i) = true -> exists s', step_of calls s i = Some s'.
Proof.
  unfold step_of. destruct (pcs s i); cbn; try discriminate; intros _;
    repeat match goal with
           | |- context [match ?x with _ => _ end] => destruct x
           end; eauto.
Qed.

(** No deadlock: while a caller has not returned, some caller can step. *)
Lemma progress (s : state) (i : nat) :
  coherent n s -> (i < n)%nat -> (forall o, pcs s i <> Done o) ->
  exists s', step calls n s s'.
Proof.
  intros [H1 H2 H3 H4 H5] Hi Hnd.
  destruct (mu s) as [j|] eqn:Hmu.
  - destruct (H2 j eq_refl) as [Hf Hj].
    destruct (step_of_in_flight s j Hf) as [s' Hs]. exists s', j. auto.
  - destruct (once s) as [j|] eqn:Ho.
    + destruct (H4 j eq_refl) as [Hin Hj].
      assert (Hnf : in_flight (pcs s j) = false).
      { destruct (in_flight (pcs s j)) eqn:Hf; [|reflexivity].
        apply H1 in Hf. congruence. }
      assert (exists s', step_of calls s j = Some s') as [s' Hs].
      { pose proof (H5 j) as H5j. unfold step_of.
        destruct (pcs s j) as [[]| | | | | |[]|[]|[] ?|[] ?|[] ?| | | | | |];
          cbn in Hin, Hnf; try discriminate;
          rewrite ?Hmu, ?H5j by reflexivity;
          repeat match goal with
                 | |- context [match ?x with _ => _ end] => destruct x
                 end; eauto. }
      exists s', j. auto.
    + assert (exists s', step_of calls s i = Some s') as [s' Hs].
      { pose proof (H1 i) as H1i. pose proof (H3 i) as H3i. unfold step_of.
        destruct (pcs s i) as [[]| | | | | |[]|[]|[] ?|[] ?|[] ?| | | | | |o];
          cbn in H1i, H3i;
          try (specialize (H1i eq_refl); congruence);
          try (specialize (H3i eq_refl); congruence);
          try (exfalso; apply (Hnd o); reflexivity);
          rewrite ?Hmu, ?Ho;
          repeat match goal with
                 | |- context [match ?x with _ => _ end] => destruct x
                 end; eauto. }
      exists s', i. auto.
Qed.

Lemma read_line_some (id : Z) (line : string) (r : result RawMessage) :
  read_line id line = Some r ->
  exists resp,
    json_Unmarshal line = Some resp /\ ID resp = id /\
    r = match Error resp with
        | Some e => Err (RPCError e)
        | None => Ok (Result resp)
        end.
Proof.
  unfold read_line, answer.
  destruct (json_Unmarshal line) as [resp|]; [|discriminate].
  destruct (_ && _ && _); [discriminate|].
  destruct (Z.eqb_spec (ID resp) id) as [He|]; [|discriminate].
  intros Hr. exists resp. destruct (Error resp); injection Hr as <-; auto.
Qed.

Lemma skipn_cons_nth {A : Type} (c : nat) (l : list A) (x : A)
  (rest : list A) :
  skipn c l = x :: rest -> nth_error l c = Some x /\ skipn (S c) l = rest.
Proof.
  revert l. induction c as [|c IH]; intros [|y l]; cbn; try discriminate.
  - intros [= -> ->]. auto.
  - intros Hs. apply IH in Hs. exact Hs.
Qed.

Lemma sound_later (out : list string) (c : nat) (r : reply) :
  sound out c r -> sound out (S c) r.
Proof.
  intros [Hv Hp]. split; [exact Hv|].
  intros pos Hpos. destruct (Hp pos Hpos) as [Hlt Hl]. split; [lia | exact Hl].
Qed.

Lemma cmd_Start_stdout (t t' : StdioTransport) (o : option error) :
  cmd_Start t = (o, t') -> stdout t' = stdout t \/ stdout t' = [].
Proof.
  unfold cmd_Start. destruct (spawn_err t); intros [= <- <-]; cbn; auto.
Qed.

Lemma Write_stdout (t t' : StdioTransport) (p : string) (o : option error) :
  Write t p = (o, t') -> stdout t' = stdout t.
Proof. unfold Write. destruct (stdin_closed t); intros [= <- <-]; reflexivity. Qed.

Lemma sound_failed (out : list string) (c : nat) (id : Z) (e : error) :
  sound out c (mkReply id None (Err e)).
Proof. split; cbn; intros; discriminate. Qed.

Lemma receipts_init (t : StdioTransport) : receipts (stdout t) (init t).
Proof. split; cbn; [now left | discriminate]. Qed.

Lemma receipts_recv (out : list string) (s : state) (i : nat)
  (f : frame) (id : Z) (line : string) (rest : list string) (p : pc) :
  receipts out s ->
  stdout (tr s) = line :: rest ->
  (p = Recv f id \/
   exists r, read_line id line = Some r /\
             p = Unlock f (mkReply id (Some (consumed s)) r)) ->
  receipts out
    (goto (mkState (set_stdout (tr s) rest) (mu s) (once s) (pcs s)
             (S (consumed s))) i p).
Proof.
  intros [Ho Hr] Hl Hp.
  destruct Ho as [Ho|Ho]; [|congruence].
  rewrite Hl in Ho. symmetry in Ho.
  apply skipn_cons_nth in Ho. destruct Ho as [Hnth Ho].
  split; cbn [tr pcs goto consumed set_stdout stdout]; [now left|].
  intros j r' Hj. revert Hj. at_caller j i; intros Hj.
  - destruct Hp as [->|(r & Hrl & ->)]; [discriminate|].
    cbn in Hj. injection Hj as <-.
    destruct (read_line_some _ _ _ Hrl) as (resp & Hu & Hid & ->).
    split; cbn; [intros; discriminate|].
    intros pos [= <-]. split; [lia|]. exists line, resp. auto.
  - apply sound_later. apply (Hr j). exact Hj.
Qed.

Lemma receipts_step (out : list string) (s s' : state) :
  receipts out s -> step calls n s s' -> receipts out s'.
Proof.
  intros Hrec (i & Hi & Hs).
  unfold step_of in Hs.
  destruct (pcs s i) as [| | | | | | | | |f id| | | | | | |] eqn:Hp.
  10: { destruct (stdout (tr s)) as [|line rest] eqn:Hl.
        - injection Hs as <-. destruct Hrec as [Ho Hr].
          split; cbn [tr pcs goto consumed]; [exact Ho|].
          intros j r' Hj. revert Hj. at_caller j i; intros Hj.
          + cbn in Hj. injection Hj as <-. apply sound_failed.
          + apply (Hr j). exact Hj.
        - destruct (read_line id line) as [r|] eqn:Hrl; injection Hs as <-;
            apply (receipts_recv out s i f id line rest); eauto. }
  all: destruct Hrec as [Ho Hr]; split_step Hs.
  all: split; cbn [tr mu once pcs goto with_tr with_mu with_once consumed].
  all: repeat match goal with
              | Hc : cmd_Start _ = _ |- _ => apply cmd_Start_stdout in Hc
              | Hw : Write _ _ = _ |- _ => apply Write_stdout in Hw
              end.
  all: try solve [cbn; intuition congruence].
  all: try (intros j r' Hj; revert Hj; at_caller j i; intros Hj;
            try solve [apply (Hr j); exact Hj];
            try solve [cbn in Hj; discriminate];
            try solve [cbn in Hj; injection Hj as <-; apply sound_failed]).
  (* the outer call returns what its round trip ended with *)
  unfold after_unlock in Hj.
  match goal with Hp : pcs s i = Unlock ?f ?r |- _ => destruct f end.
  - cbn in Hj. injection Hj as <-. apply (Hr i). now rewrite Hp.
  - destruct (rres r); cbn in Hj; discriminate.
Qed.

(** A step of a caller leaves the other callers where they are. *)
Lemma step_of_others (s s' : state) (i j : nat) :
  step_of calls s i = Some s' -> j <> i -> pcs s' j = pcs s j.
Proof.
  intros Hs Hji. unfold step_of in Hs.
  destruct (pcs s i); split_step Hs; cbn; now apply upd_other.
Qed.

(** The reply a caller holds after its step is the one it held, or a new
    one: without a line, or answered by the line just read. *)
Lemma step_of_reply (s s' : state) (i : nat) (r : reply) :
  step_of calls s i = Some s' ->
  holds_reply (pcs s' i) = Some r ->
  holds_reply (pcs s i) = Some r \/ rpos r = None \/
  rpos r = Some (consumed s).
Proof.
  intros Hs. unfold step_of in Hs.
  destruct (pcs s i) as [| | | | | | | | | |f r0| | | | | |].
  11: { injection Hs as <-. cbn [pcs goto with_mu]. rewrite upd_same.
        unfold after_unlock. destruct f; [|destruct (rres r0)]; cbn;
          try discriminate.
        intros [= <-]. auto. }
  all: split_step Hs; cbn [pcs goto]; rewrite upd_same; cbn;
    try discriminate; intros [= <-]; cbn; auto.
Qed.

Lemma step_of_consumed (s s' : state) (i : nat) :
  step_of calls s i = Some s' -> (consumed s <= consumed s')%nat.
Proof.
  intros Hs. unfold step_of in Hs.
  destruct (pcs s i); split_step Hs; cbn; lia.
Qed.

Lemma distinct_init (t : StdioTransport) : distinct (init t).
Proof. intros i j r r' pos Hi. discriminate. Qed.

Lemma distinct_step (out : list string) (s s' : state) :
  receipts out s -> distinct s -> step calls n s s' -> distinct s'.
Proof.
  intros [_ Hr] Hd (k & Hk & Hs) i j r r' pos Hi Hj Hp Hp'.
  destruct (Nat.eq_dec i k) as [->|Hik], (Nat.eq_dec j k) as [->|Hjk];
    [reflexivity | | |].
  - rewrite (step_of_others s s' k j Hs Hjk) in Hj.
    destruct (step_of_reply s s' k r Hs Hi) as [Ho|[Ho|Ho]].
    + exact (Hd k j r r' pos Ho Hj Hp Hp').
    + congruence.
    + destruct (Hr j r' Hj) as [_ Hs']. destruct (Hs' pos Hp') as [Hlt _].
      assert (pos = consumed s) by congruence. lia.
  - rewrite (step_of_others s s' k i Hs Hik) in Hi.
    destruct (step_of_reply s s' k r' Hs Hj) as [Ho|[Ho|Ho]].
    + exact (Hd i k r r' pos Hi Ho Hp Hp').
    + congruence.
    + destruct (Hr i r Hi) as [_ Hs']. destruct (Hs' pos Hp) as [Hlt _].
      assert (pos = consumed s) by congruence. lia.
  - rewrite (step_of_others s s' k i Hs Hik) in Hi.
    rewrite (step_of_others s s' k j Hs Hjk) in Hj.
    exact (Hd i j r r' pos Hi Hj Hp Hp').
Qed.


Lemma sum_below_ext (k : nat) (g g' : nat -> nat) :
  (forall i, (i < k)%nat -> g i = g' i) -> sum_below k g = sum_below k g'.
Proof.
  induction k as [|k IH]; intros He; cbn; [reflexivity|].
  rewrite (He k) by lia. rewrite IH; [reflexivity|].
  intros i Hi. apply He. lia.
Qed.

Lemma sum_below_upd (g : pc -> nat) (k i : nat) (f : nat -> pc) (p : pc) :
  (i < k)%nat ->
  (sum_below k (fun j => g (upd f i p j)) + g (f i)
   = sum_below k (fun j => g (f j)) + g p)%nat.
Proof.
  induction k as [|k IH]; intros Hi; [lia|]. cbn [sum_below].
  destruct (Nat.eq_dec i k) as [->|Hne].
  - rewrite upd_same.
    rewrite (sum_below_ext k (fun j => g (upd f k p j))
               (fun j => g (f j))).
    + lia.
    + intros j Hj. rewrite upd_other by lia. reflexivity.
  - rewrite upd_other by lia.
    specialize (IH ltac:(lia)). lia.
Qed.

Lemma cmd_Start_stdout_le (t t' : StdioTransport) (o : option error) :
  cmd_Start t = (o, t') ->
  (List.length (stdout t') <= List.length (stdout t))%nat.
Proof.
  unfold cmd_Start. destruct (spawn_err t); intros [= <- <-]; cbn; lia.
Qed.

(** Every step makes the measure n smaller. *)
Lemma step_measure (s s' : state) :
  step calls n s s' -> (measure n s' < measure n s)%nat.
Proof.
  intros (i & Hi & Hs). unfold measure, step_of in *.
  pose proof (sum_below_upd weight n i (pcs s)) as Hu.
  destruct (pcs s i) as [[]| | | | | |[]|[]|[] ?|[] ?|[] r| | | | | |];
    split_step Hs;
    cbn [tr mu once pcs goto with_tr with_mu with_once consumed];
    repeat match goal with
           | Hc : cmd_Start _ = _ |- _ => apply cmd_Start_stdout_le in Hc
           | Hw : Write _ _ = _ |- _ => apply Write_stdout in Hw; rewrite Hw
           end;
    try match goal with
        | |- context [upd (pcs s) i ?p] => specialize (Hu p Hi)
        end;
    cbn [weight after_unlock set_started set_reqID set_stdout set_startOnce
         stdout List.length] in *;
    try lia.
  all: try (unfold after_unlock in *; destruct (rres r); cbn [weight] in *; lia).
  all: match goal with Hl : stdout _ = [] |- _ => rewrite Hl end;
    cbn [List.length]; lia.
Qed.

Lemma steps_bound (k : nat) (s s' : state) :
  steps calls n k s s' -> (k + measure n s' <= measure n s)%nat.
Proof.
  induction 1 as [s|k s s' s'' Hs _ IH]; [lia|].
  apply step_measure in Hs. lia.
Qed.

Lemma steps_trans (k k' : nat) (s s' s'' : state) :
  steps calls n k s s' -> steps calls n k' s' s'' -> steps calls n (k + k') s s''.
Proof.
  induction 1 as [s|k s s1 s' Hs _ IH]; intros H2; [exact H2|].
  cbn. eapply steps_S; [exact Hs | exact (IH H2)].
Qed.

Lemma steps_one (s s' : state) (i : nat) :
  (i < n)%nat -> step_of calls s i = Some s' -> steps calls n 1 s s'.
Proof.
  intros Hi Hs. eapply steps_S; [exists i; eauto | constructor].
Qed.

Lemma alone_refl (i : nat) (s : state) : alone i s s.
Proof. repeat split. Qed.

Lemma alone_trans (i : nat) (s s' s'' : state) :
  alone i s s' -> alone i s' s'' -> alone i s s''.
Proof.
  intros (Hm & Ho & Hp) (Hm' & Ho' & Hp'). repeat split; try congruence.
  intros j Hj. rewrite (Hp' j Hj). exact (Hp j Hj).
Qed.

(** The caller that reads, left alone, does what the loop of
    [read_response] does. *)
Lemma recv_alone (i : nat) (f : frame) (id : Z) (lines : list string) :
  (i < n)%nat ->
  forall s, pcs s i = Recv f id -> stdout (tr s) = lines ->
  exists k s' pos,
    steps calls n k s s' /\ alone i s s' /\
    tr s' = set_stdout (tr s) (snd (read_response id lines)) /\
    pcs s' i = Unlock f (mkReply id pos (fst (read_response id lines))).
Proof.
  intros Hi. induction lines as [|line rest IH]; intros s Hp Hl.
  - eexists 1%nat, _, None. split; [apply (steps_one _ _ i Hi)|].
    + unfold step_of. rewrite Hp, Hl. reflexivity.
    + cbn [read_response fst snd tr pcs goto mu once].
      split; [|split]; [| |apply upd_same].
      * repeat split. intros j Hj. now apply upd_other.
      * destruct (tr s). cbn in Hl. subst. reflexivity.
  - cbn [read_response]. destruct (read_line id line) as [r|] eqn:Hr.
    + eexists 1%nat, _, (Some (consumed s)).
      split; [apply (steps_one _ _ i Hi)|].
      * unfold step_of. rewrite Hp, Hl, Hr. reflexivity.
      * cbn [fst snd tr pcs goto mu once].
        split; [|split]; [|reflexivity|apply upd_same].
        repeat split. intros j Hj. now apply upd_other.
    + destruct (IH (goto (mkState (set_stdout (tr s) rest) (mu s) (once s)
                            (pcs s) (S (consumed s))) i (Recv f id)))
        as (k & s' & pos & Hk & Ha & Ht & Hp').
      * cbn. apply upd_same.
      * reflexivity.
      * exists (1 + k)%nat, s', pos.
        split; [|split; [|split]].
        -- eapply steps_trans; [apply (steps_one _ _ i Hi)|exact Hk].
           unfold step_of. rewrite Hp, Hl, Hr. reflexivity.
        -- eapply alone_trans; [|exact Ha].
           repeat split. intros j Hj. cbn. now apply upd_other.
        -- rewrite Ht. reflexivity.
        -- exact Hp'.
Qed.


(** A caller that takes [t.mu] and is left alone until it has unlocked does
    what [Call_locked] does to the transport, and ends with its value. *)
Lemma locked_alone (i : nat) (f : frame) (s : state) :
  (i < n)%nat -> pcs s i = WaitLock f -> mu s = None ->
  exists k s' r,
    steps calls n k s s' /\ mu s' = None /\ once s' = once s /\
    (forall j, j <> i -> pcs s' j = pcs s j) /\
    tr s' = snd (Call_locked (tr s) (fst (request_of calls i f))
                   (snd (request_of calls i f))) /\
    pcs s' i = after_unlock f r /\
    rres r = fst (Call_locked (tr s) (fst (request_of calls i f))
                    (snd (request_of calls i f))).
Proof.
  intros Hi Hp Hmu.
  set (id := wrap64 (reqID (tr s) + 1)).
  set (s1 := goto (with_mu s (Some i)) i (Alloc f)).
  set (s2 := goto (with_tr s1 (set_reqID (tr s) id)) i (Send f id)).
  assert (H12 : steps calls n 2 s s2).
  { apply (steps_trans 1 1 s s1 s2); apply (steps_one _ _ i Hi).
    - unfold step_of. now rewrite Hp, Hmu.
    - unfold step_of. subst s1. cbn [pcs goto]. now rewrite upd_same. }
  assert (Hp2 : pcs s2 i = Send f id) by apply upd_same.
  unfold Call_locked. fold id.
  destruct (request_of calls i f) as [method params] eqn:Hreq.
  cbn [fst snd].
  (* the last step: the deferred Unlock *)
  assert (Hlast : forall s3 r,
             pcs s3 i = Unlock f r ->
             steps calls n 1 s3 (goto (with_mu s3 None) i (after_unlock f r))).
  { intros s3 r H3. apply (steps_one _ _ i Hi). unfold step_of.
    now rewrite H3. }
  destruct (json_Marshal (mkRequest "2.0" id method params))
    as [data|e] eqn:Hm.
  - destruct (Write (set_reqID (tr s) id) (data ++ nl)) as [[e|] t'] eqn:Hw.
    + set (r := mkReply id None
                  (Err (Errorf "failed to write request: " e ""))).
      set (s3 := goto (with_tr s2 t') i (Unlock f r)).
      exists 4%nat, (goto (with_mu s3 None) i (after_unlock f r)), r.
      split.
      { apply (steps_trans 2 2 s s2 _ H12).
        apply (steps_trans 1 1 s2 s3); [apply (steps_one _ _ i Hi)|].
        - unfold step_of. rewrite Hp2, Hreq. cbn [tr s2 with_tr goto s1].
          rewrite Hm, Hw. reflexivity.
        - apply Hlast. apply upd_same. }
      cbn. repeat split; try reflexivity; try apply upd_same.
      intros j Hj. rewrite !upd_other by exact Hj. reflexivity.
    + set (s3 := goto (with_tr s2 t') i (Recv f id)).
      destruct (recv_alone i f id (stdout t') Hi s3 (upd_same _ _ _)
                  eq_refl) as (k & s4 & pos & Hk & Ha & Ht & Hp4).
      destruct (read_response id (stdout t')) as [res rest] eqn:Hrr.
      cbn [fst snd] in *.
      exists (2 + (1 + k) + 1)%nat,
        (goto (with_mu s4 None) i
           (after_unlock f (mkReply id pos res))),
        (mkReply id pos res).
      split.
      { apply (steps_trans (2 + (1 + k)) 1 s s4); [|apply Hlast; exact Hp4].
        apply (steps_trans 2 (1 + k) s s2 _ H12).
        apply (steps_trans 1 k s2 s3 _); [apply (steps_one _ _ i Hi)|exact Hk].
        unfold step_of. rewrite Hp2, Hreq. cbn [tr s2 with_tr goto s1].
        rewrite Hm, Hw. reflexivity. }
      destruct Ha as (Hmu4 & Ho4 & Hoth).
      cbn [tr mu once pcs goto with_mu].
      repeat split; try reflexivity; try apply upd_same.
      * rewrite Ho4. reflexivity.
      * intros j Hj. rewrite upd_other by exact Hj. rewrite (Hoth j Hj).
        cbn. rewrite !upd_other by exact Hj. reflexivity.
      * rewrite Ht. reflexivity.
  - set (r := mkReply id None
                (Err (Errorf "failed to marshal request: " e ""))).
    set (s3 := goto s2 i (Unlock f r)).
    exists 4%nat, (goto (with_mu s3 None) i (after_unlock f r)), r.
    split.
    { apply (steps_trans 2 2 s s2 _ H12).
      apply (steps_trans 1 1 s2 s3); [apply (steps_one _ _ i Hi)|].
      - unfold step_of. rewrite Hp2, Hreq. cbn [tr s2 with_tr goto s1].
        rewrite Hm. reflexivity.
      - apply Hlast. apply upd_same. }
    cbn. repeat split; try reflexivity; try apply upd_same.
    intros j Hj. rewrite !upd_other by exact Hj. reflexivity.
Qed.


(** One step of caller [i], then the rest of the run. *)
Lemma steps_cons (i k : nat) (s s1 s' : state) :
  (i < n)%nat -> step_of calls s i = Some s1 -> steps calls n k s1 s' ->
  steps calls n (S k) s s'.
Proof. intros Hi Hs Hk. eapply steps_S; [exists i; eauto | exact Hk]. Qed.

(** The end of Do and of Start (line 120), for the caller that ran the
    function. *)
Lemma once_exit_alone (i : nat) (s : state) (startErr : option error) :
  (i < n)%nat -> pcs s i = OnceDone startErr ->
  exists s',
    steps calls n 2 s s' /\ mu s' = mu s /\ once s' = None /\
    (forall j, j <> i -> pcs s' j = pcs s j) /\
    tr s' = set_startOnce (tr s) true /\
    pcs s' i = match startErr with
               | Some e => Done (NotStarted e)
               | None => WaitLock Outer
               end.
Proof.
  intros Hi Hp. eexists. split.
  - eapply (steps_cons i); [exact Hi | unfold step_of; rewrite Hp; reflexivity|].
    eapply (steps_cons i); [exact Hi | |apply steps_O].
    unfold step_of. cbn [pcs goto]. rewrite upd_same. reflexivity.
  - cbn. repeat split; try apply upd_same.
    intros j Hj. rewrite !upd_other by exact Hj. reflexivity.
Qed.

(** The first Start, for a caller left alone: it does what [Start] does. *)
Ltac open_states :=
  repeat match goal with x := _ : state |- _ => subst x end;
  cbn [pcs tr mu once goto with_tr with_mu with_once];
  rewrite ?upd_same.

Lemma Start_alone (i : nat) (s : state) :
  (i < n)%nat -> pcs s i = OnceEnter -> mu s = None -> once s = None ->
  exists k s' startErr,
    steps calls n k s s' /\ mu s' = None /\ once s' = None /\
    (forall j, j <> i -> pcs s' j = pcs s j) /\
    Start Call (tr s) = Some (startErr, tr s') /\
    pcs s' i = match startErr with
               | Some e => Done (NotStarted e)
               | None => WaitLock Outer
               end.
Proof.
  intros Hi Hp Hmu Hon. unfold Start.
  destruct (startOnce (tr s)) eqn:Hso.
  { (* the Once has fired: Start returns nil *)
    eexists 1%nat, _, None. split.
    - eapply (steps_cons i); [exact Hi | |apply steps_O].
      unfold step_of. rewrite Hp, Hso. reflexivity.
    - cbn. repeat split; auto; try apply upd_same.
      intros j Hj. now apply upd_other. }
  set (s1 := goto s i OnceWait).
  set (s2 := goto (with_once s1 (Some i)) i OnceLocked).
  set (s3 := goto s2 i Spawn).
  assert (H03 : steps calls n 3 s s3).
  { eapply (steps_cons i); [exact Hi | unfold step_of; rewrite Hp, Hso; reflexivity|].
    eapply (steps_cons i); [exact Hi | |].
    { unfold step_of. open_states. rewrite Hon. reflexivity. }
    eapply (steps_cons i); [exact Hi | |apply steps_O].
    unfold step_of. open_states. rewrite Hso. reflexivity. }
  destruct (cmd_Start (tr s)) as [[e|] t1] eqn:Hc.
  - (* the process cannot be spawned *)
    set (s4 := goto (with_tr s3 t1) i
                 (OnceDone (Some (Errorf "failed to start MCP server: " e "")))).
    destruct (once_exit_alone i s4 _ Hi (upd_same _ _ _))
      as (s' & Hk & Hm' & Ho' & Hoth & Ht & Hp').
    exists 6%nat, s', (Some (Errorf "failed to start MCP server: " e "")).
    split.
    { apply (steps_trans 3 3 s s3 _ H03).
      eapply (steps_cons i); [exact Hi | |exact Hk].
      unfold step_of. open_states. rewrite Hc. reflexivity. }
    refine (conj _ (conj Ho' (conj _ (conj _ Hp')))).
    + rewrite Hm'. exact Hmu.
    + intros j Hj. rewrite (Hoth j Hj). cbn. rewrite !upd_other by exact Hj.
      reflexivity.
    + rewrite Ht. reflexivity.
  - (* spawned: started is set, then the handshake *)
    set (t2 := set_started t1 true).
    set (s4 := goto (with_tr s3 t1) i SetStarted).
    set (s5 := goto (with_tr s4 t2) i (Entry Inner)).
    set (s6 := goto s5 i (WaitLock Inner)).
    assert (H06 : steps calls n 6 s s6).
    { apply (steps_trans 3 3 s s3 _ H03).
      eapply (steps_cons i); [exact Hi | |].
      { unfold step_of. open_states. rewrite Hc. reflexivity. }
      eapply (steps_cons i); [exact Hi | |].
      { unfold step_of. open_states. reflexivity. }
      eapply (steps_cons i); [exact Hi | |apply steps_O].
      unfold step_of. open_states. reflexivity. }
    destruct (locked_alone i Inner s6 Hi (upd_same _ _ _) Hmu)
      as (k & s7 & r & Hk & Hm7 & Ho7 & Hoth7 & Ht7 & Hp7 & Hr7).
    cbn [request_of fst snd] in Ht7, Hr7.
    change (tr s6) with t2 in Ht7, Hr7.
    unfold initialize, Call. cbn [Call_rec]. fold t2.
    change (started t2) with true. cbn [negb].
    destruct (Call_locked t2 "initialize" initParams) as [res t3].
    cbn [fst snd] in Ht7, Hr7. unfold after_unlock in Hp7.
    rewrite Hr7 in Hp7. destruct res as [v|e].
    + (* the handshake call returned: the notification *)
      set (data := json_Marshal_notification
                     (mkNotification "2.0" "notifications/initialized")).
      set (s8 := goto (with_mu s7 (Some i)) i NotifWrite).
      destruct (Write t3 (data ++ nl)) as [err t4] eqn:Hw.
      set (s9 := goto (with_tr s8 t4) i (NotifUnlock err)).
      set (startErr :=
             match err with
             | Some e =>
                 Some (Errorf "failed to initialize MCP connection: " e "")
             | None => None
             end).
      set (s10 := goto (with_mu s9 None) i (OnceDone startErr)).
      destruct (once_exit_alone i s10 _ Hi (upd_same _ _ _))
        as (s' & Hk' & Hm' & Ho' & Hoth & Ht & Hp').
      exists (6 + k + 3 + 2)%nat, s', startErr.
      split.
      { apply (steps_trans (6 + k + 3) 2 s s10 _); [|exact Hk'].
        apply (steps_trans (6 + k) 3 s s7 _).
        { apply (steps_trans 6 k s s6 _ H06 Hk). }
        eapply (steps_cons i); [exact Hi | |].
        { unfold step_of. rewrite Hp7, Hm7. reflexivity. }
        eapply (steps_cons i); [exact Hi | |].
        { unfold step_of. open_states. rewrite Ht7. fold data. rewrite Hw.
          reflexivity. }
        eapply (steps_cons i); [exact Hi | |apply steps_O].
        unfold step_of. open_states. reflexivity. }
      refine (conj _ (conj Ho' (conj _ (conj _ Hp')))).
      * rewrite Hm'. reflexivity.
      * intros j Hj. rewrite (Hoth j Hj). cbn. rewrite !upd_other by exact Hj.
        rewrite (Hoth7 j Hj). cbn. rewrite !upd_other by exact Hj.
        reflexivity.
      * rewrite Ht. cbn. subst startErr. destruct err; reflexivity.
    + (* the handshake call failed *)
      destruct (once_exit_alone i s7 _ Hi Hp7)
        as (s' & Hk' & Hm' & Ho' & Hoth & Ht & Hp').
      exists (6 + k + 2)%nat, s',
        (Some (Errorf "failed to initialize MCP connection: "
                 (Errorf "initialize failed: " e "") "")).
      split.
      { apply (steps_trans (6 + k) 2 s s7 _); [|exact Hk'].
        apply (steps_trans 6 k s s6 _ H06 Hk). }
      refine (conj _ (conj Ho' (conj _ (conj _ Hp')))).
      * congruence.
      * intros j Hj. rewrite (Hoth j Hj), (Hoth7 j Hj). cbn.
        rewrite !upd_other by exact Hj. reflexivity.
      * rewrite Ht, Ht7. reflexivity.
Qed.


(** A caller left alone from the entry of Call to its return: it ends with
    what [Call] returns, and leaves the transport as [Call] leaves it. *)
Lemma Call_alone (i : nat) (s : state) :
  (i < n)%nat -> pcs s i = Entry Outer -> mu s = None -> once s = None ->
  exists k s' o,
    steps calls n k s s' /\ mu s' = None /\ once s' = None /\
    (forall j, j <> i -> pcs s' j = pcs s j) /\
    pcs s' i = Done o /\
    Call (tr s) (fst (calls i)) (snd (calls i)) = Some (result_of o, tr s').
Proof.
  intros Hi Hp Hmu Hon. rewrite Call_unfold.
  destruct (started (tr s)) eqn:Hst; cbn [negb].
  - set (s1 := goto s i (WaitLock Outer)).
    destruct (locked_alone i Outer s1 Hi (upd_same _ _ _) Hmu)
      as (k & s' & r & Hk & Hm' & Ho' & Hoth & Ht & Hp' & Hr).
    cbn [request_of] in Ht, Hr. change (tr s1) with (tr s) in Ht, Hr.
    exists (S k), s', (Answered r).
    refine (conj _ (conj Hm' (conj _ (conj _ (conj Hp' _))))).
    + eapply (steps_cons i); [exact Hi | |exact Hk].
      unfold step_of. rewrite Hp, Hst. reflexivity.
    + rewrite Ho'. exact Hon.
    + intros j Hj. rewrite (Hoth j Hj). cbn. now apply upd_other.
    + cbn [result_of]. rewrite Hr, Ht.
      now destruct (Call_locked (tr s) (fst (calls i)) (snd (calls i))).
  - set (s1 := goto s i OnceEnter).
    destruct (Start_alone i s1 Hi (upd_same _ _ _) Hmu Hon)
      as (k & s2 & startErr & Hk & Hm2 & Ho2 & Hoth2 & Hst2 & Hp2).
    change (tr s1) with (tr s) in Hst2.
    rewrite Hst2.
    assert (H02 : steps calls n (S k) s s2).
    { eapply (steps_cons i); [exact Hi | |exact Hk].
      unfold step_of. rewrite Hp, Hst. reflexivity. }
    destruct startErr as [e|].
    + exists (S k), s2, (NotStarted e).
      refine (conj H02 (conj Hm2 (conj Ho2 (conj _ (conj Hp2 eq_refl))))).
      intros j Hj. rewrite (Hoth2 j Hj). cbn. now apply upd_other.
    + destruct (locked_alone i Outer s2 Hi Hp2 Hm2)
        as (k' & s' & r & Hk' & Hm' & Ho' & Hoth & Ht & Hp' & Hr).
      cbn [request_of] in Ht, Hr.
      exists (S k + k')%nat, s', (Answered r).
      refine (conj _ (conj Hm' (conj _ (conj _ (conj Hp' _))))).
      * exact (steps_trans _ _ _ _ _ H02 Hk').
      * rewrite Ho'. exact Ho2.
      * intros j Hj. rewrite (Hoth j Hj), (Hoth2 j Hj). cbn.
        now apply upd_other.
      * cbn [result_of]. rewrite Hr, Ht.
        now destruct (Call_locked (tr s2) (fst (calls i)) (snd (calls i))).
Qed.


(** *** A child that answers every request *)
Section Responsive.
Variable noise : nat -> list string.
Variable line : nat -> string.
Variable resp : nat -> JSONRPCResponse.
Variable q : Z.
Hypothesis q_low : (- 2 ^ 63 <= q)%Z.
Hypothesis q_high : (q + Z.of_nat n < 2 ^ 63)%Z.
Hypothesis child_answers : forall k, (1 <= k <= n)%nat -> answers noise line resp q k.
Hypothesis marshals :
  forall i id, exists data,
    json_Marshal (mkRequest "2.0" id (fst (calls i)) (snd (calls i)))
    = Ok data.

Lemma read_line_passed (id : Z) (l : string) :
  passed_over id l -> read_line id l = None.
Proof.
  unfold read_line.
  intros [Hm | [(r & Hr & Hid & Hres & Herr) | (r & Hr & Hid)]].
  - unfold malformed in Hm. now rewrite Hm.
  - now rewrite Hr, Hid, Hres, Herr.
  - rewrite Hr. destruct (_ && _ && _); [reflexivity|].
    now destruct (Z.eqb_spec (ID r) id).
Qed.

Lemma read_line_answer (id : Z) (l : string) (r : JSONRPCResponse) :
  json_Unmarshal l = Some r -> ID r = id ->
  (Result r <> None \/ Error r <> None \/ id <> 0%Z) ->
  read_line id l = Some (answer r).
Proof.
  intros Hu Hid Hne. unfold read_line, answer. rewrite Hu, Hid, Z.eqb_refl.
  destruct (Z.eqb_spec id 0) as [E|E]; cbn [andb];
    destruct (Result r), (Error r); cbn [andb]; try reflexivity.
  destruct Hne as [Hn | [Hn | Hn]]; congruence.
Qed.

Lemma wrap64_small (z : Z) :
  (- 2 ^ 63 <= z < 2 ^ 63)%Z -> wrap64 z = z.
Proof.
  intros Hz. unfold wrap64.
  rewrite Z.mod_small by lia. lia.
Qed.

Lemma allocated_le_1 (p : pc) : (allocated p <= 1)%nat.
Proof. destruct p; cbn; lia. Qed.

Lemma sum_below_le (k : nat) (g : nat -> nat) :
  (forall i, g i <= 1)%nat -> (sum_below k g <= k)%nat.
Proof.
  intros Hg. induction k as [|k IH]; cbn; [lia|]. specialize (Hg k). lia.
Qed.

Lemma alloc_count_le (s : state) : (alloc_count n s <= n)%nat.
Proof. apply sum_below_le. intros i. apply allocated_le_1. Qed.

Lemma alloc_count_lt (s : state) (i : nat) :
  (i < n)%nat -> allocated (pcs s i) = 0%nat -> (alloc_count n s < n)%nat.
Proof.
  intros Hi Ha. unfold alloc_count.
  pose proof (sum_below_upd allocated n i (pcs s) (Done (NotStarted io_EOF)) Hi)
    as Hu.
  rewrite Ha in Hu. cbn [allocated] in Hu.
  pose proof (sum_below_le n
                (fun j => allocated (upd (pcs s) i
                                       (Done (NotStarted io_EOF)) j))
                (fun j => allocated_le_1 _)).
  lia.
Qed.

(** The count of allocations after caller [i] has moved to [p]. *)
Lemma alloc_count_goto (s s' : state) (i : nat) (p : pc) :
  (i < n)%nat -> pcs s' = upd (pcs s) i p ->
  (alloc_count n s' + allocated (pcs s i) = alloc_count n s + allocated p)%nat.
Proof.
  intros Hi Hp. unfold alloc_count. rewrite Hp.
  apply (sum_below_upd allocated n i (pcs s) p Hi).
Qed.

Lemma script_next (a : nat) :
  (a < n)%nat ->
  script noise line a (n - a) =
    (noise (S a) ++ line (S a) :: script noise line (S a) (n - S a))%list.
Proof.
  intros Ha. replace (n - a)%nat with (S (n - S a)) by lia. reflexivity.
Qed.

Lemma served_more (a a' : nat) (p : pc) :
  (a <= a')%nat -> in_flight p = false -> served resp q a p -> served resp q a' p.
Proof.
  intros Ha Hf. destruct p as [[]| | | | | |[]|[]|[] ?|[] ?|[] ?| | | | | |[]];
    cbn in *; try discriminate; auto.
  intros (k & Hk & Hr). exists k. split; [lia | exact Hr].
Qed.

(** Who is not the caller that steps, and is in flight, cannot be: the
    stepping caller holds [t.mu]. *)
Lemma not_in_flight (s : state) (i j : nat) :
  coherent n s -> in_flight (pcs s i) = true -> j <> i ->
  in_flight (pcs s j) = false.
Proof.
  intros Hc Hfi Hji. destruct (in_flight (pcs s j)) eqn:Hfj; [|reflexivity].
  apply (flight_holds n s Hc) in Hfi. apply (flight_holds n s Hc) in Hfj.
  congruence.
Qed.

Ltac serving_fields Ha :=
  split;
  [ | | rewrite Ha | unfold pending; rewrite Ha | intros j; rewrite Ha ];
  repeat match goal with x := _ : state |- _ => subst x end;
  repeat match goal with x := _ : StdioTransport |- _ => subst x end;
  cbn [tr mu pcs goto with_tr with_mu set_reqID set_stdin set_stdout
       started stdin_closed reqID stdout];
  rewrite ?upd_same.

Lemma serving_step (s s' : state) :
  coherent n s -> serving n noise line resp q s -> step calls n s s' ->
  serving n noise line resp q s'.
Proof.
  intros Hc [Hst Hop Hid Hpe Hsv] (i & Hi & Hs).
  pose proof (Hsv i) as Hsi. unfold step_of in Hs.
  destruct (pcs s i) as [[]| | | | | |[]|[]|[] id|[] id|[] r| | | | | |[r|e]]
    eqn:Hp; cbn [served] in Hsi; try contradiction; try discriminate Hs.
  - (* Entry *)
    rewrite Hst in Hs. injection Hs as <-.
    set (s1 := goto s i (WaitLock Outer)).
    assert (Ha : alloc_count n s1 = alloc_count n s).
    { pose proof (alloc_count_goto s s1 i (WaitLock Outer) Hi eq_refl) as Hg.
      rewrite Hp in Hg. cbn in Hg. lia. }
    serving_fields Ha; auto.
    + unfold pending in Hpe. cbv zeta in Hpe.
      destruct (mu s) as [h|] eqn:Hmu; [|exact Hpe].
      assert (Hh : h <> i).
      { intros ->. destruct (holder_flies n s Hc i Hmu) as [Hf _].
        rewrite Hp in Hf. discriminate. }
      rewrite (upd_other _ _ _ _ Hh). exact Hpe.
    + at_caller j i; [exact I | apply Hsv].
  - (* WaitLock *)
    destruct (mu s) as [h|] eqn:Hmu; [discriminate|]. injection Hs as <-.
    set (s1 := goto (with_mu s (Some i)) i (Alloc Outer)).
    assert (Ha : alloc_count n s1 = alloc_count n s).
    { pose proof (alloc_count_goto s s1 i (Alloc Outer) Hi eq_refl) as Hg.
      rewrite Hp in Hg. cbn in Hg. lia. }
    serving_fields Ha; auto.
    + unfold pending in Hpe. rewrite Hmu in Hpe. exact Hpe.
    + at_caller j i; [exact I | apply Hsv].
  - (* Alloc *)
    injection Hs as <-.
    set (id := wrap64 (reqID (tr s) + 1)).
    set (s1 := goto (with_tr s (set_reqID (tr s) id)) i (Send Outer id)).
    assert (Hmu : mu s = Some i).
    { apply (flight_holds n s Hc). now rewrite Hp. }
    assert (Ha : alloc_count n s1 = S (alloc_count n s)).
    { pose proof (alloc_count_goto s s1 i (Send Outer id) Hi eq_refl) as Hg.
      rewrite Hp in Hg. cbn in Hg. lia. }
    assert (Hlt : (alloc_count n s < n)%nat).
    { apply (alloc_count_lt s i Hi). now rewrite Hp. }
    assert (Hidv : id = (q + Z.of_nat (S (alloc_count n s)))%Z).
    { subst id. rewrite Hid. rewrite wrap64_small; lia. }
    serving_fields Ha; auto.
    + unfold pending in Hpe. rewrite Hmu in *. rewrite upd_same.
      rewrite Hp in Hpe. exists (alloc_count n s). auto.
    + at_caller j i; [exact Hidv|].
      apply (served_more (alloc_count n s)); [lia | |apply Hsv].
      apply (not_in_flight s i j Hc); [now rewrite Hp | exact Hji].
  - (* Send *)
    cbn [request_of] in Hs.
    destruct (calls i) as [method params] eqn:Hcall.
    destruct (marshals i id) as [data Hm]. rewrite Hcall in Hm.
    cbn [fst snd] in Hm. rewrite Hm in Hs.
    unfold Write in Hs. rewrite Hop in Hs. injection Hs as <-.
    set (t1 := set_stdin (tr s) (stdin (tr s) ++ [(data ++ nl)%string])).
    set (s1 := goto (with_tr s t1) i (Recv Outer id)).
    assert (Hmu : mu s = Some i).
    { apply (flight_holds n s Hc). now rewrite Hp. }
    assert (Ha : alloc_count n s1 = alloc_count n s).
    { pose proof (alloc_count_goto s s1 i (Recv Outer id) Hi eq_refl) as Hg.
      rewrite Hp in Hg. cbn in Hg. lia. }
    pose proof (alloc_count_le s) as Hle.
    serving_fields Ha; auto.
    + unfold pending in Hpe. rewrite Hmu in *. rewrite upd_same.
      rewrite Hp in Hpe. destruct Hpe as (a' & Ha' & Hout).
      assert (Hlt : (a' < n)%nat) by lia.
      rewrite (script_next a' Hlt) in Hout. rewrite <- Ha' in Hout.
      exists (noise (alloc_count n s)). split; [|exact Hout].
      rewrite Hsi. apply (child_answers (alloc_count n s)). lia.
    + at_caller j i; [exact Hsi | apply Hsv].
  - (* Recv *)
    assert (Hmu : mu s = Some i).
    { apply (flight_holds n s Hc). now rewrite Hp. }
    pose proof Hpe as Hpe'. unfold pending in Hpe'.
    rewrite Hmu, Hp in Hpe'. destruct Hpe' as (rest & Hrest & Hout).
    rewrite Hout in Hs.
    pose proof (alloc_count_le s) as Hle.
    assert (Hge : (1 <= alloc_count n s)%nat).
    { pose proof (alloc_count_goto s (goto s i (Entry Outer)) i (Entry Outer)
                    Hi eq_refl) as Hg.
      rewrite Hp in Hg. cbn in Hg. lia. }
    destruct (child_answers (alloc_count n s) ltac:(lia))
      as (_ & Hu & Hrid & Hne).
    destruct rest as [|l rest]; cbn [app] in Hs.
    + (* the response *)
      rewrite (read_line_answer id _ _ Hu) in Hs by congruence.
      injection Hs as <-.
      match goal with
      | |- serving n noise line resp q (goto ?s0 i ?p) => set (s1 := goto s0 i p)
      end.
      assert (Ha : alloc_count n s1 = alloc_count n s).
      { pose proof (alloc_count_goto s s1 i _ Hi eq_refl) as Hg.
        rewrite Hp in Hg. cbn in Hg. lia. }
      serving_fields Ha; auto.
      * rewrite Hmu, upd_same. reflexivity.
      * at_caller j i; [|apply Hsv].
        cbn [served rid rres]. exists (alloc_count n s).
        split; [lia|]. split; [exact Hsi | reflexivity].
    + (* a line to pass over *)
      rewrite (read_line_passed id l) in Hs by (now inversion Hrest).
      injection Hs as <-.
      match goal with
      | |- serving n noise line resp q (goto ?s0 i ?p) => set (s1 := goto s0 i p)
      end.
      assert (Ha : alloc_count n s1 = alloc_count n s).
      { pose proof (alloc_count_goto s s1 i _ Hi eq_refl) as Hg.
        rewrite Hp in Hg. cbn in Hg. lia. }
      serving_fields Ha; auto.
      * rewrite Hmu, upd_same. exists rest. split; [now inversion Hrest|].
        reflexivity.
      * at_caller j i; [exact Hsi | apply Hsv].
  - (* Unlock *)
    injection Hs as <-.
    assert (Hmu : mu s = Some i).
    { apply (flight_holds n s Hc). now rewrite Hp. }
    set (s1 := goto (with_mu s None) i (Done (Answered r))).
    assert (Ha : alloc_count n s1 = alloc_count n s).
    { pose proof (alloc_count_goto s s1 i _ Hi eq_refl) as Hg.
      rewrite Hp in Hg. cbn in Hg. lia. }
    serving_fields Ha; auto.
    + unfold pending in Hpe. rewrite Hmu, Hp in Hpe. exact Hpe.
    + at_caller j i; [exact Hsi | apply Hsv].
Qed.


Lemma sum_below_zero (k : nat) : sum_below k (fun _ => 0%nat) = 0%nat.
Proof. induction k as [|k IH]; cbn; [reflexivity | exact IH]. Qed.

Lemma serving_init (t : StdioTransport) :
  started t = true -> stdin_closed t = false -> reqID t = q ->
  stdout t = script noise line 0 n ->
  serving n noise line resp q (init t).
Proof.
  intros Hst Hop Hq Hout.
  assert (Ha : alloc_count n (init t) = 0%nat) by apply sum_below_zero.
  split; [exact Hst | exact Hop | | | ].
  - rewrite Ha. cbn. lia.
  - unfold pending. rewrite Ha. cbn. rewrite Nat.sub_0_r. exact Hout.
  - intros i. exact I.
Qed.

End Responsive.

Lemma reachable_coherent (t : StdioTransport) (s : state) :
  reachable calls n t s -> coherent n s.
Proof.
  induction 1 as [|s s' _ IH Hs]; [apply coherent_init|].
  exact (coherent_step s s' IH Hs).
Qed.

Lemma reachable_receipts (t : StdioTransport) (s : state) :
  reachable calls n t s -> receipts (stdout t) s.
Proof.
  induction 1 as [|s s' _ IH Hs]; [apply receipts_init|].
  exact (receipts_step (stdout t) s s' IH Hs).
Qed.

Lemma reachable_distinct (t : StdioTransport) (s : state) :
  reachable calls n t s -> distinct s.
Proof.
  induction 1 as [|s s' Hr IH Hs]; [apply distinct_init|].
  exact (distinct_step (stdout t) s s' (reachable_receipts t s Hr) IH Hs).
Qed.

Lemma reachable_serving (noise : nat -> list string) (line : nat -> string)
  (resp : nat -> JSONRPCResponse) (t : StdioTransport) (s : state) :
  responsive_child calls n noise line resp t ->
  reachable calls n t s -> serving n noise line resp (reqID t) s.
Proof.
  intros (Hst & Hop & Hlow & Hhigh & Hans & Hm & Hout).
  induction 1 as [|s s' Hr IH Hs].
  - now apply serving_init.
  - exact (serving_step noise line resp (reqID t) Hlow Hhigh Hans Hm s s'
             (reachable_coherent t s Hr) IH Hs).
Qed.

(** When no caller can step, every caller has returned. *)
Lemma terminal_all_returned (s : state) :
  coherent n s -> terminal calls n s -> all_returned n s.
Proof.
  intros Hc Ht i Hi.
  destruct (pcs s i) as [| | | | | | | | | | | | | | | |o] eqn:Hp;
    try (exfalso;
         destruct (progress s i Hc Hi) as [s' Hs];
         [intros o'; congruence | exact (Ht s' Hs)]).
  now exists o.
Qed.

(** C2.  In every state of every interleaving of [n] callers of Call on one
    transport: the callers that are writing or reading are the holder of
    [t.mu], so there is one at most; a caller that has returned a value got
    it from a line of the child that carries the id the caller allocated; no
    line answered two callers; when no caller can step all [n] have
    returned, and that happens after a bounded number of steps.  And when
    the child answers every request with the id of the request, every
    caller returns with the answer to its own request. *)
Theorem concurrent_calls (t : StdioTransport) (s : state) :
  reachable calls n t s ->
  serialized calls n t s /\
  (forall noise line resp,
     responsive_child calls n noise line resp t ->
     terminal calls n s ->
     all_answered n resp (reqID t) s).
Proof.
  intros Hr. pose proof (reachable_coherent t s Hr) as Hc. split.
  - split; [|split; [|split; [|split]]].
    + split.
      * intros i. split; [apply (flight_holds n s Hc)|].
        intros Hmu. now destruct (holder_flies n s Hc i Hmu).
      * intros i j Hi Hj. apply (flight_holds n s Hc) in Hi, Hj. congruence.
    + intros i r Hp. apply (reply_sound _ _ (reachable_receipts t s Hr) i).
      now rewrite Hp.
    + exact (reachable_distinct t s Hr).
    + exact (terminal_all_returned s Hc).
    + intros k s' Hk. pose proof (steps_bound k s s' Hk). lia.
  - intros noise line resp Hch Ht i Hi.
    pose proof (reachable_serving noise line resp t s Hch Hr) as Hsv.
    destruct (terminal_all_returned s Hc Ht i Hi) as [o Hp].
    pose proof (sv_served _ _ _ _ _ _ Hsv i) as Hsi. rewrite Hp in Hsi.
    destruct o as [r|e]; cbn in Hsi; [|contradiction].
    destruct Hsi as (k & Hk & Hrid & Hres).
    pose proof (alloc_count_le s). exists r, k. repeat split; auto; lia.
Qed.

Lemma first_step_some (s s' : state) (i m : nat) :
  first_step calls s i m = Some s' ->
  exists j, (i <= j < i + m)%nat /\ step_of calls s j = Some s'.
Proof.
  revert i. induction m as [|m IH]; intros i; cbn; [discriminate|].
  destruct (step_of calls s i) as [s1|] eqn:Hs.
  - intros [= <-]. exists i. split; [lia | exact Hs].
  - intros Hf. destruct (IH _ Hf) as (j & Hj & Hsj). exists j.
    split; [lia | exact Hsj].
Qed.

(** The scheduler makes steps of the system. *)
Lemma run_reachable (t : StdioTransport) (fuel : nat) (s : state) :
  reachable calls n t s -> reachable calls n t (run calls n fuel s).
Proof.
  revert s. induction fuel as [|fuel IH]; intros s Hr; cbn; [exact Hr|].
  destruct (first_step calls s 0 n) as [s'|] eqn:Hf; [|exact Hr].
  apply IH. destruct (first_step_some s s' 0 n Hf) as (j & Hj & Hs).
  apply (reach_step calls n t s s' Hr). exists j. split; [lia | exact Hs].
Qed.

(** A state in which the scheduler finds no step is terminal. *)
Lemma first_step_none (s : state) (i m j : nat) :
  first_step calls s i m = None -> (i <= j < i + m)%nat ->
  step_of calls s j = None.
Proof.
  revert i. induction m as [|m IH]; intros i; cbn; [lia|].
  destruct (step_of calls s i) as [s1|] eqn:Hs; [discriminate|].
  intros Hf Hj. destruct (Nat.eq_dec j i) as [->|Hne]; [exact Hs|].
  apply (IH (S i) Hf). lia.
Qed.

Lemma scheduler_stops_terminal (s : state) :
  first_step calls s 0 n = None -> terminal calls n s.
Proof.
  intros Hf s' (i & Hi & Hs).
  rewrite (first_step_none s 0 n i Hf) in Hs by lia. discriminate.
Qed.

End ConcurrentFacts.

(** * Properties of the decoders *)

(** ** Strings *)
Section StringFacts.
Import strings.

Lemma prefix_length (p s : string) :
  prefix p s = true -> (String.length p <= String.length s)%nat.
Proof.
  revert p. induction s as [|d s IH]; intros [|c p]; cbn;
    try lia; try discriminate.
  destruct (Ascii.ascii_dec c d); [|discriminate].
  intros Hp. apply IH in Hp. lia.
Qed.

(** An index that is not -1 leaves room for the whole of [sub]. *)
Lemma Index_range (s sub : string) :
  Index s sub = (-1)%Z \/
  (0 <= Index s sub /\ Index s sub + len sub <= len s)%Z.
Proof.
  unfold len. induction s as [|c s IH]; cbn [Index].
  - destruct (prefix sub "") eqn:Hp; [|now left].
    right. apply prefix_length in Hp. cbn in *. lia.
  - destruct (prefix sub (String c s)) eqn:Hp.
    + right. apply prefix_length in Hp. cbn [String.length] in *. lia.
    + destruct (Z.ltb_spec (Index s sub) 0) as [Hneg|Hpos]; [now left|].
      right. destruct IH as [IH|IH]; [lia|]. cbn [String.length]. lia.
Qed.

Lemma slice_in_range (s : string) (lo hi : Z) :
  (0 <= lo)%Z -> (lo <= hi)%Z -> (hi <= len s)%Z ->
  slice s lo hi = Some (substring (Z.to_nat lo) (Z.to_nat (hi - lo)) s).
Proof.
  intros H0 H1 H2. unfold slice.
  destruct (Z.leb_spec 0 lo); [|lia].
  destruct (Z.leb_spec lo hi); [|lia].
  destruct (Z.leb_spec hi (len s)); [|lia].
  reflexivity.
Qed.

Lemma substring_length_le (n m : nat) (s : string) :
  (String.length (substring n m s) <= m)%nat.
Proof.
  revert n m. induction s as [|c s IH]; intros n m.
  - destruct n, m; cbn; lia.
  - destruct n as [|n].
    + destruct m as [|m]; cbn; [lia|]. specialize (IH 0%nat m). lia.
    + cbn. apply IH.
Qed.

Lemma append_length (a b : string) :
  String.length (a ++ b) = (String.length a + String.length b)%nat.
Proof. induction a as [|c a IH]; cbn; [reflexivity | now rewrite IH]. Qed.

(** Split never answers the empty slice. *)
Lemma split_from_not_nil (sep s : string) (skip : nat) :
  split_from sep s skip <> [].
Proof.
  revert skip. induction s as [|c s IH]; intros skip; cbn [split_from].
  - discriminate.
  - destruct skip as [|k]; [|apply IH].
    destruct (prefix sep (String c s)); [discriminate|].
    destruct (split_from sep s 0); discriminate.
Qed.

Lemma Split_first (s sep : string) :
  exists piece, nth_error (Split s sep) 0 = Some piece.
Proof.
  unfold Split. pose proof (split_from_not_nil sep s 0) as Hn.
  destruct (split_from sep s 0) as [|piece pieces]; [contradiction|].
  now exists piece.
Qed.

End StringFacts.

(** ** The task decoder *)
Section TaskFacts.
Import strings mcp providers.

Lemma parse_pair_returns (st : scanner) (line : string) :
  exists st', parse_pair st line = Some st'.
Proof.
  unfold parse_pair.
  destruct (Z.ltb_spec 0 (Index line ":")) as [Hpos|Hneg]; [|eauto].
  destruct (Index_range line ":") as [Hi|[_ Hi]]; [lia|].
  change (len ":") with 1%Z in Hi.
  rewrite (slice_in_range line 0 (Index line ":")) by lia.
  rewrite (slice_in_range line (Index line ":" + 1) (len line)) by lia.
  cbn [bind]. eauto.
Qed.

Lemma notes_then_pair_returns (st : scanner) (line : string) :
  exists st', notes_then_pair st line = Some st'.
Proof.
  unfold notes_then_pair.
  destruct (inNotes st); [|apply parse_pair_returns].
  destruct (ends_notes line); [apply parse_pair_returns | eauto].
Qed.

Lemma scan_line_returns (st : scanner) (raw : string) :
  exists st', scan_line st raw = Some st'.
Proof.
  unfold scan_line.
  destruct (inChecklist st); [|apply notes_then_pair_returns].
  destruct (HasPrefix _ "□" || HasPrefix _ "☑"); [eauto|].
  destruct (negb _ && negb _); [eauto | apply notes_then_pair_returns].
Qed.

Lemma scan_lines_returns (lines : list string) (st : scanner) :
  exists st', scan_lines st lines = Some st'.
Proof.
  revert st. induction lines as [|raw lines IH]; intros st; cbn [scan_lines].
  - eauto.
  - destruct (scan_line_returns st raw) as [st1 ->]. cbn [bind]. apply IH.
Qed.

(** parseTaskBlock never panics. *)
Lemma parseTaskBlock_returns (block : string) :
  exists t, parseTaskBlock block = Some t.
Proof.
  unfold parseTaskBlock.
  destruct (scan_lines_returns (Split block nl) scanner_init) as [st ->].
  cbn [bind]. eauto.
Qed.

Lemma parse_blocks_returns (taskBlocks : list string) (tasks : list Task) :
  Forall titled tasks ->
  exists tasks',
    parse_blocks tasks taskBlocks = Some tasks' /\ Forall titled tasks'.
Proof.
  revert tasks.
  induction taskBlocks as [|b bs IH]; intros tasks Ht; cbn [parse_blocks].
  - eauto.
  - destruct (String.eqb (TrimSpace b) ""); [now apply IH|].
    destruct (parseTaskBlock_returns (TrimSpace b)) as [t ->]. cbn [bind].
    destruct (String.eqb_spec (Title t) "") as [He|Hne]; cbn [negb].
    + now apply IH.
    + apply IH. apply Forall_app. split; [exact Ht|].
      constructor; [exact Hne | constructor].
Qed.

Lemma parse_content_returns (blocks : list ContentBlock) (tasks : list Task) :
  Forall titled tasks ->
  exists tasks',
    parse_content tasks blocks = Some tasks' /\ Forall titled tasks'.
Proof.
  revert tasks.
  induction blocks as [|b bs IH]; intros tasks Ht; cbn [parse_content].
  - eauto.
  - destruct (String.eqb (Type_ b) "text" && negb (String.eqb (Text b) ""));
      [|now apply IH].
    destruct (parse_blocks_returns (Split (Text b) (nl ++ "---" ++ nl))
                tasks Ht) as (tasks1 & -> & Ht1).
    cbn [bind]. now apply IH.
Qed.

(** parseTasks returns on every envelope, with a nil error and with tasks
    that all have a title. *)
Lemma parseTasks_returns (result : ToolResult) :
  exists tasks,
    parseTasks result = Some (tasks, None) /\ Forall titled tasks.
Proof.
  unfold parseTasks. destruct (Content result) as [|b bs] eqn:Hc.
  - exists []. split; [reflexivity | constructor].
  - destruct (parse_content_returns (b :: bs) [] (Forall_nil _))
      as (tasks & -> & Ht).
    cbn [bind]. eauto.
Qed.

(** In a key followed by a colon, the first colon is the one after the key
    when the key has none. *)
Lemma prefix_empty (s : string) : prefix "" s = true.
Proof. now destruct s. Qed.

Lemma prefix_cons (a : ascii) (p : string) (b : ascii) (s : string) :
  prefix (String a p) (String b s) =
  if Ascii.ascii_dec a b then prefix p s else false.
Proof. reflexivity. Qed.

Lemma Index_cons (c : ascii) (s sub : string) :
  Index (String c s) sub =
  if prefix sub (String c s) then 0%Z
  else if (Index s sub <? 0)%Z then (-1)%Z else (Index s sub + 1)%Z.
Proof. reflexivity. Qed.

Lemma Index_after_key (key rest : string) :
  Index key ":" = (-1)%Z ->
  Index (key ++ ":" ++ rest) ":" = len key.
Proof.
  unfold len. induction key as [|c key IH]; intros Hk.
  - cbn. destruct (Ascii.ascii_dec ":" ":"); [|congruence].
    now rewrite prefix_empty.
  - rewrite Index_cons in Hk.
    change (String c key ++ ":" ++ rest) with (String c (key ++ ":" ++ rest)).
    rewrite Index_cons.
    assert (Hp : prefix ":" (String c (key ++ ":" ++ rest))
                 = prefix ":" (String c key)).
    { change ":" with (String ":" "") at 1 3. rewrite !prefix_cons.
      destruct (Ascii.ascii_dec ":" c); [|reflexivity].
      now rewrite !prefix_empty. }
    rewrite Hp.
    destruct (prefix ":" (String c key)); [discriminate|].
    destruct (Z.ltb_spec (Index key ":") 0) as [Hneg|Hpos]; [|lia].
    destruct (Index_range key ":") as [Hi|Hi]; [|lia].
    rewrite (IH Hi).
    destruct (Z.ltb_spec (Z.of_nat (String.length key)) 0);
      cbn [String.length]; lia.
Qed.

Lemma substring_key (key rest : string) :
  substring 0 (String.length key) (key ++ rest) = key.
Proof.
  induction key as [|c key IH]; cbn.
  - now destruct rest.
  - now rewrite IH.
Qed.

Lemma substring_rest (key rest : string) :
  substring (String.length key) (String.length rest) (key ++ rest) = rest.
Proof.
  induction key as [|c key IH]; cbn; [|exact IH].
  induction rest as [|d rest IHr]; cbn; [reflexivity | now rewrite IHr].
Qed.

Lemma prefix_split (p s : string) :
  prefix p s = true -> exists rest, s = p ++ rest.
Proof.
  revert p. induction s as [|d s IH]; intros [|c p]; cbn;
    try discriminate; eauto.
  destruct (Ascii.ascii_dec c d) as [->|]; [|discriminate].
  intros Hp. destruct (IH p Hp) as [rest ->]. eauto.
Qed.

(** A line that starts with a key without colon, then a colon, is read by
    [parse_pair] as that key and the rest of the line. *)
Lemma parse_pair_key (st : scanner) (key rest : string) :
  Index key ":" = (-1)%Z -> key <> "" ->
  parse_pair st (key ++ ":" ++ rest) =
  Some (store_pair st (TrimSpace key) (TrimSpace rest)).
Proof.
  intros Hk Hne. unfold parse_pair. rewrite (Index_after_key key rest Hk).
  assert (Hlen : len (key ++ ":" ++ rest) = (len key + 1 + len rest)%Z).
  { unfold len. rewrite !append_length. cbn [String.length]. lia. }
  assert (Hpos : (0 < len key)%Z).
  { unfold len. destruct key; [congruence | cbn; lia]. }
  destruct (Z.ltb_spec 0 (len key)); [|lia].
  rewrite (slice_in_range _ 0 (len key)) by (unfold len in *; lia).
  rewrite (slice_in_range _ (len key + 1) (len (key ++ ":" ++ rest)))
    by (unfold len in *; lia).
  cbn [bind]. rewrite Hlen.
  replace (Z.to_nat 0) with 0%nat by reflexivity.
  replace (Z.to_nat (len key - 0)) with (String.length key)
    by (unfold len; lia).
  rewrite substring_key.
  replace (Z.to_nat (len key + 1)) with (String.length (key ++ ":"))
    by (rewrite append_length; unfold len; cbn; lia).
  replace (Z.to_nat (len key + 1 + len rest - (len key + 1)))
    with (String.length rest) by (unfold len; lia).
  change (key ++ ":" ++ rest) with (key ++ (":" ++ rest)).
  replace (key ++ (":" ++ rest)) with ((key ++ ":") ++ rest).
  - now rewrite substring_rest.
  - clear. induction key as [|c key IH]; cbn; [reflexivity | now rewrite IH].
Qed.

Lemma ends_notes_key (line : string) :
  ends_notes line = true ->
  exists key rest, In key notes_enders /\ line = key ++ ":" ++ rest.
Proof.
  unfold ends_notes, HasPrefix. intros He.
  apply orb_true_iff in He. destruct He as [He|He].
  apply orb_true_iff in He. destruct He as [He|He].
  apply orb_true_iff in He. destruct He as [He|He].
  all: apply prefix_split in He; destruct He as [rest ->].
  - exists "Project", rest. split; [unfold notes_enders; cbn; tauto | reflexivity].
  - exists "Tags", rest. split; [unfold notes_enders; cbn; tauto | reflexivity].
  - exists "Checklist", rest. split; [unfold notes_enders; cbn; tauto | reflexivity].
  - exists "Deadline", rest. split; [unfold notes_enders; cbn; tauto | reflexivity].
Qed.

(** C8.  The two-block text gives exactly one task, "Buy milk" with status
    "incomplete": the block with the empty title is dropped.  In general,
    parseTasks returns on every envelope and every task it returns has a
    title that is not empty. *)
Theorem parseTasks_drops_untitled :
  parseTasks (Demo.text_result Demo.buy_milk) =
    Some ([set_Status (set_UUID (set_Title Task_zero "Buy milk") "abc")
             "incomplete"], None)
  /\ forall result : ToolResult,
       exists tasks,
         parseTasks result = Some (tasks, None) /\
         Forall (fun t => Title t <> "") tasks.
Proof.
  split; [vm_compute; reflexivity|].
  intros result. exact (parseTasks_returns result).
Qed.

(** C10.  On every envelope parseTasks returns with a nil error; an envelope
    without content blocks and a text with no task in it give no task. *)
Theorem parseTasks_error_is_nil :
  (forall result : ToolResult,
     exists tasks, parseTasks result = Some (tasks, None))
  /\ parseTasks (mkToolResult [] false) = Some ([], None)
  /\ parseTasks (Demo.text_result "}{ not a task") = Some ([], None).
Proof.
  split; [|split; vm_compute; reflexivity].
  intros result. destruct (parseTasks_returns result) as (tasks & Hp & _).
  eauto.
Qed.

(** C9, as the code has it.  While the notes are open (and no checklist is),
    a line ends them exactly when it starts with "Project:", "Tags:",
    "Checklist:" or "Deadline:".  Such a line closes the notes, leaves the
    notes text as it is, and is stored as that key with its value; any other
    line is added to the notes text and the notes stay open. *)
Theorem notes_end_at_enders (st : scanner) (raw : string) :
  inNotes st = true ->
  inChecklist st = false ->
  (ends_notes (TrimSpace raw) = false /\
   scan_line st raw =
     Some (mkScanner (task st) (notesBuilder st ++ TrimSpace raw ++ nl)
             true false))
  \/
  (ends_notes (TrimSpace raw) = true /\
   exists key rest st',
     In key notes_enders /\ TrimSpace raw = key ++ ":" ++ rest /\
     scan_line st raw = Some st' /\
     st' = store_pair
             (mkScanner
                (set_Notes (task st) (TrimSpace (notesBuilder st)))
                (notesBuilder st) false false)
             key (TrimSpace rest) /\
     inNotes st' = false /\
     notesBuilder st' = notesBuilder st).
Proof.
  intros Hn Hc. unfold scan_line, notes_then_pair. rewrite Hc, Hn.
  destruct (ends_notes (TrimSpace raw)) eqn:He; [right | left; auto].
  split; [reflexivity|].
  destruct (ends_notes_key _ He) as (key & rest & Hk & Hl).
  exists key, rest. eexists. split; [exact Hk|]. split; [exact Hl|].
  rewrite Hl.
  unfold notes_enders in Hk. cbn [In] in Hk.
  destruct Hk as [<-|[<-|[<-|[<-|[]]]]];
    (rewrite parse_pair_key by (vm_compute; congruence));
    (split; [reflexivity|]); (split; [reflexivity|]);
    change (TrimSpace "Project") with "Project";
    change (TrimSpace "Tags") with "Tags";
    change (TrimSpace "Checklist") with "Checklist";
    change (TrimSpace "Deadline") with "Deadline";
    unfold store_pair; cbn [String.eqb Ascii.eqb Bool.eqb];
    cbn [with_task inNotes notesBuilder];
    repeat match goal with
           | |- context [if ?b then _ else _] => destruct b
           | |- context [match ?o with Some _ => _ | None => _ end] =>
               destruct o
           end; cbn; auto.
Qed.

(** C9, as stated, fails: "Status" is a key of the [switch], yet a line
    "Status: completed" met while the notes are open is added to the notes
    and the notes stay open; the task keeps an empty status. *)
Lemma notes_swallow_status_line :
  In "Status" recognized_keys /\
  begins_with_key recognized_keys "Status: completed" = true /\
  inNotes Demo.in_notes = true /\
  inChecklist Demo.in_notes = false /\
  scan_line Demo.in_notes "Status: completed" =
    Some (mkScanner (task Demo.in_notes)
            ("ask about the invoice" ++ nl ++ "Status: completed" ++ nl)
            true false) /\
  parseTaskBlock Demo.notes_then_status =
    Some (set_Notes (set_Title Task_zero "Call")
            ("ask about the invoice" ++ nl ++ "Status: completed")).
Proof.
  split; [unfold recognized_keys; cbn; tauto|].
  vm_compute. repeat split.
Qed.

End TaskFacts.

(** ** The calendar decoder *)
Section EventFacts.
Import strings mcp providers.
Context `{json.Library} `{time.RFC3339}.

Lemma convert_returns (ge : gcalEvent.t) :
  exists event, convert ge = Some event.
Proof.
  unfold convert.
  destruct (negb (String.eqb (gcalOrganizer.DisplayName _) "")).
  - cbn [bind]. eauto.
  - destruct (negb (String.eqb (gcalOrganizer.Email _) "")).
    + destruct (Split_first (gcalOrganizer.Email (gcalEvent.Organizer ge))
                  "@") as [piece ->].
      cbn [bind]. eauto.
    + cbn [bind]. eauto.
Qed.

Lemma convert_all_returns (ges : list gcalEvent.t) :
  exists events, convert_all ges = Some events.
Proof.
  induction ges as [|ge ges [events IH]]; cbn [convert_all]; [eauto|].
  destruct (convert_returns ge) as [event ->]. rewrite IH. cbn [bind]. eauto.
Qed.

(** The preview is the text itself when it has at most [max] bytes, else its
    first [max] bytes and three dots. *)
Lemma truncate_returns (s : string) (max : Z) :
  (0 <= max)%Z ->
  exists preview,
    truncate s max = Some preview /\
    (String.length preview <= Z.to_nat max + 3)%nat /\
    ((len s <= max)%Z /\ preview = s \/
     (max < len s)%Z /\
     preview = substring 0 (Z.to_nat max) s ++ "...").
Proof.
  intros Hmax. unfold truncate.
  destruct (Z.leb_spec (len s) max) as [Hle|Hgt].
  - exists s. split; [reflexivity|]. split; [unfold len in Hle; lia | auto].
  - rewrite (slice_in_range s 0 max) by lia. cbn [bind].
    eexists. split; [reflexivity|]. rewrite Z.sub_0_r.
    split; [|right; split; [lia | reflexivity]].
    rewrite append_length. cbn [String.length].
    pose proof (substring_length_le (Z.to_nat 0) (Z.to_nat max) s). lia.
Qed.

(** parseEvents never panics: it returns events and a nil error, or no
    event and an error. *)
Lemma parseEvents_returns (result : ToolResult) :
  (exists events, parseEvents result = Some (events, None)) \/
  (exists err, parseEvents result = Some ([], Some err)).
Proof.
  unfold parseEvents. destruct (Content result) as [|b bs]; [left; eauto|].
  destruct (String.eqb (first_text (b :: bs)) ""); [left; eauto|].
  destruct (json.Unmarshal dec_events _ _) as [gcalEvents [err|]].
  - destruct (json.Unmarshal dec_wrapped _ _) as [wrapped [err2|]].
    + destruct (truncate_returns (first_text (b :: bs)) 200 ltac:(lia))
        as (preview & -> & _).
      cbn [bind]. right. eauto.
    + destruct (convert_all_returns (json.live wrapped)) as [events ->].
      cbn [bind]. left. eauto.
  - destruct (convert_all_returns (json.live gcalEvents)) as [events ->].
    cbn [bind]. left. eauto.
Qed.

(** C5.  Both decoders return on every envelope: parseTasks with tasks and a
    nil error, parseEvents with events and a nil error or with no event and
    an error.  Neither reaches a slice or an index out of range. *)
Theorem decoders_total (result : ToolResult) :
  (exists tasks, parseTasks result = Some (tasks, None)) /\
  ((exists events, parseEvents result = Some (events, None)) \/
   (exists err, parseEvents result = Some ([], Some err))).
Proof.
  split; [|apply parseEvents_returns].
  destruct (parseTasks_returns result) as (tasks & Hp & _). eauto.
Qed.

(** C6, as the code has it.  An event with start.date "2025-03-10" and no
    start.dateTime is decoded with AllDay set and with the start time that
    time.Parse gives for the layout "2006-01-02": midnight on 2025-03-10 in
    UTC. *)
Theorem all_day_start_is_utc_midnight (ge : gcalEvent.t) :
  gcalDateTime.DateTime (gcalEvent.Start ge) = "" ->
  gcalDateTime.Date (gcalEvent.Start ge) = "2025-03-10" ->
  exists event,
    convert ge = Some event /\
    CalendarEvent.AllDay event = true /\
    CalendarEvent.StartTime event = time.Date 2025 3 10 0 0 0 0 time.UTC.
Proof.
  intros Hdt Hd. destruct (convert_returns ge) as [event He].
  exists event. split; [exact He|].
  unfold convert in He. rewrite Hdt, Hd in He. cbn [String.eqb negb] in He.
  change (time.Parse_DateOnly "2025-03-10")
    with (Some (time.Date 2025 3 10 0 0 0 0 time.UTC)) in He.
  cbn [fst snd] in He.
  destruct (if negb _ then _ else _); [|discriminate].
  cbn [bind] in He. injection He as <-. split; reflexivity.
Qed.

(** Members whose keys select no field leave the struct as it is. *)
Lemma fold_unselected {T : Type} (names : list string)
  (dec_field : string -> json.value -> T -> T * option error)
  (members : list (string * json.value)) (acc : T * option error) :
  (forall m, In m members -> json.find_field names (fst m) = None) ->
  fold_left (json.store_member names dec_field) members acc = acc.
Proof.
  induction members as [|m members IH]; intros Hu; cbn [fold_left];
    [reflexivity|].
  unfold json.store_member at 2. rewrite (Hu m (or_introl eq_refl)).
  apply IH. intros m' Hm'. apply Hu. now right.
Qed.

(** An object whose only member selecting the field [Events] is
    "events": <array> fills the struct of lines 440-442 as the array alone
    fills a slice. *)
Lemma dec_wrapped_events (pre post : list (string * json.value))
  (items : list json.value) :
  (forall m, In m (pre ++ post)%list ->
     json.find_field ["events"] (fst m) = None) ->
  dec_wrapped
    (json.JObject (pre ++ ("events", json.JArray items) :: post)%list)
    json.nil_slice
  = (fst (dec_events (json.JArray items) json.nil_slice),
     json.first_error None
       (snd (dec_events (json.JArray items) json.nil_slice))).
Proof.
  intros Hu. unfold dec_wrapped, json.dec_struct.
  rewrite fold_left_app.
  rewrite (fold_unselected _ _ pre)
    by (intros m Hm; apply Hu; apply in_or_app; now left).
  cbn [fold_left]. unfold json.store_member at 2.
  change (json.find_field ["events"] (fst ("events", json.JArray items)))
    with (Some "events").
  cbn [fst snd].
  destruct (dec_events (json.JArray items) json.nil_slice) as [ges e].
  apply fold_unselected.
  intros m Hm. apply Hu. apply in_or_app. now right.
Qed.

Lemma parseEvents_text (text : string) :
  text <> "" ->
  parseEvents (mkToolResult [mkContentBlock "text" text] false) =
  (let (gcalEvents, err) :=
     json.Unmarshal dec_events text json.nil_slice in
   match err with
   | Some err =>
       let (wrapped, err2) :=
         json.Unmarshal dec_wrapped text json.nil_slice in
       match err2 with
       | Some _ =>
           preview <- truncate text 200 ;;
           Some ([],
                 Some (Errorf "failed to parse calendar events: " err
                         (" (text: " ++ preview ++ ")")))
       | None =>
           events <- convert_all (json.live wrapped) ;;
           Some (events, None)
       end
   | None =>
       events <- convert_all (json.live gcalEvents) ;;
       Some (events, None)
   end).
Proof.
  intros Hne. unfold parseEvents. cbn [Content].
  change (first_text [mkContentBlock "text" text]) with text.
  destruct (String.eqb_spec text ""); [contradiction | reflexivity].
Qed.

(** C7.  A text that is an object holding, under "events", an array that
    decodes as a top-level array of events: the direct decoding fails, the
    wrapped form is tried, and the events are those of the array alone.  A
    text for which both decodings fail: the error wraps the error of the
    first decoding and shows the text cut to 200 bytes (with three dots when
    it was longer). *)
Theorem wrapped_events_or_bounded_error (text : string) :
  text <> "" ->
  (forall (array_text : string) (pre post : list (string * json.value))
          (items : list json.value) (ges : json.slice gcalEvent.t),
     array_text <> "" ->
     json.Parse text =
       Ok (json.JObject (pre ++ ("events", json.JArray items) :: post)%list) ->
     (forall m, In m (pre ++ post)%list ->
        json.find_field ["events"] (fst m) = None) ->
     json.Parse array_text = Ok (json.JArray items) ->
     dec_events (json.JArray items) json.nil_slice = (ges, None) ->
     exists err events,
       fst (json.Unmarshal dec_events text json.nil_slice) = json.nil_slice /\
       snd (json.Unmarshal dec_events text json.nil_slice) = Some err /\
       json.Unmarshal dec_wrapped text json.nil_slice = (ges, None) /\
       parseEvents (mkToolResult [mkContentBlock "text" text] false)
         = Some (events, None) /\
       parseEvents (mkToolResult [mkContentBlock "text" array_text] false)
         = Some (events, None))
  /\
  (forall (gcalEvents wrapped : json.slice gcalEvent.t) (err err2 : error),
     json.Unmarshal dec_events text json.nil_slice
       = (gcalEvents, Some err) ->
     json.Unmarshal dec_wrapped text json.nil_slice = (wrapped, Some err2) ->
     exists preview,
       parseEvents (mkToolResult [mkContentBlock "text" text] false)
         = Some ([],
                 Some (Errorf "failed to parse calendar events: " err
                         (" (text: " ++ preview ++ ")"))) /\
       (String.length preview <= 203)%nat /\
       ((len text <= 200)%Z /\ preview = text \/
        (200 < len text)%Z /\ preview = substring 0 200 text ++ "...")).
Proof.
  intros Hne. split.
  - intros array_text pre post items ges Hane Hp Hu Hpa Hd.
    destruct (convert_all_returns (json.live ges)) as [events Hc].
    exists (json.TypeError "object" "[]providers.gcalEvent"), events.
    assert (Hdirect : json.Unmarshal dec_events text json.nil_slice
                      = (json.nil_slice,
                         Some (json.TypeError "object"
                                 "[]providers.gcalEvent"))).
    { unfold json.Unmarshal. rewrite Hp. reflexivity. }
    assert (Hwrapped : json.Unmarshal dec_wrapped text json.nil_slice
                       = (ges, None)).
    { unfold json.Unmarshal. rewrite Hp.
      rewrite (dec_wrapped_events pre post items Hu), Hd. reflexivity. }
    rewrite (parseEvents_text text Hne), (parseEvents_text array_text Hane).
    rewrite Hdirect, Hwrapped. cbn [fst snd].
    repeat split.
    + rewrite Hc. reflexivity.
    + unfold json.Unmarshal at 1. rewrite Hpa, Hd, Hc. reflexivity.
  - intros gcalEvents wrapped err err2 H1 H2.
    destruct (truncate_returns text 200 ltac:(lia))
      as (preview & Ht & Hlen & Hshape).
    exists preview. rewrite (parseEvents_text text Hne), H1, H2, Ht.
    split; [reflexivity|]. split; [exact Hlen | exact Hshape].
Qed.

End EventFacts.

(** ** The transport on the scripted child *)
Import Transport Demo.

Lemma Call_returns_result_verbatim_witness :
  exists t',
    Call fresh "tools/list" tt = Some (Ok (Some "[7]"), t') /\
    stdout t' = [] /\
    stdin t' =
      (stdin fresh_started ++ [(request 2 "tools/list" ++ nl)%string])%list /\
    reqID t' = 2%Z.
Proof.
  apply (Call_returns_result_verbatim fresh fresh_started "tools/list" tt
           (request 2 "tools/list") [progress] result_2
           (mkResponse 2 (Some "[7]") None) "[7]" []); try reflexivity.
  - right. split; reflexivity.
  - apply Forall_cons; [|apply Forall_nil].
    right. left. exists (mkResponse 0 None None). repeat split.
Defined.

Lemma Call_error_response_witness :
  exists t' err,
    Call (active [banner; progress; error_1]) "tools/call" tt
      = Some (Err err, t') /\
    err = RPCError (mkJSONRPCError (-32601) "Method not found") /\
    Error_string err = "JSON-RPC error -32601: Method not found" /\
    stdin_closed t' = false /\ started t' = true /\ stdout t' = [].
Proof.
  apply (Call_error_response (active [banner; progress; error_1])
           (active [banner; progress; error_1]) "tools/call" tt
           (request 1 "tools/call") [banner; progress] error_1
           (mkResponse 1 None
              (Some (mkJSONRPCError (-32601) "Method not found")))
           (mkJSONRPCError (-32601) "Method not found") []); try reflexivity.
  - left. split; reflexivity.
  - apply Forall_cons; [left; reflexivity|].
    apply Forall_cons; [|apply Forall_nil].
    right. left. exists (mkResponse 0 None None). repeat split.
Defined.

Lemma Start_twice_forgets_failure_witness :
  let t := NewStdioTransport (Some (LibError "exec: no command")) [] in
  exists t1,
    Start Call t =
      Some (Some (Errorf "failed to start MCP server: "
                    (LibError "exec: no command") ""), t1) /\
    Start Call t1 = Some (None, t1) /\
    spawns t1 = 1.
Proof.
  intros t. eexists. split; [reflexivity|]. split; [|reflexivity].
  apply (Start_twice_forgets_failure t _
           (Errorf "failed to start MCP server: "
              (LibError "exec: no command") "")).
  reflexivity.
Defined.

(** ** The decoders on the sample texts *)
Import strings mcp providers.

Lemma notes_end_at_enders_witness :
  (ends_notes (TrimSpace "  Deadline: 2025-04-01") = false /\
   scan_line in_notes "  Deadline: 2025-04-01" =
     Some (mkScanner (task in_notes)
             (notesBuilder in_notes ++ TrimSpace "  Deadline: 2025-04-01"
              ++ nl) true false))
  \/
  (ends_notes (TrimSpace "  Deadline: 2025-04-01") = true /\
   exists key rest st',
     In key notes_enders /\
     TrimSpace "  Deadline: 2025-04-01" = key ++ ":" ++ rest /\
     scan_line in_notes "  Deadline: 2025-04-01" = Some st' /\
     st' = store_pair
             (mkScanner
                (set_Notes (task in_notes)
                   (TrimSpace (notesBuilder in_notes)))
                (notesBuilder in_notes) false false)
             key (TrimSpace rest) /\
     inNotes st' = false /\
     notesBuilder st' = notesBuilder in_notes).
Proof.
  apply (notes_end_at_enders in_notes "  Deadline: 2025-04-01"); reflexivity.
Defined.

Lemma all_day_start_is_utc_midnight_witness :
  exists event,
    convert all_day = Some event /\
    CalendarEvent.AllDay event = true /\
    CalendarEvent.StartTime event = time.Date 2025 3 10 0 0 0 0 time.UTC.
Proof.
  apply (all_day_start_is_utc_midnight all_day); reflexivity.
Defined.

(** C6, as stated, fails: the start time of the all-day event is midnight in
    UTC, not in the zone of the machine; five hours west of UTC the two are
    18000 seconds apart. *)
Lemma all_day_start_is_not_local_midnight :
  parseEvents (text_result all_day_array) =
    Some ([CalendarEvent.mk "e1" "Offsite"
             (time.Date 2025 3 10 0 0 0 0 time.UTC) time.zero "" "" "team"
             true], None) /\
  time.Date 2025 3 10 0 0 0 0 time.UTC
    <> time.Date 2025 3 10 0 0 0 0 time.Local /\
  time.Unix (-18000) (time.Date 2025 3 10 0 0 0 0 time.UTC) = 1741564800%Z /\
  time.Unix (-18000) (time.Date 2025 3 10 0 0 0 0 time.Local) = 1741582800%Z.
Proof.
  split; [vm_compute; reflexivity|].
  split; [discriminate|]. split; reflexivity.
Qed.

Lemma wrapped_events_or_bounded_error_witness :
  (exists err events,
     fst (json.Unmarshal dec_events all_day_wrapped json.nil_slice)
       = json.nil_slice /\
     snd (json.Unmarshal dec_events all_day_wrapped json.nil_slice)
       = Some err /\
     json.Unmarshal dec_wrapped all_day_wrapped json.nil_slice
       = (json.mkSlice [all_day] [], None) /\
     parseEvents (text_result all_day_wrapped) = Some (events, None) /\
     parseEvents (text_result all_day_array) = Some (events, None))
  /\
  (exists preview,
     parseEvents (text_result not_json)
       = Some ([],
               Some (Errorf "failed to parse calendar events: "
                       (LibError
                          "invalid character 'E' looking for beginning of value")
                       (" (text: " ++ preview ++ ")"))) /\
     (String.length preview <= 203)%nat /\
     ((len not_json <= 200)%Z /\ preview = not_json \/
      (200 < len not_json)%Z /\
      preview = substring 0 200 not_json ++ "...")).
Proof.
  split.
  - apply (proj1 (wrapped_events_or_bounded_error all_day_wrapped
                    ltac:(discriminate))
             all_day_array [] []
             [json.JObject
                [("id", json.JString "e1");
                 ("summary", json.JString "Offsite");
                 ("start",
                  json.JObject [("date", json.JString "2025-03-10")]);
                 ("organizer",
                  json.JObject
                    [("email", json.JString "team@example.com")])]]
             (json.mkSlice [all_day] [])).
    + discriminate.
    + reflexivity.
    + intros m [].
    + reflexivity.
    + reflexivity.
  - apply (proj2 (wrapped_events_or_bounded_error not_json
                    ltac:(discriminate))
             json.nil_slice json.nil_slice
             (LibError "invalid character 'E' looking for beginning of value")
             (LibError "invalid character 'E' looking for beginning of value"));
      reflexivity.
Defined.

(** ** Two callers on the scripted child *)
Import Concurrent.

(** The scheduler's run of the two callers: both return the answer to their
    own request, and the requests were written one after the other. *)
Lemma two_callers_run :
  pcs shared_end 0 = Done (Answered (mkReply 1 (Some 1) (Ok (Some "{}")))) /\
  pcs shared_end 1 = Done (Answered (mkReply 2 (Some 3) (Ok (Some "[7]")))) /\
  stdin (tr shared_end) =
    [(request 1 "tools/list" ++ nl)%string;
     (request 2 "resources/list" ++ nl)%string] /\
  mu shared_end = None /\
  first_step two_calls shared_end 0 2 = None.
Proof. vm_compute. repeat split. Qed.

(** On a transport that has not been started the first caller runs the
    handshake (id 1), writes the notification and makes its call (id 2);
    the second caller finds the child silent.  The first caller ends as
    [Call] alone does. *)
Lemma two_callers_fresh_run :
  pcs fresh_end 0 = Done (Answered (mkReply 2 (Some 2) (Ok (Some "[7]")))) /\
  pcs fresh_end 1 =
    Done (Answered
            (mkReply 3 None
               (Err (Errorf "failed to read response: " io_EOF "")))) /\
  stdin (tr fresh_end) =
    [(request 1 "initialize" ++ nl)%string;
     (demo_Marshal_notification
        (mkNotification "2.0" "notifications/initialized") ++ nl)%string;
     (request 2 "tools/list" ++ nl)%string;
     (request 3 "resources/list" ++ nl)%string] /\
  spawns (tr fresh_end) = 1 /\
  fst (match Call fresh "tools/list" tt with
       | Some (r, _) => (Some r, tt)
       | None => (None, tt)
       end) = Some (Ok (Some "[7]")).
Proof. vm_compute. repeat split. Qed.

Lemma shared_child_responsive :
  responsive_child two_calls 2 shared_noise shared_line shared_resp shared.
Proof.
  split; [reflexivity|]. split; [reflexivity|].
  split; [cbn; lia|]. split; [cbn; lia|].
  split; [|split; [|reflexivity]].
  - intros k Hk. assert (Hk' : k = 1 \/ k = 2) by lia.
    destruct Hk' as [-> | ->]; (split; [|split; [|split]]).
    + apply Forall_cons; [left; reflexivity | apply Forall_nil].
    + reflexivity.
    + reflexivity.
    + left. discriminate.
    + apply Forall_cons; [|apply Forall_nil].
      right. left. exists (mkResponse 0 None None). repeat split.
    + reflexivity.
    + reflexivity.
    + left. discriminate.
  - intros i id. eexists. reflexivity.
Qed.

Lemma concurrent_calls_witness :
  serialized two_calls 2 shared shared_end /\
  all_answered 2 shared_resp (reqID shared) shared_end.
Proof.
  destruct (concurrent_calls two_calls 2 shared shared_end
              (run_reachable two_calls 2 shared 40 (init shared)
                 (reach_init two_calls 2 shared)))
    as [Hser Hans].
  split; [exact Hser|].
  apply (Hans shared_noise shared_line shared_resp shared_child_responsive).
  apply scheduler_stops_terminal. vm_compute. reflexivity.
Defined.

(** * Further properties *)

(** ** Strings and integers *)

(** An [int] that is in range is not changed by the wrap-around. *)
Lemma wrap64_in_range (z : Z) :
  (- 2 ^ 63 <= z < 2 ^ 63)%Z -> Transport.wrap64 z = z.
Proof.
  intros Hz. unfold Transport.wrap64.
  rewrite Z.mod_small by lia. lia.
Qed.

Lemma append_assoc (a b c : string) : (a ++ b) ++ c = a ++ (b ++ c).
Proof. induction a as [|x a IH]; cbn; [reflexivity | now rewrite IH]. Qed.

Lemma append_empty_r (s : string) : s ++ "" = s.
Proof. induction s as [|c s IH]; cbn; [reflexivity | now rewrite IH]. Qed.

Lemma substring_length_exact (n : nat) (s : string) :
  (n <= String.length s)%nat -> String.length (substring 0 n s) = n.
Proof.
  revert n. induction s as [|c s IH]; intros [|n] Hn; cbn in *;
    try reflexivity; try lia.
  rewrite IH; lia.
Qed.

(** * More on the transport *)
Section TransportMore.
Import Transport.
Context {Params : Type} `{Codec Params}.

(** The read loop on lines it passes over, all of them: it reads them all
    and fails at the end of the output. *)
Lemma read_response_exhausted (id : Z) (lines : list string) :
  Forall (passed_over id) lines ->
  read_response id lines =
    (Err (Errorf "failed to read response: " io_EOF ""), []).
Proof.
  intros Hl. rewrite <- (app_nil_r lines).
  now rewrite (read_response_skips id lines [] Hl).
Qed.

(** The read loop only moves forward in the output. *)
Lemma read_response_suffix (id : Z) (lines : list string) :
  exists read, lines = (read ++ snd (read_response id lines))%list.
Proof.
  induction lines as [|l lines [read IH]].
  - exists []. reflexivity.
  - cbn [read_response]. destruct (read_line id l) as [r|].
    + exists [l]. reflexivity.
    + exists (l :: read). cbn [app]. now rewrite <- IH.
Qed.

(** When the child exits without a line for the allocated id, Call fails
    with the end of the output as the cause, after it has written the
    request and read all there was. *)
Theorem Call_fails_when_child_exits (t t1 : StdioTransport)
  (method : string) (params : Params) (data : string) :
  after_start t t1 ->
  stdin_closed t1 = false ->
  json_Marshal (mkRequest "2.0" (wrap64 (reqID t1 + 1)) method params)
    = Ok data ->
  Forall (passed_over (wrap64 (reqID t1 + 1))) (stdout t1) ->
  exists t',
    Call t method params =
      Some (Err (Errorf "failed to read response: " io_EOF ""), t') /\
    stdout t' = [] /\
    stdin t' = (stdin t1 ++ [(data ++ nl)%string])%list /\
    reqID t' = wrap64 (reqID t1 + 1).
Proof.
  intros Hs Hopen Hm Hout.
  rewrite (Call_after_start t t1 method params Hs).
  unfold Call_locked. rewrite Hm. unfold Write.
  cbn [set_reqID stdin_closed stdin]. rewrite Hopen.
  cbn [set_stdin set_reqID stdout].
  rewrite (read_response_exhausted _ _ Hout).
  eexists. split; [reflexivity|]. cbn. auto.
Qed.

(** Whatever its outcome, a call on a started transport takes exactly one
    id, reads the output forward only, writes at most its own request line
    and leaves the process, the pipe and the flags as they were. *)
Theorem Call_one_id_forward_only (t : StdioTransport) (method : string)
  (params : Params) :
  started t = true ->
  exists r t',
    Call t method params = Some (r, t') /\
    reqID t' = wrap64 (reqID t + 1) /\
    (exists read, stdout t = (read ++ stdout t')%list) /\
    (stdin t' = stdin t \/
     exists data,
       json_Marshal (mkRequest "2.0" (wrap64 (reqID t + 1)) method params)
         = Ok data /\
       stdin t' = (stdin t ++ [(data ++ nl)%string])%list) /\
    started t' = true /\ startOnce t' = startOnce t /\
    spawns t' = spawns t /\ stdin_closed t' = stdin_closed t.
Proof.
  intros Hs. rewrite Call_unfold, Hs. cbn [negb].
  unfold Call_locked.
  destruct (json_Marshal _) as [data|e] eqn:Hm.
  - unfold Write. cbn [set_reqID stdin_closed stdin].
    destruct (stdin_closed t) eqn:Hc.
    + do 2 eexists. split; [reflexivity|]. cbn.
      repeat split; auto. exists []. reflexivity.
    + cbn [set_stdin set_reqID stdout].
      destruct (read_response_suffix (wrap64 (reqID t + 1)) (stdout t))
        as [read Hr].
      destruct (read_response _ _) as [r rest]. cbn [snd] in Hr.
      do 2 eexists. split; [reflexivity|]. cbn.
      repeat split; eauto.
  - do 2 eexists. split; [reflexivity|]. cbn.
    repeat split; auto. exists []. reflexivity.
Qed.

(** The handshake: a first Start on a process that spawns, with the answer
    to the initialize request in the child's output, returns nil.  It has
    written the initialize request and then the initialized notification,
    in that order and nothing else, read up to the answer, and left the
    transport started. *)
Theorem Start_handshake (t : StdioTransport) (data : string)
  (noise : list string) (line : string) (resp : JSONRPCResponse)
  (rest : list string) :
  startOnce t = false ->
  spawn_err t = None ->
  stdin_closed t = false ->
  json_Marshal
    (mkRequest "2.0" (wrap64 (reqID t + 1)) "initialize" initParams)
    = Ok data ->
  stdout t = (noise ++ line :: rest)%list ->
  Forall (passed_over (wrap64 (reqID t + 1))) noise ->
  json_Unmarshal line = Some resp ->
  ID resp = wrap64 (reqID t + 1) ->
  Error resp = None ->
  (Result resp <> None \/ wrap64 (reqID t + 1) <> 0%Z) ->
  exists t',
    Start Call t = Some (None, t') /\
    stdin t' =
      (stdin t ++
       [(data ++ nl)%string;
        (json_Marshal_notification
           (mkNotification "2.0" "notifications/initialized")
         ++ nl)%string])%list /\
    stdout t' = rest /\
    reqID t' = wrap64 (reqID t + 1) /\
    started t' = true /\ startOnce t' = true /\
    Process t' = true /\ spawns t' = S (spawns t).
Proof.
  intros Ho Hsp Hopen Hm Hout Hnoise Hu Hid Herr Hne.
  unfold Start. rewrite Ho. unfold cmd_Start. rewrite Hsp.
  unfold initialize. rewrite Call_unfold. cbn [set_started started negb].
  match goal with
  | |- context [Call_locked ?a ?b ?c] =>
      rewrite (Call_locked_answer a b c data noise line resp rest)
  end; cbn [reqID stdin_closed stdout]; auto.
  2:{ destruct Hne as [Hn|Hn]; auto. }
  rewrite Herr. unfold Write. cbn [set_stdout set_stdin set_reqID stdin_closed].
  rewrite Hopen. eexists. split; [reflexivity|].
  cbn. rewrite <- app_assoc. cbn. auto 10.
Qed.

(** The handshake refused: when the child answers the initialize request
    with an error object, Start returns that error, wrapped twice.  The
    notification is not written; the transport is left started with its
    [sync.Once] fired, so that the next Call goes straight to its round
    trip: the handshake is not made again. *)
Theorem Start_handshake_refused (t : StdioTransport) (data : string)
  (noise : list string) (line : string) (resp : JSONRPCResponse)
  (e : JSONRPCError) (rest : list string) :
  startOnce t = false ->
  spawn_err t = None ->
  stdin_closed t = false ->
  json_Marshal
    (mkRequest "2.0" (wrap64 (reqID t + 1)) "initialize" initParams)
    = Ok data ->
  stdout t = (noise ++ line :: rest)%list ->
  Forall (passed_over (wrap64 (reqID t + 1))) noise ->
  json_Unmarshal line = Some resp ->
  ID resp = wrap64 (reqID t + 1) ->
  Error resp = Some e ->
  exists t' err,
    Start Call t = Some (Some err, t') /\
    err = Errorf "failed to initialize MCP connection: "
            (Errorf "initialize failed: " (RPCError e) "") "" /\
    root_cause err = RPCError e /\
    stdin t' = (stdin t ++ [(data ++ nl)%string])%list /\
    stdout t' = rest /\
    started t' = true /\ startOnce t' = true /\
    forall method params,
      Call t' method params = Some (Call_locked t' method params).
Proof.
  intros Ho Hsp Hopen Hm Hout Hnoise Hu Hid Herr.
  unfold Start. rewrite Ho. unfold cmd_Start. rewrite Hsp.
  unfold initialize. rewrite Call_unfold. cbn [set_started started negb].
  match goal with
  | |- context [Call_locked ?a ?b ?c] =>
      rewrite (Call_locked_answer a b c data noise line resp rest)
  end; cbn [reqID stdin_closed stdout]; auto.
  2:{ right. left. rewrite Herr. discriminate. }
  rewrite Herr. do 2 eexists. split; [reflexivity|].
  cbn. repeat split; auto.
Qed.

(** A process that cannot be spawned: the first Call returns the error of
    Start, having allocated no id and written nothing.  Every later Call
    fails as well, without another attempt to spawn: Start now returns nil
    and the request meets the closed pipe (or is not marshalled). *)
Theorem Call_after_failed_spawn (t : StdioTransport) (e : error)
  (method : string) (params : Params) :
  started t = false ->
  startOnce t = false ->
  spawn_err t = Some e ->
  exists t1,
    Call t method params =
      Some (Err (Errorf "failed to start MCP server: " e ""), t1) /\
    reqID t1 = reqID t /\ stdin t1 = stdin t /\
    spawns t1 = S (spawns t) /\
    forall method' params',
      exists e' t2,
        Call t1 method' params' = Some (Err e', t2) /\
        (e' = Errorf "failed to write request: " os_ErrClosed "" \/
         exists m, e' = Errorf "failed to marshal request: " m "") /\
        spawns t2 = S (spawns t) /\ stdin t2 = stdin t.
Proof.
  intros Hs Ho He. rewrite Call_unfold, Hs. cbn [negb].
  unfold Start. rewrite Ho. unfold cmd_Start. rewrite He.
  eexists. split; [reflexivity|]. cbn. repeat split; auto.
  intros method' params'. rewrite Hs. cbn [negb].
  unfold Call_locked. cbn.
  destruct (json_Marshal _) as [data|m].
  - do 2 eexists. split; [reflexivity|]. cbn. auto.
  - do 2 eexists. split; [reflexivity|]. cbn. eauto.
Qed.

(** Close on a transport whose process runs closes the pipe to the child
    and kills the process: a Call made afterwards takes an id and fails at
    its write, with the output of the child left unread. *)
Theorem Call_after_Close (t : StdioTransport) (method : string)
  (params : Params) (data : string) :
  Process t = true ->
  started t = true ->
  json_Marshal (mkRequest "2.0" (wrap64 (reqID t + 1)) method params)
    = Ok data ->
  exists t',
    Call (snd (Close t)) method params =
      Some (Err (Errorf "failed to write request: " os_ErrClosed ""), t') /\
    stdout t' = stdout t /\ stdin t' = stdin t /\ killed t' = true /\
    reqID t' = wrap64 (reqID t + 1).
Proof.
  intros Hp Hs Hm. unfold Close. rewrite Hp. cbn [snd].
  rewrite Call_unfold. cbn [started]. rewrite Hs. cbn [negb].
  unfold Call_locked. cbn [reqID]. rewrite Hm.
  unfold Write. cbn. eexists. split; [reflexivity|]. auto.
Qed.

End TransportMore.

(** * More on the decoders *)

(** ** Tasks from several blocks *)
Section TaskBlocks.
Import strings mcp providers.

(** The tasks found so far are only added to. *)
Lemma parse_blocks_acc (taskBlocks : list string) (tasks : list Task) :
  parse_blocks tasks taskBlocks =
  option_map (app tasks) (parse_blocks [] taskBlocks).
Proof.
  revert tasks. induction taskBlocks as [|b bs IH]; intros tasks.
  - cbn. now rewrite app_nil_r.
  - cbn [parse_blocks].
    destruct (String.eqb (TrimSpace b) ""); [apply IH|].
    destruct (parseTaskBlock (TrimSpace b)) as [t|]; [|reflexivity].
    cbn [bind]. destruct (negb (String.eqb (Title t) "")); [|apply IH].
    rewrite (IH (tasks ++ [t])%list), (IH ([] ++ [t])%list).
    destruct (parse_blocks [] bs) as [ts|]; [|reflexivity].
    cbn. now rewrite <- app_assoc.
Qed.

Lemma parse_content_acc (blocks : list ContentBlock) (tasks : list Task) :
  parse_content tasks blocks =
  option_map (app tasks) (parse_content [] blocks).
Proof.
  revert tasks. induction blocks as [|b bs IH]; intros tasks.
  - cbn. now rewrite app_nil_r.
  - cbn [parse_content].
    destruct (String.eqb (Type_ b) "text" && negb (String.eqb (Text b) ""));
      [|apply IH].
    rewrite (parse_blocks_acc _ tasks).
    destruct (parse_blocks [] _) as [ts|]; [|reflexivity].
    cbn [option_map bind]. rewrite (IH (tasks ++ ts)%list), (IH ts).
    destruct (parse_content [] bs) as [ts'|]; [|reflexivity].
    cbn. now rewrite <- app_assoc.
Qed.

Lemma parse_content_app (b1 b2 : list ContentBlock) (tasks : list Task) :
  parse_content tasks (b1 ++ b2) =
  bind (parse_content tasks b1) (fun tasks' => parse_content tasks' b2).
Proof.
  revert tasks. induction b1 as [|b bs IH]; intros tasks; [reflexivity|].
  cbn [app parse_content].
  destruct (String.eqb (Type_ b) "text" && negb (String.eqb (Text b) ""));
    [|apply IH].
  destruct (parse_blocks tasks _) as [ts|]; [|reflexivity].
  cbn [bind]. apply IH.
Qed.

Lemma parseTasks_content (blocks : list ContentBlock) (e : bool) :
  parseTasks (mkToolResult blocks e) =
  bind (parse_content [] blocks) (fun tasks => Some (tasks, None)).
Proof. destruct blocks; reflexivity. Qed.

(** parseTasks reads every block of the envelope: the tasks of an envelope
    are those of its first blocks followed by those of its last blocks, for
    every way of cutting its content in two; a block that is not of type
    text, or whose text is empty, gives no task; and the flag IsError plays
    no part. *)
Theorem parseTasks_concatenates (b1 b2 : list ContentBlock) (e e1 e2 : bool) :
  exists tasks1 tasks2,
    parseTasks (mkToolResult b1 e1) = Some (tasks1, None) /\
    parseTasks (mkToolResult b2 e2) = Some (tasks2, None) /\
    parseTasks (mkToolResult (b1 ++ b2) e)
      = Some ((tasks1 ++ tasks2)%list, None) /\
    forall b,
      Type_ b <> "text" \/ Text b = "" ->
      parseTasks (mkToolResult (b1 ++ b :: b2) e)
        = Some ((tasks1 ++ tasks2)%list, None).
Proof.
  destruct (parse_content_returns b1 [] (Forall_nil _)) as (t1 & H1 & _).
  destruct (parse_content_returns b2 [] (Forall_nil _)) as (t2 & H2 & _).
  exists t1, t2. rewrite !parseTasks_content, H1, H2.
  repeat split.
  - rewrite parse_content_app, H1. cbn [bind].
    rewrite parse_content_acc, H2. reflexivity.
  - intros b Hb. rewrite parseTasks_content, parse_content_app, H1.
    cbn [bind parse_content].
    assert (Hskip : String.eqb (Type_ b) "text"
                    && negb (String.eqb (Text b) "") = false).
    { destruct Hb as [Hb|Hb].
      - destruct (String.eqb_spec (Type_ b) "text"); [contradiction|].
        reflexivity.
      - rewrite Hb. cbn. apply andb_false_r. }
    rewrite Hskip, parse_content_acc, H2. reflexivity.
Qed.

End TaskBlocks.

(** ** Events *)
Section EventsMore.
Import strings mcp providers.
Context `{json.Library} `{time.RFC3339}.

Lemma dec_elems_length {A : Type} (zero : A)
  (dec : json.value -> A -> A * option error) (items : list json.value)
  (backing : list A) :
  List.length (fst (json.dec_elems zero dec items backing))
  = List.length items.
Proof.
  revert backing. induction items as [|x xs IH]; intros backing; cbn.
  - reflexivity.
  - destruct (dec x _) as [a e].
    specialize (IH (tl backing)).
    destruct (json.dec_elems zero dec xs (tl backing)) as [r e'].
    cbn in *. now rewrite IH.
Qed.

Lemma dec_slice_length {A : Type} (type : string) (zero : A)
  (dec : json.value -> A -> A * option error) (items : list json.value)
  (cur : json.slice A) :
  List.length (json.live (fst (json.dec_slice type zero dec
                                 (json.JArray items) cur)))
  = List.length items.
Proof.
  destruct items as [|x xs]; [reflexivity|].
  unfold json.dec_slice.
  pose proof (dec_elems_length zero dec (x :: xs)
                (json.live cur ++ json.spare cur)) as Hl.
  destruct (json.dec_elems _ _ _ _) as [elems e]. exact Hl.
Qed.

Lemma convert_copies (ge : gcalEvent.t) (event : CalendarEvent.t) :
  convert ge = Some event -> copied ge event.
Proof.
  unfold convert.
  destruct (if negb _ then _ else _) as [calendar|]; [|discriminate].
  cbn [bind]. intros [= <-]. repeat split.
Qed.

Lemma convert_all_copies (ges : list gcalEvent.t) :
  exists events, convert_all ges = Some events /\ Forall2 copied ges events.
Proof.
  induction ges as [|ge ges (events & IH & Hf)]; cbn [convert_all].
  - exists []. split; [reflexivity | constructor].
  - destruct (convert_returns ge) as [event He]. rewrite He, IH.
    cbn [bind]. exists (event :: events). split; [reflexivity|].
    constructor; [now apply convert_copies | exact Hf].
Qed.

(** parseEvents keeps every element of the array, in order: an event of the
    array gives one record whatever it holds (no summary, no start), with
    its id, summary and location copied and no notes. *)
Theorem parseEvents_keeps_every_event (text : string)
  (items : list json.value) (ges : json.slice gcalEvent.t) :
  text <> "" ->
  json.Parse text = Ok (json.JArray items) ->
  dec_events (json.JArray items) json.nil_slice = (ges, None) ->
  exists events,
    parseEvents (mkToolResult [mkContentBlock "text" text] false)
      = Some (events, None) /\
    List.length events = List.length items /\
    Forall2 copied (json.live ges) events.
Proof.
  intros Hne Hp Hd.
  destruct (convert_all_copies (json.live ges)) as (events & Hc & Hf).
  exists events. rewrite (parseEvents_text text Hne).
  unfold json.Unmarshal. rewrite Hp, Hd, Hc. cbn [bind].
  split; [reflexivity|]. split; [|exact Hf].
  rewrite <- (Forall2_length Hf).
  pose proof (dec_slice_length "[]providers.gcalEvent" gcalEvent.zero
                dec_gcalEvent items json.nil_slice) as Hl.
  unfold dec_events in Hd. rewrite Hd in Hl. exact Hl.
Qed.

Lemma first_text_skips (pre : list ContentBlock) (rest : list ContentBlock) :
  Forall (fun b => Type_ b <> "text") pre ->
  first_text (pre ++ rest) = first_text rest.
Proof.
  induction 1 as [|b pre Hb _ IH]; [reflexivity|].
  unfold first_text in *. cbn [app find].
  destruct (String.eqb_spec (Type_ b) "text"); [contradiction | exact IH].
Qed.

(** parseEvents reads one block only, the first of type text: the blocks
    before it, which are of other types, and all the blocks after it,
    whatever they hold, change nothing; when the text of that block is empty
    there is no event, even if a later block holds some. *)
Theorem parseEvents_reads_first_text_block (pre post : list ContentBlock)
  (text : string) (e e' : bool) :
  Forall (fun b => Type_ b <> "text") pre ->
  parseEvents (mkToolResult (pre ++ mkContentBlock "text" text :: post) e)
  = parseEvents (mkToolResult [mkContentBlock "text" text] e') /\
  (text = "" ->
   parseEvents (mkToolResult (pre ++ mkContentBlock "text" text :: post) e)
   = Some ([], None)).
Proof.
  intros Hpre.
  assert (Hf : first_text (pre ++ mkContentBlock "text" text :: post) = text).
  { rewrite (first_text_skips pre _ Hpre). reflexivity. }
  assert (Hc : forall X (a b : X),
             match (pre ++ mkContentBlock "text" text :: post)%list with
             | [] => a
             | _ :: _ => b
             end = b).
  { intros X a b. destruct pre; reflexivity. }
  unfold parseEvents. cbn [Content]. rewrite Hc, Hf.
  change (first_text [mkContentBlock "text" text]) with text.
  split; [reflexivity|]. intros ->. reflexivity.
Qed.

(** The start of an event that has a start.dateTime: the time that
    time.Parse reads in it, or the zero time when it reads none, and the
    event is not an all-day event; start.date is not looked at, even when it
    is a date and start.dateTime is not a time. *)
Theorem start_dateTime_comes_first (ge : gcalEvent.t) :
  gcalDateTime.DateTime (gcalEvent.Start ge) <> "" ->
  exists event,
    convert ge = Some event /\
    CalendarEvent.AllDay event = false /\
    CalendarEvent.StartTime event =
      match time.Parse_RFC3339 (gcalDateTime.DateTime (gcalEvent.Start ge))
      with
      | Some t => t
      | None => time.zero
      end.
Proof.
  intros Hdt. destruct (convert_returns ge) as [event He].
  exists event. split; [exact He|].
  unfold convert in He.
  destruct (String.eqb_spec (gcalDateTime.DateTime (gcalEvent.Start ge)) "")
    as [E|_]; [contradiction|].
  cbn [negb] in He.
  destruct (if negb (String.eqb (gcalOrganizer.DisplayName _) "") then _
            else _) as [calendar|]; [|discriminate].
  cbn [bind] in He. injection He as <-. cbn.
  destruct (time.Parse_RFC3339 _); split; reflexivity.
Qed.

End EventsMore.

(** ** White space around the fields of a task *)
Section Trimmed.
Import strings mcp providers.

Lemma after_space_shorter (s r : string) :
  after_space s = Some r -> (String.length r < String.length s)%nat.
Proof.
  unfold after_space. destruct s as [|c0 [|c1 [|c2 r2]]];
    repeat match goal with
           | |- context [if ?b then _ else _] => destruct b
           end;
    intros [= <-]; cbn; lia.
Qed.

Lemma before_space_shorter (s r : string) :
  before_space s = Some r -> (String.length r < String.length s)%nat.
Proof.
  unfold before_space. destruct s as [|c0 [|c1 [|c2 r2]]];
    repeat match goal with
           | |- context [if ?b then _ else _] => destruct b
           end;
    intros [= <-]; cbn; lia.
Qed.

Lemma after_space_suffix (s r : string) :
  after_space s = Some r -> exists p, s = p ++ r.
Proof.
  unfold after_space. destruct s as [|c0 [|c1 [|c2 r2]]];
    repeat match goal with
           | |- context [if ?b then _ else _] => destruct b
           end;
    intros [= <-];
    first [ exists (String c0 ""); reflexivity
          | exists (String c0 (String c1 "")); reflexivity
          | exists (String c0 (String c1 (String c2 ""))); reflexivity ].
Qed.

Lemma before_space_suffix (s r : string) :
  before_space s = Some r -> exists p, s = p ++ r.
Proof.
  unfold before_space. destruct s as [|c0 [|c1 [|c2 r2]]];
    repeat match goal with
           | |- context [if ?b then _ else _] => destruct b
           end;
    intros [= <-];
    first [ exists (String c0 ""); reflexivity
          | exists (String c0 (String c1 "")); reflexivity
          | exists (String c0 (String c1 (String c2 ""))); reflexivity ].
Qed.

(** White space at the head of a text is at the head of every text that
    begins with it. *)
Lemma after_space_app (a b r : string) :
  after_space a = Some r -> after_space (a ++ b) = Some (r ++ b).
Proof.
  unfold after_space. destruct a as [|c0 [|c1 [|c2 r2]]]; cbn [append];
    try discriminate.
  - destruct (asciiSpace (nat_of_ascii c0)); [|discriminate].
    now intros [= <-].
  - destruct (asciiSpace (nat_of_ascii c0)); [now intros [= <-]|].
    destruct (space2 _ _); [|discriminate]. now intros [= <-].
  - destruct (asciiSpace (nat_of_ascii c0)); [now intros [= <-]|].
    destruct (space2 _ _); [now intros [= <-]|].
    destruct (space3 _ _ _); [|discriminate]. now intros [= <-].
Qed.

Section Strip.
Variable next : string -> option string.
Hypothesis shorter :
  forall s r, next s = Some r -> (String.length r < String.length s)%nat.
Hypothesis suffix : forall s r, next s = Some r -> exists p, s = p ++ r.

Lemma strip_done (fuel : nat) (s : string) :
  (String.length s <= fuel)%nat -> next (strip next fuel s) = None.
Proof.
  revert s. induction fuel as [|fuel IH]; intros s Hs; cbn [strip].
  - destruct (next s) as [r|] eqn:E; [|reflexivity].
    apply shorter in E. lia.
  - destruct (next s) as [r|] eqn:E; [|exact E].
    apply IH. apply shorter in E. lia.
Qed.

Lemma strip_stable (fuel : nat) (s : string) :
  next s = None -> strip next fuel s = s.
Proof. intros E. destruct fuel; cbn [strip]; [reflexivity | now rewrite E]. Qed.

Lemma strip_suffix (fuel : nat) (s : string) :
  exists p, s = p ++ strip next fuel s.
Proof.
  revert s. induction fuel as [|fuel IH]; intros s; cbn [strip].
  - exists "". reflexivity.
  - destruct (next s) as [r|] eqn:E; [|exists ""; reflexivity].
    destruct (suffix s r E) as [p ->]. destruct (IH r) as [p' Hp'].
    exists (p ++ p'). rewrite Hp' at 1.
    clear. induction p as [|c p IHp]; cbn; [reflexivity | now rewrite IHp].
Qed.

End Strip.

Lemma rev_onto_app (s acc : string) : rev_onto s acc = reverse s ++ acc.
Proof.
  unfold reverse. revert acc. induction s as [|c s IH]; intros acc; cbn.
  - reflexivity.
  - rewrite IH, (IH (String c "")), append_assoc. reflexivity.
Qed.

Lemma reverse_app (a b : string) : reverse (a ++ b) = reverse b ++ reverse a.
Proof.
  induction a as [|c a IH]; cbn [append].
  - cbn. now rewrite append_empty_r.
  - unfold reverse at 1 3. cbn [rev_onto]. rewrite !rev_onto_app, IH.
    apply append_assoc.
Qed.

Lemma reverse_reverse (s : string) : reverse (reverse s) = s.
Proof.
  induction s as [|c s IH]; [reflexivity|].
  unfold reverse at 2. cbn [rev_onto]. rewrite rev_onto_app, reverse_app, IH.
  reflexivity.
Qed.

Lemma reverse_length (s : string) : String.length (reverse s) = String.length s.
Proof.
  induction s as [|c s IH]; [reflexivity|].
  unfold reverse. cbn [rev_onto]. rewrite rev_onto_app, append_length, IH.
  cbn. lia.
Qed.

(** What TrimSpace answers has no white space at either end. *)
Lemma TrimSpace_trimmed (s : string) : trimmed (TrimSpace s).
Proof.
  unfold trimmed.
  unfold TrimSpace, TrimRightSpace.
  set (l := TrimLeftSpace s).
  assert (Hl : after_space l = None).
  { apply (strip_done after_space after_space_shorter). lia. }
  set (x := strip before_space (String.length l) (reverse l)).
  assert (Hx : before_space x = None).
  { apply (strip_done before_space before_space_shorter).
    rewrite reverse_length. lia. }
  rewrite reverse_reverse. split; [|exact Hx].
  destruct (strip_suffix before_space before_space_suffix
              (String.length l) (reverse l)) as [p Hp].
  fold x in Hp.
  assert (Hlx : l = reverse x ++ reverse p).
  { rewrite <- reverse_app, <- Hp. symmetry. apply reverse_reverse. }
  destruct (after_space (reverse x)) as [r|] eqn:E; [|reflexivity].
  apply (after_space_app _ (reverse p)) in E. rewrite <- Hlx in E.
  congruence.
Qed.

Ltac clean_fields :=
  unfold clean; cbn;
  repeat match goal with |- _ /\ _ => split end;
  try assumption.

Lemma trimmed_empty : trimmed "".
Proof. split; reflexivity. Qed.

Lemma clean_zero : clean Task_zero.
Proof. clean_fields; try apply trimmed_empty. constructor. Qed.

Lemma store_pair_clean (st : scanner) (key value : string) :
  clean (task st) -> trimmed value -> clean (task (store_pair st key value)).
Proof.
  intros (H1 & H2 & H3 & H4 & H5 & H6) Hv. unfold store_pair.
  repeat match goal with
         | |- context [if String.eqb ?a ?b then _ else _] =>
             destruct (String.eqb a b)
         | |- context [match time.Parse_DateOnly ?v with _ => _ end] =>
             destruct (time.Parse_DateOnly v)
         end; clean_fields.
Qed.

Lemma parse_pair_clean (st st' : scanner) (line : string) :
  clean (task st) -> parse_pair st line = Some st' -> clean (task st').
Proof.
  intros Hc. unfold parse_pair.
  destruct (0 <? Index line ":")%Z; [|now intros [= <-]].
  destruct (slice line 0 _) as [k|]; [|discriminate]. cbn [bind].
  destruct (slice line _ _) as [v|]; [|discriminate]. cbn [bind].
  intros [= <-]. apply store_pair_clean; [exact Hc|].
  apply TrimSpace_trimmed.
Qed.

Lemma notes_then_pair_clean (st st' : scanner) (line : string) :
  clean (task st) -> notes_then_pair st line = Some st' -> clean (task st').
Proof.
  intros Hc. unfold notes_then_pair.
  destruct (inNotes st); [|apply parse_pair_clean; exact Hc].
  destruct (ends_notes line).
  - apply parse_pair_clean.
    destruct Hc as (H1 & H2 & H3 & H4 & H5 & H6).
    clean_fields. apply TrimSpace_trimmed.
  - intros [= <-]. exact Hc.
Qed.

Lemma scan_line_clean (st st' : scanner) (raw : string) :
  clean (task st) -> scan_line st raw = Some st' -> clean (task st').
Proof.
  intros Hc. unfold scan_line.
  destruct (inChecklist st); [|apply notes_then_pair_clean; exact Hc].
  destruct (HasPrefix _ "□" || HasPrefix _ "☑").
  - intros [= <-].
    destruct Hc as (H1 & H2 & H3 & H4 & H5 & H6).
    clean_fields.
    apply Forall_app. split; [exact H6|].
    constructor; [|constructor]. split; [apply TrimSpace_trimmed|].
    cbn. destruct (HasPrefix _ "☑"); auto.
  - destruct (negb _ && negb _); [now intros [= <-]|].
    apply notes_then_pair_clean. exact Hc.
Qed.

Lemma scan_lines_clean (lines : list string) (st st' : scanner) :
  clean (task st) -> scan_lines st lines = Some st' -> clean (task st').
Proof.
  revert st. induction lines as [|raw lines IH]; intros st Hc; cbn [scan_lines].
  - now intros [= <-].
  - destruct (scan_line st raw) as [st1|] eqn:E; [|discriminate].
    cbn [bind]. apply IH. exact (scan_line_clean st st1 raw Hc E).
Qed.

Lemma parseTaskBlock_clean (block : string) (t : Task) :
  parseTaskBlock block = Some t -> clean t.
Proof.
  unfold parseTaskBlock.
  destruct (scan_lines scanner_init _) as [st|] eqn:E; [|discriminate].
  cbn [bind]. intros [= <-].
  pose proof (scan_lines_clean _ scanner_init _ clean_zero E) as Hc.
  destruct (inNotes st); [|exact Hc].
  destruct Hc as (H1 & H2 & H3 & H4 & H5 & H6).
  clean_fields. apply TrimSpace_trimmed.
Qed.

Lemma parse_blocks_clean (taskBlocks : list string) (tasks tasks' : list Task) :
  Forall clean tasks ->
  parse_blocks tasks taskBlocks = Some tasks' -> Forall clean tasks'.
Proof.
  revert tasks. induction taskBlocks as [|b bs IH]; intros tasks Hc;
    cbn [parse_blocks].
  - now intros [= <-].
  - destruct (String.eqb (TrimSpace b) ""); [now apply IH|].
    destruct (parseTaskBlock (TrimSpace b)) as [t|] eqn:E; [|discriminate].
    cbn [bind]. destruct (negb _); [|now apply IH].
    apply IH. apply Forall_app. split; [exact Hc|].
    constructor; [exact (parseTaskBlock_clean _ _ E) | constructor].
Qed.

Lemma parse_content_clean (blocks : list ContentBlock)
  (tasks tasks' : list Task) :
  Forall clean tasks ->
  parse_content tasks blocks = Some tasks' -> Forall clean tasks'.
Proof.
  revert tasks. induction blocks as [|b bs IH]; intros tasks Hc;
    cbn [parse_content].
  - now intros [= <-].
  - destruct (_ && _); [|now apply IH].
    destruct (parse_blocks tasks _) as [ts|] eqn:E; [|discriminate].
    cbn [bind]. apply IH. exact (parse_blocks_clean _ _ _ Hc E).
Qed.

(** Every task parseTasks returns is clean: its title, UUID, status, project
    and notes neither begin nor end with white space, and each of its
    checklist items has such a title and the status "incomplete" or
    "completed". *)
Theorem parsed_tasks_are_clean (result : ToolResult) :
  exists tasks,
    parseTasks result = Some (tasks, None) /\ Forall clean tasks.
Proof.
  destruct (parseTasks_returns result) as (tasks & Hp & _).
  exists tasks. split; [exact Hp|].
  unfold parseTasks in Hp. destruct (Content result) as [|b bs].
  - injection Hp as <-. constructor.
  - destruct (parse_content [] (b :: bs)) as [ts|] eqn:E; [|discriminate].
    cbn [bind] in Hp. injection Hp as <-.
    exact (parse_content_clean _ _ _ (Forall_nil _) E).
Qed.

End Trimmed.

Section CalendarName.
Import strings mcp providers.
Context `{json.Library} `{time.RFC3339}.



End CalendarName.

(** ** Areas *)
Section Areas.
Import strings mcp providers.
Context `{json.Library}.

Lemma parse_area_blocks_skip (b : ContentBlock) (rest : list ContentBlock)
  (areas : json.slice Area.t) :
  no_areas b ->
  parse_area_blocks areas (b :: rest) = parse_area_blocks areas rest.
Proof.
  intros Hb. cbn [parse_area_blocks].
  destruct (String.eqb_spec (Type_ b) "text") as [Et|Et]; [|reflexivity].
  destruct (String.eqb_spec (Text b) "") as [Ex|Ex]; [reflexivity|].
  cbn [andb negb].
  destruct Hb as [Hb|[Hb|[e Hb]]]; [contradiction | contradiction |].
  unfold json.Unmarshal. now rewrite Hb.
Qed.

Lemma parse_area_blocks_app (b1 b2 : list ContentBlock)
  (areas : json.slice Area.t) :
  parse_area_blocks areas (b1 ++ b2) =
  parse_area_blocks (parse_area_blocks areas b1) b2.
Proof.
  revert areas. induction b1 as [|b bs IH]; intros areas; [reflexivity|].
  cbn [app parse_area_blocks].
  destruct (String.eqb (Type_ b) "text" && negb (String.eqb (Text b) ""));
    [|apply IH].
  destruct (json.Unmarshal dec_areas (Text b) areas) as [areas' e]. apply IH.
Qed.

Lemma dec_Area_value (a cur : Area.t) :
  dec_Area (area_value a) cur = (a, None).
Proof. destruct a, cur. reflexivity. Qed.

Lemma dec_elems_areas (areas backing : list Area.t) :
  json.dec_elems Area.zero dec_Area (map area_value areas) backing
  = (areas, None).
Proof.
  revert backing. induction areas as [|a areas IH]; intros backing.
  - reflexivity.
  - cbn [map json.dec_elems]. rewrite dec_Area_value, IH. reflexivity.
Qed.

Lemma dec_areas_value (areas : list Area.t) (cur : json.slice Area.t) :
  json.live (fst (dec_areas (json.JArray (map area_value areas)) cur))
  = areas /\
  snd (dec_areas (json.JArray (map area_value areas)) cur) = None.
Proof.
  destruct areas as [|a areas]; [split; reflexivity|].
  unfold dec_areas, json.dec_slice.
  change (map area_value (a :: areas))
    with (area_value a :: map area_value areas).
  change (area_value a :: map area_value areas)
    with (map area_value (a :: areas)).
  rewrite dec_elems_areas. split; reflexivity.
Qed.

(** A block that is not of type text, is empty or is not JSON changes
    nothing to what parseAreas returns, wherever it stands among the blocks;
    and parseAreas never returns an error. *)
Theorem parseAreas_skips_unusable_blocks (pre post : list ContentBlock)
  (b : ContentBlock) (e : bool) :
  no_areas b ->
  parseAreas (mkToolResult (pre ++ b :: post) e)
  = parseAreas (mkToolResult (pre ++ post) e) /\
  snd (parseAreas (mkToolResult (pre ++ b :: post) e)) = None.
Proof.
  intros Hb. unfold parseAreas. cbn [Content].
  rewrite parse_area_blocks_app, (parse_area_blocks_skip b post _ Hb).
  rewrite <- parse_area_blocks_app.
  destruct pre as [|p pre]; cbn [app].
  - destruct post; split; reflexivity.
  - split; reflexivity.
Qed.

(** When the last block is the JSON array of some areas, each an object with
    its uuid and its title, parseAreas returns these areas, whatever the
    blocks before it held: nothing of an earlier block is left in them. *)
Theorem parseAreas_last_array_wins (pre : list ContentBlock)
  (b : ContentBlock) (e : bool) (areas : list Area.t) :
  Type_ b = "text" ->
  Text b <> "" ->
  json.Parse (Text b) = Ok (json.JArray (map area_value areas)) ->
  parseAreas (mkToolResult (pre ++ [b]) e) = (areas, None).
Proof.
  intros Ht Hx Hp. unfold parseAreas. cbn [Content].
  assert (Hc : forall X (x y : X),
             match (pre ++ [b])%list with [] => x | _ :: _ => y end = y).
  { intros X x y. destruct pre; reflexivity. }
  rewrite Hc, parse_area_blocks_app. cbn [parse_area_blocks].
  rewrite Ht. destruct (String.eqb_spec (Text b) ""); [contradiction|].
  cbn [String.eqb andb negb Ascii.eqb Bool.eqb].
  unfold json.Unmarshal. rewrite Hp.
  pose proof (dec_areas_value areas (parse_area_blocks json.nil_slice pre))
    as [Hl _].
  destruct (dec_areas _ _) as [areas' e']. cbn [fst] in Hl.
  now rewrite Hl.
Qed.

End Areas.

(** ** The provider, the client and the transport together *)
Section ThingsCalls.
Import Transport strings mcp providers.
Context `{Codec any} `{json.Library}.

(** When the server answers the tools/call request of GetToday with an error
    object, GetToday returns no task and an error that names the tool and
    wraps the object itself: same code, same message.  The transport stays
    open and started. *)
Theorem GetToday_protocol_error (t t1 : StdioTransport) (data : string)
  (noise : list string) (line : string) (resp : JSONRPCResponse)
  (e : JSONRPCError) (rest : list string) :
  after_start t t1 ->
  stdin_closed t1 = false ->
  json_Marshal (tool_request (wrap64 (reqID t1 + 1)) "get_today" (AMap []))
    = Ok data ->
  stdout t1 = (noise ++ line :: rest)%list ->
  Forall (passed_over (wrap64 (reqID t1 + 1))) noise ->
  json_Unmarshal line = Some resp ->
  ID resp = wrap64 (reqID t1 + 1) ->
  Error resp = Some e ->
  exists t' err,
    GetToday t = Some (([], Some err), t') /\
    err = Errorf "get_today failed: " (RPCError e) "" /\
    Error_string err =
      "get_today failed: JSON-RPC error " ++ itoa (Code e) ++ ": "
      ++ Message e /\
    root_cause err = RPCError e /\
    stdin_closed t' = false /\ started t' = started t1 /\ stdout t' = rest.
Proof.
  intros Hs Hopen Hm Hout Hnoise Hu Hid Herr.
  unfold GetToday, CallTool.
  rewrite (Call_after_start t t1 _ _ Hs).
  unfold tool_request in Hm.
  rewrite (Call_locked_answer t1 _ _ data noise line resp rest
             Hopen Hm Hout Hnoise Hu Hid
             ltac:(right; left; rewrite Herr; discriminate)).
  rewrite Herr. do 2 eexists. split; [reflexivity|].
  split; [reflexivity|]. cbn [Error_string root_cause].
  rewrite append_empty_r. destruct e as [c m]. cbn. auto.
Qed.

(** When the server answers with a result that is the JSON of a tool result
    with one text block, GetToday returns the tasks parseTasks finds in that
    text, with a nil error.  The flag isError of the tool result plays no
    part: a tool result that says it is an error is read like any other. *)
Theorem GetToday_tasks (t t1 : StdioTransport) (data : string)
  (noise : list string) (line : string) (resp : JSONRPCResponse)
  (bytes text : string) (flag : bool) (rest : list string) :
  after_start t t1 ->
  stdin_closed t1 = false ->
  json_Marshal (tool_request (wrap64 (reqID t1 + 1)) "get_today" (AMap []))
    = Ok data ->
  stdout t1 = (noise ++ line :: rest)%list ->
  Forall (passed_over (wrap64 (reqID t1 + 1))) noise ->
  json_Unmarshal line = Some resp ->
  ID resp = wrap64 (reqID t1 + 1) ->
  Result resp = Some bytes ->
  Error resp = None ->
  json.Parse bytes =
    Ok (json.JObject
          [("content",
            json.JArray
              [json.JObject
                 [("type", json.JString "text");
                  ("text", json.JString text)]]);
           ("isError", json.JBool flag)]) ->
  exists tasks t',
    GetToday t = Some ((tasks, None), t') /\
    parseTasks (mkToolResult [mkContentBlock "text" text] false)
      = Some (tasks, None) /\
    Forall titled tasks /\
    stdout t' = rest.
Proof.
  intros Hs Hopen Hm Hout Hnoise Hu Hid Hres Herr Hp.
  destruct (parseTasks_returns
              (mkToolResult [mkContentBlock "text" text] false))
    as (tasks & Ht & Hf).
  unfold GetToday, CallTool.
  rewrite (Call_after_start t t1 _ _ Hs).
  unfold tool_request in Hm.
  rewrite (Call_locked_answer t1 _ _ data noise line resp rest
             Hopen Hm Hout Hnoise Hu Hid
             ltac:(left; rewrite Hres; discriminate)).
  rewrite Herr, Hres. unfold json.Unmarshal. rewrite Hp.
  cbn -[parseTasks].
  change (parseTasks (mkToolResult [mkContentBlock "text" text] flag))
    with (parseTasks (mkToolResult [mkContentBlock "text" text] false)).
  rewrite Ht. cbn [bind]. do 2 eexists. split; [reflexivity|]. auto.
Qed.

End ThingsCalls.

(** ** The Tasks pane *)
Section TasksPane.
Import Transport strings providers tasks_pane.

Lemma index_in_range (ts : list Task) (i : Z) :
  (0 <= i < Z.of_nat (List.length ts))%Z ->
  exists task, index ts i = Some task.
Proof.
  intros Hi. unfold index.
  destruct (Z.ltb_spec i 0) as [Hn|_]; [lia|].
  destruct (nth_error ts (Z.to_nat i)) as [task|] eqn:E; [eauto|].
  apply nth_error_None in E. lia.
Qed.

Ltac key_case k :=
  destruct (String.eqb _ k); cbn [orb].

Lemma Update_on_a_row (m : Model) (msg : Msg) :
  on_a_row m ->
  exists m' cmd, Update m msg = Some (m', cmd) /\ on_a_row m'.
Proof.
  intros [H0 Hr]. unfold on_a_row.
  destruct msg as [key|loaded [e|]|id [e|]|]; cbn [Update].
  - destruct (focused m); cbn [negb]; [|do 2 eexists; split; eauto].
    unfold on_key.
    key_case "j"; [|key_case "down"].
    1,2: destruct (Z.ltb_spec (cursor m) (count m - 1));
      do 2 eexists; (split; [reflexivity|]); cbn; unfold count in *; cbn; lia.
    key_case "k"; [|key_case "up"].
    1,2: destruct (Z.ltb_spec 0 (cursor m));
      do 2 eexists; (split; [reflexivity|]); cbn; unfold count in *; cbn; lia.
    key_case "g".
    { do 2 eexists. split; [reflexivity|]. cbn. lia. }
    key_case "G".
    { destruct (Z.ltb_spec 0 (count m));
        do 2 eexists; (split; [reflexivity|]); cbn; unfold count in *; cbn;
        lia. }
    key_case " "; [|key_case "x"].
    1,2: destruct (Z.ltb_spec 0 (count m)) as [Hc|Hc];
      [destruct (index_in_range (tasks m) (cursor m)) as [task ->];
         [unfold count in *; lia|]; cbn [bind]
      |];
      do 2 eexists; (split; [reflexivity|]); cbn; unfold count in *; cbn;
      lia.
    key_case "d".
    { destruct (Z.ltb_spec 0 (count m)) as [Hc|Hc];
        [destruct (index_in_range (tasks m) (cursor m)) as [task ->];
           [unfold count in *; lia|]; cbn [bind]
        |];
        do 2 eexists; (split; [reflexivity|]); cbn; unfold count in *; cbn;
        lia. }
    key_case "r"; [|key_case "1"; [|key_case "2"; [|key_case "3";
      [|key_case "4"]]]].
    all: do 2 eexists; (split; [reflexivity|]); cbn; unfold count in *; cbn;
      lia.
  - do 2 eexists. split; [reflexivity|]. cbn. unfold count in *. cbn. lia.
  - match goal with
    | |- context [(?a <=? ?b)%Z] => destruct (Z.leb_spec a b)
    end; do 2 eexists; (split; [reflexivity|]); cbn in *;
      unfold count in *; cbn in *; lia.
  - do 2 eexists. split; [reflexivity|]. cbn. unfold count in *. cbn. lia.
  - do 2 eexists. split; [reflexivity|]. cbn. unfold count in *. cbn. lia.
  - do 2 eexists. split; [reflexivity|]. cbn. unfold count in *. cbn. lia.
Qed.

(** The cursor of the Tasks pane is always on a row of the list (on row 0
    when the list is empty): it is so in a new pane, and Update keeps it so
    whatever the message, as do SetSize, Focus and Blur.  So Update, which
    reads the row of the cursor for the keys space, x and d, never reads a
    row that is not there. *)
Theorem cursor_stays_on_a_row :
  on_a_row New /\
  forall m,
    on_a_row m ->
    (forall msg, exists m' cmd, Update m msg = Some (m', cmd) /\ on_a_row m') /\
    (forall w h, on_a_row (SetSize m w h)) /\
    on_a_row (Focus m) /\ on_a_row (Blur m).
Proof.
  split; [split; [cbn; lia | right; reflexivity]|].
  intros m Hm. split; [intros msg; now apply Update_on_a_row|].
  split; [intros w h; exact Hm|]. split; exact Hm.
Qed.

(** The space bar marks by UUID: with the pane in focus and the cursor on a
    row, one press flips the mark of the UUID of that row and of no other
    UUID, and leaves the tasks and the cursor as they are; a second press
    brings every mark back. *)
Theorem select_flips_one_uuid (m : Model) (task : Task) :
  focused m = true ->
  index (tasks m) (cursor m) = Some task ->
  exists m1 m2,
    Update m (KeyMsg " ") = Some (m1, Nil) /\
    Update m1 (KeyMsg " ") = Some (m2, Nil) /\
    selected m1 (UUID task) = negb (selected m (UUID task)) /\
    (forall uuid, uuid <> UUID task -> selected m1 uuid = selected m uuid) /\
    tasks m1 = tasks m /\ cursor m1 = cursor m /\
    (forall uuid, selected m2 uuid = selected m uuid).
Proof.
  intros Hf Hi.
  assert (Hc : (0 <? count m)%Z = true).
  { apply Z.ltb_lt. unfold count. unfold index in Hi.
    destruct (Z.ltb_spec (cursor m) 0); [discriminate|].
    destruct (tasks m); [|cbn; lia].
    destruct (Z.to_nat (cursor m)); discriminate. }
  cbn [Update]. rewrite Hf. cbn [negb]. unfold on_key at 1.
  cbn [String.eqb Ascii.eqb Bool.eqb andb orb]. rewrite Hc, Hi. cbn [bind].
  do 2 eexists. split; [reflexivity|].
  cbn [Update focused set_selected]. rewrite Hf. cbn [negb]. unfold on_key.
  cbn [String.eqb Ascii.eqb Bool.eqb andb orb].
  change (count (set_selected m _)) with (count m).
  cbn [tasks cursor set_selected]. rewrite Hc, Hi. cbn [bind].
  split; [reflexivity|]. cbn [selected set_selected tasks cursor].
  unfold map_set. rewrite String.eqb_refl.
  repeat split.
  - intros uuid Hu. destruct (String.eqb_spec uuid (UUID task));
      [contradiction | reflexivity].
  - intros uuid. destruct (String.eqb_spec uuid (UUID task)) as [->|];
      [apply negb_involutive | reflexivity].
Qed.

Section Styles.
Variables ListItemDone ListItemSelected ListItem : string -> string.

(** renderTask cuts a title with a slice that a narrow pane makes negative:
    for a pane less than 13 columns wide it panics as soon as the title is
    longer than the width less 10, which every title is when the pane is
    less than 10 columns wide, as it is before SetSize.  In a pane of 13
    columns or more it returns a row whose title has at most width - 10
    bytes: the title itself, or its first width - 13 bytes and three dots. *)
Theorem renderTask_narrow_pane_panics (m : Model) (task : Task)
  (isCursor isSelected : bool) :
  (- 2 ^ 63 + 13 <= width m < 2 ^ 63)%Z ->
  (renderTask ListItemDone ListItemSelected ListItem m task isCursor
     isSelected = None
   <-> (width m < 13 /\ width m - 10 < len (Title task))%Z) /\
  ((13 <= width m)%Z ->
   exists title,
     renderTask ListItemDone ListItemSelected ListItem m task isCursor
       isSelected
     = Some (row_style ListItemDone ListItemSelected ListItem task isCursor
               ((if isCursor then "> " else "  ")
                ++ (if String.eqb (Status task) "completed" then "[x]"
                    else if isSelected then "[*]" else "[ ]")
                ++ " " ++ title)) /\
     (len title <= width m - 10)%Z /\
     (title = Title task \/
      title = substring 0 (Z.to_nat (width m - 13)) (Title task) ++ "...")).
Proof.
  intros Hw. unfold renderTask, row_style.
  rewrite !wrap64_in_range by lia.
  pose proof (Zle_0_nat (String.length (Title task))) as Hlen.
  fold (len (Title task)) in Hlen.
  destruct (Z.ltb_spec (width m - 10) (len (Title task))) as [Hlong|Hshort].
  - unfold slice.
    destruct (Z.leb_spec 0 (width m - 13)) as [Hpos|Hneg]; cbn [andb].
    + destruct (Z.leb_spec (width m - 13) (len (Title task))); [|lia].
      cbn [bind]. split.
      * split; [discriminate | lia].
      * intros _. eexists. split; [reflexivity|].
        rewrite Z.sub_0_r. split; [|now right].
        unfold len in *. rewrite append_length, substring_length_exact by lia.
        cbn [String.length]. lia.
    + cbn [bind]. split; [split; [lia | reflexivity] | lia].
  - cbn [bind]. split.
    + split; [discriminate | lia].
    + intros _. eexists. split; [reflexivity|]. split; [lia | now left].
Qed.

Lemma renderTask_wide (m : Model) (task : Task) (isCursor isSelected : bool) :
  (13 <= width m < 2 ^ 63)%Z ->
  exists line,
    renderTask ListItemDone ListItemSelected ListItem m task isCursor
      isSelected = Some line.
Proof.
  intros Hw. unfold renderTask. rewrite !wrap64_in_range by lia.
  pose proof (Zle_0_nat (String.length (Title task))) as Hlen.
  fold (len (Title task)) in Hlen.
  destruct (Z.ltb_spec (width m - 10) (len (Title task))) as [Hlong|Hshort].
  - rewrite slice_in_range by lia. cbn [bind]. eauto.
  - cbn [bind]. eauto.
Qed.

(** The loop over the rows of a window that lies within the tasks. *)
Lemma render_rows_in_range (m : Model) (k : nat) (i : Z) :
  (13 <= width m < 2 ^ 63)%Z ->
  (0 <= i)%Z -> (i + Z.of_nat k <= count m)%Z ->
  exists rows,
    render_rows ListItemDone ListItemSelected ListItem m i k = Some rows /\
    List.length rows = k /\
    forall j, (j < k)%nat ->
      exists task line,
        index (tasks m) (i + Z.of_nat j) = Some task /\
        renderTask ListItemDone ListItemSelected ListItem m task
          (i + Z.of_nat j =? cursor m)%Z (selected m (UUID task))
        = Some line /\
        nth_error rows j = Some (line ++ nl).
Proof.
  intros Hw. revert i. induction k as [|k IH]; intros i Hi Hk.
  - exists []. repeat split. intros j Hj. lia.
  - cbn [render_rows].
    destruct (index_in_range (tasks m) i) as [task Ht];
      [unfold count in Hk; lia|].
    rewrite Ht. cbn [bind].
    destruct (renderTask_wide m task (i =? cursor m)%Z
                (selected m (UUID task)) Hw) as [line Hl].
    rewrite Hl. cbn [bind].
    destruct (IH (i + 1)%Z) as (rows & Hr & Hlen & Hnth); [lia | lia |].
    rewrite Hr. cbn [bind]. eexists. split; [reflexivity|].
    split; [cbn; now rewrite Hlen|].
    intros [|j] Hj.
    + rewrite Z.add_0_r. exists task, line. auto.
    + destruct (Hnth j) as (task' & line' & H1 & H2 & H3); [lia|].
      replace (i + Z.of_nat (S j))%Z with (i + 1 + Z.of_nat j)%Z by lia.
      exists task', line'. auto.
Qed.

(** The rows View shows, when the cursor is on a row and the pane is at
    least 5 lines high and 13 columns wide: they are rows of the list, in
    number at most the height less 4, the row of the cursor is among them,
    and the loop renders them all, the row of the cursor as such. *)
Theorem View_shows_the_cursor_row (m : Model) :
  (0 <= cursor m < count m)%Z ->
  (count m < 2 ^ 62)%Z ->
  (5 <= height m < 2 ^ 62)%Z ->
  (13 <= width m < 2 ^ 63)%Z ->
  let start := fst (window m) in
  let end_ := snd (window m) in
  (0 <= start <= cursor m)%Z /\ (cursor m < end_ <= count m)%Z /\
  (end_ - start <= height m - 4)%Z /\
  exists rows task line,
    View_rows ListItemDone ListItemSelected ListItem m = Some rows /\
    List.length rows = Z.to_nat (end_ - start) /\
    index (tasks m) (cursor m) = Some task /\
    renderTask ListItemDone ListItemSelected ListItem m task true
      (selected m (UUID task)) = Some line /\
    nth_error rows (Z.to_nat (cursor m - start)) = Some (line ++ nl).
Proof.
  intros Hc Hn Hh Hw. unfold View_rows, window.
  rewrite (wrap64_in_range (height m - 4)) by lia.
  assert (Hs : (if (height m - 4 <=? cursor m)%Z
                then wrap64 (wrap64 (cursor m - (height m - 4)) + 1)
                else 0%Z)
               = (if (height m - 4 <=? cursor m)%Z
                  then (cursor m - (height m - 4) + 1)%Z else 0%Z)).
  { destruct (Z.leb_spec (height m - 4) (cursor m)); [|reflexivity].
    rewrite (wrap64_in_range (cursor m - (height m - 4))) by lia.
    apply wrap64_in_range. lia. }
  rewrite Hs. clear Hs.
  set (start := if (height m - 4 <=? cursor m)%Z
                then (cursor m - (height m - 4) + 1)%Z else 0%Z).
  assert (Hstart : (0 <= start <= cursor m)%Z
                   /\ (cursor m < start + (height m - 4))%Z).
  { subst start. destruct (Z.leb_spec (height m - 4) (cursor m)); lia. }
  rewrite (wrap64_in_range (start + (height m - 4))) by lia.
  cbn [fst snd].
  set (end_ := Z.min (start + (height m - 4)) (count m)).
  assert (Hend : (cursor m < end_ <= count m)%Z
                 /\ (end_ - start <= height m - 4)%Z).
  { subst end_. lia. }
  split; [lia|]. split; [lia|]. split; [lia|].
  destruct (render_rows_in_range m (Z.to_nat (end_ - start)) start Hw)
    as (rows & Hr & Hlen & Hnth); [lia | lia |].
  destruct (Hnth (Z.to_nat (cursor m - start))) as (task & line & H1 & H2 & H3);
    [lia|].
  replace (start + Z.of_nat (Z.to_nat (cursor m - start)))%Z
    with (cursor m) in H1, H2 by lia.
  rewrite Z.eqb_refl in H2.
  exists rows, task, line. auto.
Qed.

End Styles.

End TasksPane.

(** ** The Calendar pane *)
Section CalendarPane.
Import Transport strings providers calendar_pane.

Section Styles.
Variables Muted ListItem : string -> string.

Lemma short_slice (s : string) (n : Z) :
  (0 <= n < len s)%Z -> exists pre, slice s 0 n = Some pre.
Proof. intros Hn. rewrite slice_in_range by lia. eauto. Qed.

(** renderEvent cuts a title that does not fit with a slice that ends three
    bytes before the room there is: in a pane 26 or 27 columns wide the room
    is 1 or 2 bytes, and renderEvent panics on every event whose title is
    longer than that.  At every other width it returns. *)
Theorem renderEvent_panics_at_26_and_27 (m : Model)
  (event : CalendarEvent.t) :
  (- 2 ^ 63 + 28 <= width m < 2 ^ 63)%Z ->
  renderEvent Muted ListItem m event = None <->
  (26 <= width m <= 27 /\
   width m - 25 < len (CalendarEvent.Title event))%Z.
Proof.
  intros Hw. unfold renderEvent.
  rewrite (wrap64_in_range (width m - 25)) by lia.
  rewrite (wrap64_in_range (width m - 25 - 3)) by lia.
  pose proof (Zle_0_nat (String.length (CalendarEvent.Title event))) as Hlen.
  fold (len (CalendarEvent.Title event)) in Hlen.
  assert (Htail : forall line : string,
    (line' <-
       (if negb (String.eqb (CalendarEvent.Calendar event) "") then
          calShort <-
            (if (10 <? len (CalendarEvent.Calendar event))%Z
             then slice (CalendarEvent.Calendar event) 0 10
             else Some (CalendarEvent.Calendar event)) ;;
          Some (line ++ Muted (" [" ++ calShort ++ "]"))
        else Some line) ;;
     if negb (String.eqb (CalendarEvent.Location event) "") then
       loc <-
         (if (20 <? len (CalendarEvent.Location event))%Z
          then
            pre <- slice (CalendarEvent.Location event) 0 17 ;;
            Some (pre ++ "...")
          else Some (CalendarEvent.Location event)) ;;
       Some (line' ++ Muted (" @ " ++ loc))
     else Some line') <> None).
  { intros line.
    assert (Hcal : exists line',
      (if negb (String.eqb (CalendarEvent.Calendar event) "") then
          calShort <-
            (if (10 <? len (CalendarEvent.Calendar event))%Z
             then slice (CalendarEvent.Calendar event) 0 10
             else Some (CalendarEvent.Calendar event)) ;;
          Some (line ++ Muted (" [" ++ calShort ++ "]"))
        else Some line) = Some line').
    { destruct (negb _); [|eauto].
      destruct (Z.ltb_spec 10 (len (CalendarEvent.Calendar event))).
      - destruct (short_slice (CalendarEvent.Calendar event) 10) as [p ->];
          [lia|]. cbn [bind]. eauto.
      - cbn [bind]. eauto. }
    destruct Hcal as [line' ->]. cbn [bind].
    destruct (negb _); [|discriminate].
    destruct (Z.ltb_spec 20 (len (CalendarEvent.Location event))).
    - destruct (short_slice (CalendarEvent.Location event) 17) as [p ->];
        [lia|]. cbn [bind]. discriminate.
    - cbn [bind]. discriminate. }
  destruct (Z.ltb_spec 0 (width m - 25)) as [Hpos|Hneg]; cbn [andb].
  - destruct (Z.ltb_spec (width m - 25) (len (CalendarEvent.Title event)))
      as [Hlong|Hshort].
    + unfold slice at 1.
      destruct (Z.leb_spec 0 (width m - 25 - 3)) as [H3|H3]; cbn [andb].
      * destruct (Z.leb_spec (width m - 25 - 3)
                    (len (CalendarEvent.Title event))); [|lia].
        cbn [bind]. split; [intros Hn; now apply Htail in Hn | lia].
      * cbn [bind]. split; [lia | reflexivity].
    + cbn [bind]. split; [intros Hn; now apply Htail in Hn | lia].
  - cbn [bind]. split; [intros Hn; now apply Htail in Hn | lia].
Qed.

End Styles.

Lemma group_filter (evs : list CalendarEvent.t)
  (result : string -> list CalendarEvent.t) (key : string) :
  group result evs key =
  (result key ++
   filter (fun event =>
             String.eqb key
               (time.Format_DateOnly (CalendarEvent.StartTime event)))
     evs)%list.
Proof.
  revert result. induction evs as [|event evs IH]; intros result.
  - cbn. now rewrite app_nil_r.
  - cbn [group filter]. rewrite IH.
    destruct (String.eqb key _); [|reflexivity].
    now rewrite <- app_assoc.
Qed.

Lemma groupEventsByDate_sorts_by_shown_date_aux (m : Model) (key : string) :
  groupEventsByDate m key =
  filter (fun event =>
            String.eqb key
              (time.Format_DateOnly (CalendarEvent.StartTime event)))
    (events m).
Proof. unfold groupEventsByDate. now rewrite group_filter. Qed.

(** groupEventsByDate files the events under the date their start shows:
    under each date are the events of the pane that show it, all of them and
    no other, in the order of the list; an event is under one date only. *)
Theorem groupEventsByDate_sorts_by_shown_date (m : Model) (key : string) :
  groupEventsByDate m key =
  filter (fun event =>
            String.eqb key
              (time.Format_DateOnly (CalendarEvent.StartTime event)))
    (events m) /\
  forall event,
    In event (groupEventsByDate m key) <->
    In event (events m) /\
    key = time.Format_DateOnly (CalendarEvent.StartTime event).
Proof.
  rewrite groupEventsByDate_sorts_by_shown_date_aux. split; [reflexivity|].
  intros event. rewrite filter_In, String.eqb_eq. reflexivity.
Qed.

(** formatDateHeader compares the midnight of the date, which time.Parse has
    put in UTC, with the midnight that begins today in the zone of the
    clock: when that zone is not at offset zero the two are never the same
    instant, nor a day apart, and no date is ever headed Today or
    Tomorrow. *)
Theorem formatDateHeader_no_today_off_utc (local : Z) (now : time.Time)
  (dateStr : string) :
  time.offset_of local (time.Loc now) <> 0%Z ->
  (- 86400 < time.offset_of local (time.Loc now) < 86400)%Z ->
  formatDateHeader local now dateStr =
  match time.Parse_DateOnly dateStr with
  | Some t => time.Format_Mon_Jan_2 t
  | None => dateStr
  end.
Proof.
  intros Hnz Hoff. unfold formatDateHeader.
  destruct (time.Parse_DateOnly dateStr) as [t|] eqn:Hp; [|reflexivity].
  assert (Hutc : time.Loc t = time.UTC).
  { unfold time.Parse_DateOnly in Hp.
    repeat match type of Hp with
           | match ?s with EmptyString => _ | String _ _ => _ end = _ =>
               destruct s; try discriminate
           | (if ?b then _ else _) = _ => destruct b; try discriminate
           end.
    now injection Hp as <-. }
  unfold time.Equal, time.Equal_Add, time.Unix. cbn [time.Year time.Month
    time.Day time.Hour time.Minute time.Second time.Loc time.Nanosecond].
  rewrite Hutc. fold (time.offset_of local (time.Loc now)).
  set (d1 := time.days_from_civil (time.Year t) (time.Month t) (time.Day t)).
  set (d2 := time.days_from_civil (time.Year now) (time.Month now)
               (time.Day now)).
  set (off := time.offset_of local (time.Loc now)) in *.
  destruct (Z.eqb_spec (d1 * 86400 + 0 * 3600 + 0 * 60 + 0 - 0)
              (d2 * 86400 + 0 * 3600 + 0 * 60 + 0 - off + 0)) as [E|_];
    [exfalso; lia|].
  cbn [andb].
  destruct (Z.eqb_spec (d1 * 86400 + 0 * 3600 + 0 * 60 + 0 - 0)
              (d2 * 86400 + 0 * 3600 + 0 * 60 + 0 - off + 86400)) as [E|_];
    [exfalso; lia|].
  reflexivity.
Qed.

End CalendarPane.

Section CalendarRows.
Import Transport strings providers calendar_pane.
Variables Muted ListItem : string -> string.

(** The clock Format writes for an hour and a minute of the day has 7 or 8
    characters. *)
Lemma clock_width_checked :
  forallb
    (fun h =>
       forallb
         (fun mi =>
            let s :=
              time.Format_3_04_PM
                (time.Date 0 0 0 (Z.of_nat h) (Z.of_nat mi) 0 0 time.UTC) in
            (7 <=? String.length s)%nat && (String.length s <=? 8)%nat)
         (seq 0 60))
    (seq 0 24) = true.
Proof. vm_compute. reflexivity. Qed.

Lemma clock_width (t : time.Time) :
  (0 <= time.Hour t <= 23)%Z -> (0 <= time.Minute t <= 59)%Z ->
  (7 <= String.length (time.Format_3_04_PM t) <= 8)%nat.
Proof.
  intros Hh Hm.
  pose proof (proj1 (forallb_forall _ _) clock_width_checked
                (Z.to_nat (time.Hour t)) ltac:(apply in_seq; lia)) as Hf.
  cbv beta in Hf.
  pose proof (proj1 (forallb_forall _ _) Hf
                (Z.to_nat (time.Minute t)) ltac:(apply in_seq; lia)) as Hg.
  cbv beta zeta in Hg. rewrite !Z2Nat.id in Hg by lia.
  change (time.Format_3_04_PM
            (time.Date 0 0 0 (time.Hour t) (time.Minute t) 0 0 time.UTC))
    with (time.Format_3_04_PM t) in Hg.
  apply andb_prop in Hg. destruct Hg as [H7 H8].
  apply Nat.leb_le in H7, H8. lia.
Qed.

Lemma blanks_length (n : nat) : String.length (blanks n) = n.
Proof. induction n as [|n IH]; cbn; [reflexivity | now rewrite IH]. Qed.

Lemma pad8_length (s : string) :
  (String.length s <= 8)%nat -> String.length (pad8 s) = 8%nat.
Proof.
  intros Hs. unfold pad8. rewrite append_length, blanks_length. lia.
Qed.

(** A text cut to its first [n] bytes when it has more than [limit]. *)
Lemma cut_bounds (s : string) (limit n : Z) (dots : string) :
  (0 <= n)%Z -> (n + len dots <= limit)%Z ->
  exists shown,
    (if (limit <? len s)%Z
     then pre <- slice s 0 n ;; Some (pre ++ dots)
     else Some s) = Some shown /\
    (len shown <= limit)%Z /\
    (shown = s \/ shown = substring 0 (Z.to_nat n) s ++ dots).
Proof.
  intros Hn Hl. pose proof (Zle_0_nat (String.length dots)) as Hd.
  fold (len dots) in Hd.
  destruct (Z.ltb_spec limit (len s)) as [Hlong|Hshort].
  - rewrite slice_in_range by lia. cbn [bind]. eexists.
    split; [reflexivity|]. rewrite Z.sub_0_r. split; [|now right].
    unfold len in *. rewrite append_length, substring_length_exact by lia.
    lia.
  - eexists. split; [reflexivity|]. split; [lia | now left].
Qed.

(** In a pane at least 28 columns wide, the row of an event is made of a
    time column of exactly 8 characters (the clock of its start, or "All
    day"), a title of at most width - 25 bytes, the name of its calendar cut
    to 10 bytes and its location cut to 20 bytes, each cut being the text
    itself or a beginning of it. *)
Theorem renderEvent_row (m : Model) (event : CalendarEvent.t) :
  (28 <= width m < 2 ^ 63)%Z ->
  (0 <= time.Hour (CalendarEvent.StartTime event) <= 23)%Z ->
  (0 <= time.Minute (CalendarEvent.StartTime event) <= 59)%Z ->
  exists col title cal loc,
    renderEvent Muted ListItem m event =
      Some ((("  " ++ Muted col ++ "  " ++ ListItem title)
             ++ (if String.eqb (CalendarEvent.Calendar event) "" then ""
                 else Muted (" [" ++ cal ++ "]")))
            ++ (if String.eqb (CalendarEvent.Location event) "" then ""
                else Muted (" @ " ++ loc))) /\
    String.length col = 8%nat /\
    (len title <= width m - 25)%Z /\
    (title = CalendarEvent.Title event \/
     title = substring 0 (Z.to_nat (width m - 28))
               (CalendarEvent.Title event) ++ "...") /\
    (len cal <= 10)%Z /\
    (cal = CalendarEvent.Calendar event \/
     cal = substring 0 10 (CalendarEvent.Calendar event)) /\
    (len loc <= 20)%Z /\
    (loc = CalendarEvent.Location event \/
     loc = substring 0 17 (CalendarEvent.Location event) ++ "...").
Proof.
  intros Hw Hh Hm. unfold renderEvent.
  rewrite (wrap64_in_range (width m - 25)) by lia.
  rewrite (wrap64_in_range (width m - 25 - 3)) by lia.
  destruct (Z.ltb_spec 0 (width m - 25)); [|lia]. cbn [andb].
  destruct (cut_bounds (CalendarEvent.Title event) (width m - 25)
              (width m - 25 - 3) "...") as (title & -> & Ht & Hts);
    [lia | cbn; lia |].
  replace (width m - 25 - 3)%Z with (width m - 28)%Z in Hts by lia.
  cbn [bind].
  destruct (cut_bounds (CalendarEvent.Calendar event) 10 10 "")
    as (cal & Hc & Hcl & Hcs); [lia | cbn; lia |].
  destruct (cut_bounds (CalendarEvent.Location event) 20 17 "...")
    as (loc & Hl & Hll & Hls); [lia | cbn; lia |].
  rewrite append_empty_r in Hcs.
  set (col := pad8 (if CalendarEvent.AllDay event then "All day"
                    else time.Format_3_04_PM (CalendarEvent.StartTime event))).
  exists col, title, cal, loc.
  assert (Hcol : String.length col = 8%nat).
  { subst col. apply pad8_length. destruct (CalendarEvent.AllDay event).
    - cbn. lia.
    - pose proof (clock_width _ Hh Hm). lia. }
  assert (Hc' : (if (10 <? len (CalendarEvent.Calendar event))%Z
                 then slice (CalendarEvent.Calendar event) 0 10
                 else Some (CalendarEvent.Calendar event)) = Some cal).
  { destruct (10 <? len (CalendarEvent.Calendar event))%Z; [|exact Hc].
    destruct (slice (CalendarEvent.Calendar event) 0 10) as [p|];
      [|discriminate].
    cbn [bind] in Hc. now rewrite append_empty_r in Hc. }
  rewrite Hc', Hl.
  split; [|auto 10].
  destruct (String.eqb (CalendarEvent.Calendar event) "");
    destruct (String.eqb (CalendarEvent.Location event) "");
    cbn [negb bind]; rewrite ?append_empty_r; reflexivity.
Qed.

(** Update never takes the cursor below row 0, and a key keeps it on a row
    of the list when it is on one.  A load puts the new events in place and
    leaves the cursor where it was, be it beyond the last of them. *)
Theorem calendar_cursor (m : Model) (msg : Msg) :
  (0 <= cursor m)%Z ->
  (0 <= cursor (fst (Update m msg)))%Z /\
  match msg with
  | KeyMsg _ =>
      events (fst (Update m msg)) = events m /\
      ((cursor m < count m)%Z ->
       (cursor (fst (Update m msg)) < count (fst (Update m msg)))%Z)
  | EventsLoadedMsg loaded failure =>
      cursor (fst (Update m msg)) = cursor m /\
      events (fst (Update m msg)) =
        match failure with Some _ => events m | None => loaded end
  | OtherMsg => fst (Update m msg) = m
  end.
Proof.
  intros H0. destruct msg as [key|loaded [e|]|]; [|cbn; auto ..].
  cbn [Update].
  destruct (focused m); cbn [negb]; [|cbn; auto].
  repeat match goal with
         | |- context [String.eqb key ?k] =>
             destruct (String.eqb key k); cbn [orb]
         end;
    repeat match goal with
           | |- context [(?a <? ?b)%Z] => destruct (Z.ltb_spec a b)
           end;
    cbn; unfold count in *; cbn; repeat split; auto; lia.
Qed.

End CalendarRows.

(** ** Dates as keys *)
Section DateKeys.
Import time.

(** The four digits Format writes for a year from 0 to 9999, and the two it
    writes for a number below 100, are read back by Parse. *)
Lemma four_digits_read_back :
  forallb
    (fun n =>
       match appendInt (Z.of_nat n) 4 with
       | String a (String b (String c (String d EmptyString))) =>
           isDigit a && isDigit b && isDigit c && isDigit d
           && (digit a * 1000 + digit b * 100 + digit c * 10 + digit d
               =? Z.of_nat n)%Z
       | _ => false
       end)
    (seq 0 (100 * 100)) = true.
Proof. vm_compute. reflexivity. Qed.

Lemma two_digits_read_back :
  forallb
    (fun n =>
       match appendInt (Z.of_nat n) 2 with
       | String a (String b EmptyString) =>
           isDigit a && isDigit b
           && (digit a * 10 + digit b =? Z.of_nat n)%Z
       | _ => false
       end)
    (seq 0 100) = true.
Proof. vm_compute. reflexivity. Qed.

Lemma four_digits (y : Z) :
  (0 <= y <= 9999)%Z ->
  exists a b c d,
    appendInt y 4 = String a (String b (String c (String d EmptyString))) /\
    isDigit a = true /\ isDigit b = true /\ isDigit c = true /\
    isDigit d = true /\
    (digit a * 1000 + digit b * 100 + digit c * 10 + digit d = y)%Z.
Proof.
  intros Hy.
  pose proof (proj1 (forallb_forall _ _) four_digits_read_back (Z.to_nat y))
    as Hf.
  cbv beta in Hf. rewrite Z2Nat.id in Hf by lia.
  specialize (Hf ltac:(apply in_seq; lia)).
  destruct (appendInt y 4) as [|a [|b [|c [|d [|]]]]]; try discriminate.
  apply andb_prop in Hf. destruct Hf as [Hf He].
  apply andb_prop in Hf. destruct Hf as [Hf Hd].
  apply andb_prop in Hf. destruct Hf as [Hf Hc].
  apply andb_prop in Hf. destruct Hf as [Ha Hb].
  apply Z.eqb_eq in He. exists a, b, c, d. auto 10.
Qed.

Lemma two_digits (x : Z) :
  (0 <= x <= 99)%Z ->
  exists a b,
    appendInt x 2 = String a (String b EmptyString) /\
    isDigit a = true /\ isDigit b = true /\
    (digit a * 10 + digit b = x)%Z.
Proof.
  intros Hx.
  pose proof (proj1 (forallb_forall _ _) two_digits_read_back (Z.to_nat x))
    as Hf.
  cbv beta in Hf. rewrite Z2Nat.id in Hf by lia.
  specialize (Hf ltac:(apply in_seq; lia)).
  destruct (appendInt x 2) as [|a [|b [|]]]; try discriminate.
  apply andb_prop in Hf. destruct Hf as [Hf He].
  apply andb_prop in Hf. destruct Hf as [Ha Hb].
  apply Z.eqb_eq in He. exists a, b. auto.
Qed.

Lemma daysIn_le_31 (month year : Z) : (daysIn month year <= 31)%Z.
Proof.
  unfold daysIn. destruct (month =? 2)%Z; [destruct (isLeap year); lia|].
  destruct (_ || _); lia.
Qed.

(** The layout 2006-01-02 written by Format, for a date of the years 0 to
    9999, is parsed by time.Parse into the same year, month and day, at
    midnight in UTC. *)
Lemma Parse_Format_DateOnly (t : Time) :
  (0 <= Year t <= 9999)%Z ->
  (1 <= Month t <= 12)%Z ->
  (1 <= Day t <= daysIn (Month t) (Year t))%Z ->
  Parse_DateOnly (Format_DateOnly t)
  = Some (Date (Year t) (Month t) (Day t) 0 0 0 0 UTC).
Proof.
  intros Hy Hm Hd. unfold Format_DateOnly.
  pose proof (daysIn_le_31 (Month t) (Year t)) as H31.
  destruct (four_digits (Year t) Hy)
    as (y1 & y2 & y3 & y4 & -> & Hy1 & Hy2 & Hy3 & Hy4 & Hyv).
  destruct (two_digits (Month t)) as (m1 & m2 & -> & Hm1 & Hm2 & Hmv); [lia|].
  destruct (two_digits (Day t)) as (d1 & d2 & -> & Hd1 & Hd2 & Hdv); [lia|].
  cbn [append]. unfold Parse_DateOnly.
  rewrite Hy1, Hy2, Hy3, Hy4, Hm1, Hm2, Hd1, Hd2.
  cbn [andb Ascii.eqb Bool.eqb]. rewrite Hyv, Hmv, Hdv.
  destruct (Z.leb_spec (Month t) 0); [lia|].
  destruct (Z.ltb_spec 12 (Month t)); [lia|]. cbn [orb].
  destruct (Z.ltb_spec (Day t) 1); [lia|].
  destruct (Z.ltb_spec (daysIn (Month t) (Year t)) (Day t)); [lia|].
  reflexivity.
Qed.

(** The date under which groupEventsByDate files an event is read back by
    formatDateHeader: for an event of the pane whose start is a date of the
    years 0 to 9999, the event is in the group of the key written for its
    start, and the header of that key is the date of the event as
    "Mon, Jan 2", with "Today - " or "Tomorrow - " before it or nothing,
    never the key itself left unparsed. *)
Theorem date_key_is_read_back (local : Z) (now : Time)
  (m : calendar_pane.Model) (event : providers.CalendarEvent.t) :
  In event (calendar_pane.events m) ->
  let t := providers.CalendarEvent.StartTime event in
  (0 <= Year t <= 9999)%Z ->
  (1 <= Month t <= 12)%Z ->
  (1 <= Day t <= daysIn (Month t) (Year t))%Z ->
  In event (calendar_pane.groupEventsByDate m (Format_DateOnly t)) /\
  exists label,
    calendar_pane.formatDateHeader local now (Format_DateOnly t)
    = label ++ Format_Mon_Jan_2 (Date (Year t) (Month t) (Day t) 0 0 0 0 UTC)
    /\ (label = "" \/ label = "Today - " \/ label = "Tomorrow - ").
Proof.
  intros Hin t Hy Hm Hd. split.
  - rewrite (groupEventsByDate_sorts_by_shown_date_aux m).
    apply filter_In. split; [exact Hin|]. apply String.eqb_refl.
  - unfold calendar_pane.formatDateHeader.
    rewrite (Parse_Format_DateOnly t Hy Hm Hd).
    destruct (Equal _ _ _); [exists "Today - "; auto|].
    destruct (Equal_Add _ _ _ _); [exists "Tomorrow - "; auto|].
    exists "". auto.
Qed.

End DateKeys.

(** ** The further properties on the examples *)

Lemma Call_fails_when_child_exits_witness :
  exists t',
    Call (active [banner; progress]) "tools/list" tt =
      Some (Err (Errorf "failed to read response: " io_EOF ""), t') /\
    stdout t' = [] /\
    stdin t' = [(request 1 "tools/list" ++ nl)%string] /\
    reqID t' = 1%Z.
Proof.
  apply (@Call_fails_when_child_exits unit demo_codec
           (active [banner; progress])
           (active [banner; progress]) "tools/list" tt
           (request 1 "tools/list")); try reflexivity.
  - left. split; reflexivity.
  - apply Forall_cons; [left; reflexivity|].
    apply Forall_cons; [|apply Forall_nil].
    right. left. exists (mkResponse 0 None None). repeat split.
Defined.

Lemma Call_one_id_forward_only_witness :
  exists r t',
    Call (active [banner; result_1; progress]) "tools/list" tt
      = Some (r, t') /\
    reqID t' = 1%Z /\
    (exists read, [banner; result_1; progress] = (read ++ stdout t')%list) /\
    (stdin t' = [] \/
     exists data,
       json_Marshal (mkRequest "2.0" 1%Z "tools/list" tt) = Ok data /\
       stdin t' = [(data ++ nl)%string]) /\
    started t' = true /\ startOnce t' = true /\
    spawns t' = 1%nat /\ stdin_closed t' = false.
Proof.
  apply (@Call_one_id_forward_only unit demo_codec
           (active [banner; result_1; progress]) "tools/list" tt).
  reflexivity.
Defined.

Lemma Start_handshake_witness :
  exists t',
    Start Call fresh = Some (None, t') /\
    stdin t' =
      [(request 1 "initialize" ++ nl)%string;
       (demo_Marshal_notification
          (mkNotification "2.0" "notifications/initialized") ++ nl)%string] /\
    stdout t' = [progress; result_2] /\
    reqID t' = 1%Z /\
    started t' = true /\ startOnce t' = true /\
    Process t' = true /\ spawns t' = 1%nat.
Proof.
  apply (@Start_handshake unit demo_codec fresh (request 1 "initialize") []
           result_1 (mkResponse 1 (Some "{}") None) [progress; result_2]);
    try reflexivity.
  - apply Forall_nil.
  - left. discriminate.
Defined.

Lemma Start_handshake_refused_witness :
  exists t' err,
    Start Call (NewStdioTransport None [banner; error_1])
      = Some (Some err, t') /\
    err = Errorf "failed to initialize MCP connection: "
            (Errorf "initialize failed: "
               (RPCError (mkJSONRPCError (-32601) "Method not found")) "")
            "" /\
    root_cause err = RPCError (mkJSONRPCError (-32601) "Method not found") /\
    stdin t' = [(request 1 "initialize" ++ nl)%string] /\
    stdout t' = [] /\
    started t' = true /\ startOnce t' = true /\
    forall method params,
      Call t' method params = Some (Call_locked t' method params).
Proof.
  apply (@Start_handshake_refused unit demo_codec
           (NewStdioTransport None [banner; error_1])
           (request 1 "initialize") [banner] error_1
           (mkResponse 1 None
              (Some (mkJSONRPCError (-32601) "Method not found")))
           (mkJSONRPCError (-32601) "Method not found") []);
    try reflexivity.
  apply Forall_cons; [left; reflexivity | apply Forall_nil].
Defined.

Lemma Call_after_failed_spawn_witness :
  exists t1,
    Call (NewStdioTransport (Some (LibError "exec: no command")) [])
      "tools/list" tt =
      Some (Err (Errorf "failed to start MCP server: "
                   (LibError "exec: no command") ""), t1) /\
    reqID t1 = 0%Z /\ stdin t1 = [] /\
    spawns t1 = 1%nat /\
    forall method' params',
      exists e' t2,
        Call t1 method' params' = Some (Err e', t2) /\
        (e' = Errorf "failed to write request: " os_ErrClosed "" \/
         exists m, e' = Errorf "failed to marshal request: " m "") /\
        spawns t2 = 1%nat /\ stdin t2 = [].
Proof.
  apply (@Call_after_failed_spawn unit demo_codec
           (NewStdioTransport (Some (LibError "exec: no command")) [])
           (LibError "exec: no command") "tools/list" tt);
    reflexivity.
Defined.

Lemma Call_after_Close_witness :
  exists t',
    Call (snd (Close (active [result_1]))) "tools/list" tt =
      Some (Err (Errorf "failed to write request: " os_ErrClosed ""), t') /\
    stdout t' = [result_1] /\ stdin t' = [] /\ killed t' = true /\
    reqID t' = 1%Z.
Proof.
  apply (@Call_after_Close unit demo_codec (active [result_1]) "tools/list" tt
           (request 1 "tools/list")); reflexivity.
Defined.

Lemma parseEvents_keeps_every_event_witness :
  exists events,
    parseEvents (text_result all_day_array) = Some (events, None) /\
    List.length events = 1%nat /\
    Forall2 copied [all_day] events.
Proof.
  apply (@parseEvents_keeps_every_event demo_json demo_rfc3339
           all_day_array
           [json.JObject
              [("id", json.JString "e1");
               ("summary", json.JString "Offsite");
               ("start", json.JObject [("date", json.JString "2025-03-10")]);
               ("organizer",
                json.JObject [("email", json.JString "team@example.com")])]]
           (json.mkSlice [all_day] [])).
  - discriminate.
  - reflexivity.
  - reflexivity.
Defined.

Lemma parseEvents_reads_first_text_block_witness :
  parseEvents
    (mkToolResult
       [mkContentBlock "image" "iVBORw0KGgo="; mkContentBlock "text" "";
        mkContentBlock "text" all_day_array] false)
  = parseEvents (mkToolResult [mkContentBlock "text" ""] false) /\
  ("" = "" ->
   parseEvents
     (mkToolResult
        [mkContentBlock "image" "iVBORw0KGgo="; mkContentBlock "text" "";
         mkContentBlock "text" all_day_array] false)
   = Some ([], None)).
Proof.
  apply (@parseEvents_reads_first_text_block demo_json demo_rfc3339
           [mkContentBlock "image" "iVBORw0KGgo="]
           [mkContentBlock "text" all_day_array] "" false false).
  apply Forall_cons; [discriminate | apply Forall_nil].
Defined.

Lemma start_dateTime_comes_first_witness :
  exists event,
    convert bad_time = Some event /\
    CalendarEvent.AllDay event = false /\
    CalendarEvent.StartTime event = time.zero.
Proof.
  apply (@start_dateTime_comes_first demo_rfc3339 bad_time). discriminate.
Defined.


Lemma parseAreas_skips_unusable_blocks_witness :
  @parseAreas tools_json
    (mkToolResult
       [mkContentBlock "text" areas_text; mkContentBlock "text" not_json]
       false)
  = @parseAreas tools_json
      (mkToolResult [mkContentBlock "text" areas_text] false) /\
  snd (@parseAreas tools_json
         (mkToolResult
            [mkContentBlock "text" areas_text; mkContentBlock "text" not_json]
            false)) = None.
Proof.
  apply (@parseAreas_skips_unusable_blocks tools_json
           [mkContentBlock "text" areas_text] []
           (mkContentBlock "text" not_json) false).
  right. right. eexists. reflexivity.
Defined.

Lemma parseAreas_last_array_wins_witness :
  @parseAreas tools_json
    (mkToolResult
       [mkContentBlock "text" stale_areas_text;
        mkContentBlock "text" areas_text] false)
  = (two_areas, None).
Proof.
  apply (@parseAreas_last_array_wins tools_json
           [mkContentBlock "text" stale_areas_text]
           (mkContentBlock "text" areas_text) false two_areas).
  - reflexivity.
  - discriminate.
  - reflexivity.
Defined.

Lemma GetToday_protocol_error_witness :
  exists t' err,
    @GetToday tools_json tools_codec (active [banner; error_1])
      = Some (([], Some err), t') /\
    err = Errorf "get_today failed: "
            (RPCError (mkJSONRPCError (-32601) "Method not found")) "" /\
    Error_string err =
      "get_today failed: JSON-RPC error -32601: Method not found" /\
    root_cause err = RPCError (mkJSONRPCError (-32601) "Method not found") /\
    stdin_closed t' = false /\ started t' = true /\ stdout t' = [].
Proof.
  apply (@GetToday_protocol_error tools_codec tools_json
           (active [banner; error_1]) (active [banner; error_1])
           get_today_request [banner] error_1
           (mkResponse 1 None
              (Some (mkJSONRPCError (-32601) "Method not found")))
           (mkJSONRPCError (-32601) "Method not found") []);
    try reflexivity.
  - left. split; reflexivity.
  - apply Forall_cons; [left; reflexivity | apply Forall_nil].
Defined.

Lemma GetToday_tasks_witness :
  exists tasks t',
    @GetToday tools_json tools_codec (active [progress; milk_reply])
      = Some ((tasks, None), t') /\
    parseTasks (mkToolResult [mkContentBlock "text" milk_task] false)
      = Some (tasks, None) /\
    Forall titled tasks /\
    stdout t' = [].
Proof.
  apply (@GetToday_tasks tools_codec tools_json
           (active [progress; milk_reply]) (active [progress; milk_reply])
           get_today_request [progress] milk_reply
           (mkResponse 1 (Some milk_result) None) milk_result milk_task
           false []);
    try reflexivity.
  - left. split; reflexivity.
  - apply Forall_cons; [|apply Forall_nil].
    right. left. exists (mkResponse 0 None None). repeat split.
Defined.

Lemma select_flips_one_uuid_witness :
  exists m1 m2,
    tasks_pane.Update two_tasks (tasks_pane.KeyMsg " ")
      = Some (m1, tasks_pane.Nil) /\
    tasks_pane.Update m1 (tasks_pane.KeyMsg " ")
      = Some (m2, tasks_pane.Nil) /\
    tasks_pane.selected m1 "def" = true /\
    (forall uuid, uuid <> "def" -> tasks_pane.selected m1 uuid = false) /\
    tasks_pane.tasks m1 = [milk; bread] /\ tasks_pane.cursor m1 = 1%Z /\
    (forall uuid, tasks_pane.selected m2 uuid = false).
Proof.
  apply (select_flips_one_uuid two_tasks bread); reflexivity.
Defined.

Lemma renderTask_narrow_pane_panics_witness :
  (tasks_pane.renderTask faint bold plain two_tasks bread true false = None
   <-> (30 < 13 /\ 30 - 10 < len "Bring the bread back")%Z) /\
  ((13 <= 30)%Z ->
   exists title,
     tasks_pane.renderTask faint bold plain two_tasks bread true false
     = Some (tasks_pane.row_style faint bold plain bread true
               ("> " ++ "[ ]" ++ " " ++ title)) /\
     (len title <= 30 - 10)%Z /\
     (title = "Bring the bread back" \/
      title = substring 0 (Z.to_nat (30 - 13)) "Bring the bread back"
              ++ "...")).
Proof.
  apply (renderTask_narrow_pane_panics faint bold plain two_tasks bread
           true false).
  cbn. lia.
Defined.

Lemma View_shows_the_cursor_row_witness :
  let start := fst (tasks_pane.window two_tasks) in
  let end_ := snd (tasks_pane.window two_tasks) in
  (0 <= start <= 1)%Z /\ (1 < end_ <= 2)%Z /\
  (end_ - start <= 10 - 4)%Z /\
  exists rows task line,
    tasks_pane.View_rows faint bold plain two_tasks = Some rows /\
    List.length rows = Z.to_nat (end_ - start) /\
    tasks_pane.index [milk; bread] 1 = Some task /\
    tasks_pane.renderTask faint bold plain two_tasks task true
      (tasks_pane.selected two_tasks (UUID task)) = Some line /\
    nth_error rows (Z.to_nat (1 - start)) = Some (line ++ nl).
Proof.
  apply (View_shows_the_cursor_row faint bold plain two_tasks);
    cbn; lia.
Defined.

Lemma renderEvent_panics_at_26_and_27_witness :
  calendar_pane.renderEvent faint plain narrow_calendar standup = None <->
  (26 <= 27 <= 27 /\ 27 - 25 < len "Weekly stand-up of the team")%Z.
Proof.
  apply (renderEvent_panics_at_26_and_27 faint plain narrow_calendar standup).
  cbn. lia.
Defined.

Lemma renderEvent_row_witness :
  exists col title cal loc,
    calendar_pane.renderEvent faint plain wide_calendar standup =
      Some ((("  " ++ faint col ++ "  " ++ plain title)
             ++ (if String.eqb "team@example.com" "" then ""
                 else faint (" [" ++ cal ++ "]")))
            ++ (if String.eqb "Meeting room on the second floor" "" then ""
                else faint (" @ " ++ loc))) /\
    String.length col = 8%nat /\
    (len title <= 40 - 25)%Z /\
    (title = "Weekly stand-up of the team" \/
     title = substring 0 (Z.to_nat (40 - 28)) "Weekly stand-up of the team"
             ++ "...") /\
    (len cal <= 10)%Z /\
    (cal = "team@example.com" \/ cal = substring 0 10 "team@example.com") /\
    (len loc <= 20)%Z /\
    (loc = "Meeting room on the second floor" \/
     loc = substring 0 17 "Meeting room on the second floor" ++ "...").
Proof.
  apply (renderEvent_row faint plain wide_calendar standup); cbn; lia.
Defined.

Lemma formatDateHeader_no_today_off_utc_witness :
  calendar_pane.formatDateHeader (-18000) monday_morning "2025-03-10"
  = match time.Parse_DateOnly "2025-03-10" with
    | Some t => time.Format_Mon_Jan_2 t
    | None => "2025-03-10"
    end.
Proof.
  apply (formatDateHeader_no_today_off_utc (-18000) monday_morning
           "2025-03-10"); cbn; lia.
Defined.

Lemma calendar_cursor_witness :
  (0 <= calendar_pane.cursor
          (fst (calendar_pane.Update
                  (calendar_pane.set_cursor wide_calendar 3)
                  (calendar_pane.EventsLoadedMsg [] None))))%Z /\
  (calendar_pane.cursor
     (fst (calendar_pane.Update (calendar_pane.set_cursor wide_calendar 3)
             (calendar_pane.EventsLoadedMsg [] None))) = 3%Z /\
   calendar_pane.events
     (fst (calendar_pane.Update (calendar_pane.set_cursor wide_calendar 3)
             (calendar_pane.EventsLoadedMsg [] None))) = []).
Proof.
  apply (calendar_cursor (calendar_pane.set_cursor wide_calendar 3)
           (calendar_pane.EventsLoadedMsg [] None)).
  cbn. lia.
Defined.

Lemma date_key_is_read_back_witness :
  In standup
    (calendar_pane.groupEventsByDate wide_calendar
       (time.Format_DateOnly (time.Date 2025 3 10 9 30 0 0 time.UTC))) /\
  exists label,
    calendar_pane.formatDateHeader (-18000) monday_morning
      (time.Format_DateOnly (time.Date 2025 3 10 9 30 0 0 time.UTC))
    = label ++ time.Format_Mon_Jan_2 (time.Date 2025 3 10 0 0 0 0 time.UTC)
    /\ (label = "" \/ label = "Today - " \/ label = "Tomorrow - ").
Proof.
  apply (date_key_is_read_back (-18000) monday_morning wide_calendar standup);
    [left; reflexivity | cbn; lia ..].
Defined.

Lemma Call_alone_witness :
  exists k s' o,
    steps two_calls 2 k (init shared) s' /\ mu s' = None /\ once s' = None /\
    (forall j, j <> 0%nat -> pcs s' j = pcs (init shared) j) /\
    pcs s' 0%nat = Done o /\
    Call shared "tools/list" tt = Some (result_of o, tr s').
Proof.
  apply (Call_alone two_calls 2 0 (init shared)); [lia | reflexivity ..].
Defined.
